(** * Esther lesson designer: a shallow embedding of [app/main.py]

    The content-synthesis pipeline of the lesson designer (sample selection,
    festival correlation, congregation context, narrative sections, slides and
    runtime estimation) is transcribed function by function.  The pieces of
    the Python runtime the code leans on (exceptions, string containment,
    [sorted], [datetime] arithmetic, binary64 floats) are modelled first.
    Third-party libraries ([convertdate.hebrew], [dateutil.parser]) and the
    two JSON catalogs are interfaces the definitions are parameterised by. *)

From stdpp Require Import gmap strings list sorting pretty.
From Stdlib Require Import ZArith Lia Floats.SpecFloat.

Open Scope Z_scope.

(** ** Python runtime *)

Module Py.

(** Exceptions that the modelled code can meet. *)
Inductive exn : Set :=
  | ValueError
  | TypeError
  | KeyError
  | IndexError
  | OverflowError.

#[global] Instance exn_eq_dec : EqDecision exn.
Proof. solve_decision. Defined.

(** A computation either returns or raises. *)
Inductive result (A : Type) : Type :=
  | Ok (a : A)
  | Raise (e : exn).
Arguments Ok {A} a.
Arguments Raise {A} e.

#[global] Instance result_ret : MRet result := fun _ a => Ok a.
#[global] Instance result_bind : MBind result := fun _ _ f m =>
  match m with
  | Ok a => f a
  | Raise e => Raise e
  end.

Definition is_ok {A} (r : result A) : bool :=
  match r with Ok _ => true | Raise _ => false end.

(** [for x in xs: s = body(s, x)], where the body may raise. *)
Fixpoint for_each {A S : Type} (body : S → A → result S) (xs : list A) (s : S)
  : result S :=
  match xs with
  | [] => Ok s
  | x :: xs' => s' ← body s x; for_each body xs' s'
  end.

(** *** Strings *)

(** [x or ""] for an optional string. *)
Definition or_empty (o : option string) : string := default "" o.

(** Truth value of a string: non-empty. *)
Definition str_truthy (s : string) : bool :=
  match s with
  | EmptyString => false
  | String _ _ => true
  end.

(** [needle in hay]: containment of a contiguous substring. *)
Fixpoint str_in (needle hay : string) : bool :=
  String.prefix needle hay ||
  match hay with
  | EmptyString => false
  | String _ hay' => str_in needle hay'
  end.

(** [str(n)] and [f"{n}"] for an integer. *)
Definition str_of_int (n : Z) : string := pretty n.

(** [f"{n:0Nd}"] for a non-negative integer: left-padded with zeros up to
    [width] characters. *)
Fixpoint zeros (n : nat) : string :=
  match n with
  | O => ""
  | S n' => "0" +:+ zeros n'
  end.

Definition zero_pad (width : nat) (s : string) : string :=
  zeros (width - String.length s) +:+ s.

(** *** [sorted(xs, key=...)] and [list.sort(key=...)]

    Python's sort is stable: elements with equal keys keep their order.  The
    stable sort of a list is unique, so insertion sort is an exact model. *)
Section Sorted.
Context {A : Type} (key : A → Z).

Fixpoint insert_by_key (x : A) (l : list A) : list A :=
  match l with
  | [] => [x]
  | y :: l' =>
      if key x <=? key y then x :: y :: l' else y :: insert_by_key x l'
  end.

(** Elements are inserted from the back, each in front of the elements
    already placed whose key is equal, so that earlier ones end up first
    among equals. *)
Definition sorted (l : list A) : list A := foldr insert_by_key [] l.

(** The elements of [l] whose key is [k], in their order in [l]. *)
Definition with_key (k : Z) (l : list A) : list A :=
  List.filter (λ x, key x =? k) l.

(** The order that [sorted] establishes. *)
Definition key_le (a b : A) : Prop := key a ≤ key b.
End Sorted.

(** *** [datetime]: proleptic Gregorian dates (CPython [datetime] module) *)

Record date : Set := mk_date { d_year : Z; d_month : Z; d_day : Z }.

Record datetime : Set := mk_datetime {
  year : Z; month : Z; day : Z;
  hour : Z; minute : Z; second : Z; microsecond : Z }.

Record timedelta : Set := mk_timedelta {
  days : Z; seconds : Z; microseconds : Z }.

Definition MINYEAR : Z := 1.
Definition MAXYEAR : Z := 9999.

Definition is_leap (y : Z) : bool :=
  (y mod 4 =? 0) && (negb (y mod 100 =? 0) || (y mod 400 =? 0)).

Definition days_before_year (y : Z) : Z :=
  let y' := y - 1 in y' * 365 + y' / 4 - y' / 100 + y' / 400.

Definition days_in_month (y m : Z) : Z :=
  if (m =? 2) && is_leap y then 29
  else nth (Z.to_nat m) [-1; 31; 28; 31; 30; 31; 30; 31; 31; 30; 31; 30; 31] 0.

Definition days_before_month (y m : Z) : Z :=
  nth (Z.to_nat m) [-1; 0; 31; 59; 90; 120; 151; 181; 212; 243; 273; 304; 334] 0
  + (if (2 <? m) && is_leap y then 1 else 0).

Definition ymd2ord (y m d : Z) : Z :=
  days_before_year y + days_before_month y m + d.

(** [_check_date_fields]: the constructor rejects impossible dates. *)
Definition check_date_fields (y m d : Z) : bool :=
  (MINYEAR <=? y) && (y <=? MAXYEAR) && (1 <=? m) && (m <=? 12) &&
  (1 <=? d) && (d <=? days_in_month y m).

(** [datetime(y, m, d)]: midnight of a valid day, else [ValueError]. *)
Definition datetime_new (y m d : Z) : result datetime :=
  if check_date_fields y m d then Ok (mk_datetime y m d 0 0 0 0)
  else Raise ValueError.

Definition datetime_date (t : datetime) : date :=
  mk_date (year t) (month t) (day t).

Definition date_toordinal (d : date) : Z :=
  ymd2ord (d_year d) (d_month d) (d_day d).

Definition datetime_toordinal (t : datetime) : Z :=
  ymd2ord (year t) (month t) (day t).

(** [timedelta(days, seconds, microseconds)] normalises its fields so that
    [0 <= seconds < 86400] and [0 <= microseconds < 1000000]. *)
Definition timedelta_new (d s us : Z) : timedelta :=
  let s := s + us / 1000000 in
  let us := us mod 1000000 in
  let d := d + s / 86400 in
  let s := s mod 86400 in
  mk_timedelta d s us.

(** [a - b] for two naive datetimes. *)
Definition datetime_sub (a b : datetime) : timedelta :=
  let secs (t : datetime) := second t + minute t * 60 + hour t * 3600 in
  timedelta_new (datetime_toordinal a - datetime_toordinal b)
                (secs a - secs b)
                (microsecond a - microsecond b).

(** [a - b] for two dates. *)
Definition date_sub (a b : date) : timedelta :=
  timedelta_new (date_toordinal a - date_toordinal b) 0 0.

(** [date.isoformat()]: ["%04d-%02d-%02d"]. *)
Definition date_isoformat (d : date) : string :=
  zero_pad 4 (str_of_int (d_year d)) +:+ "-" +:+
  zero_pad 2 (str_of_int (d_month d)) +:+ "-" +:+
  zero_pad 2 (str_of_int (d_day d)).

(** *** Floats: IEEE 754 binary64, as specified by [SpecFloat] *)

Definition prec : Z := 53.
Definition emax : Z := 1024.

(** Conversion of an [int] operand of a float operation
    ([PyLong_AsDouble]): correctly rounded, [OverflowError] when the integer
    is beyond the largest double. *)
Definition float_of_int (n : Z) : result spec_float :=
  match binary_normalize prec emax n 0 false with
  | S754_infinity _ => Raise OverflowError
  | x => Ok x
  end.

(** The literal [0.65]: the double nearest to 65/100, which is
    [5854679515581645 * 2^-53]. *)
Definition C065 : positive := 5854679515581645.

Definition float_0_65 : spec_float := S754_finite false C065 (-53).

(** [x * y] on floats. *)
Definition float_mul (x y : spec_float) : spec_float := SFmul prec emax x y.

(** [int(x)]: truncation toward zero. *)
Definition int_of_float (x : spec_float) : result Z :=
  match x with
  | S754_zero _ => Ok 0
  | S754_finite s m e =>
      let a := match e with
               | Z0 => Zpos m
               | Zpos _ => Z.shiftl (Zpos m) e
               | Zneg p => Z.shiftr (Zpos m) (Zpos p)
               end in
      Ok (if s then - a else a)
  | S754_infinity _ => Raise OverflowError
  | S754_nan => Raise ValueError
  end.

(** The state of a right shift by [k] bits that started from the mantissa
    [P]: the bits shifted out so far form the remainder [R]; the round bit
    tells whether [R] reaches half a unit and the sticky bit whether it
    lies strictly off zero and off the half. *)
Definition shr_inv (P k : Z) (mrs : shr_record) : Prop :=
  ∃ R, P = shr_m mrs * 2 ^ k + R ∧ 0 ≤ R < 2 ^ k ∧ 0 ≤ shr_m mrs ∧
       shr_r mrs = (2 ^ k <=? 2 * R) ∧
       shr_s mrs = negb (R =? 0) && negb (2 * R =? 2 ^ k).

(** [M] is [P / 2^k] rounded to the nearest integer, ties to even. *)
Definition is_rne (P k M : Z) : Prop :=
  2 * P - 2 ^ k ≤ 2 * (M * 2 ^ k) ≤ 2 * P + 2 ^ k ∧
  (2 * (M * 2 ^ k) = 2 * P - 2 ^ k ∨ 2 * (M * 2 ^ k) = 2 * P + 2 ^ k →
   Z.even M = true).

(** The float of sign [sx] and value [M1 * 2^e], for a rounded mantissa
    [2^52 <= M1 <= 2^53]. *)
Definition pack (sx : bool) (M1 e : Z) : spec_float :=
  if M1 <? 2 ^ 53 then S754_finite sx (Z.to_pos M1) e
  else S754_finite sx 4503599627370496 (e + 1).

(** What the conversion of the integer [p] yields, in units of [2^-53]: the
    integer itself below [2^53], else its rounding to 53 bits. *)
Definition conv_desc (p : positive) (V : Z) : Prop :=
  let D := Zpos (digits2_pos p) in
  (Zpos p < 2 ^ 53 ∧ V = Zpos p * 2 ^ 53) ∨
  (2 ^ 53 ≤ Zpos p ∧
   ∃ M1, is_rne (Zpos p) (D - 53) M1 ∧ 2 ^ 52 ≤ M1 ≤ 2 ^ 53 ∧ V = M1 * 2 ^ D).

(** What the product of the float [M * 2^e] by [0.65] yields, in units of
    [2^-53]: the rounding of the exact product to 53 bits. *)
Definition prod_desc (M : positive) (e : Z) (W : Z) : Prop :=
  let Dp := Zpos (digits2_pos (M * C065)) in
  ∃ M1, is_rne (Zpos (M * C065)) (Dp - 53) M1 ∧ 2 ^ 52 ≤ M1 ≤ 2 ^ 53 ∧
        W = M1 * 2 ^ (e + Dp - 53).

End Py.
Import Py.

(** ** Runtime estimator *)

(** [estimate_runtime(estimated_minutes, interpreted)]. *)
Definition estimate_runtime (estimated_minutes : Z) (interpreted : bool)
  : result Z :=
  if interpreted then
    x ← float_of_int estimated_minutes;
    v ← int_of_float (float_mul x float_0_65);
    Ok (Z.max 10 v)
  else Ok estimated_minutes.

(** ** Data model *)

(** A text sample of the catalog ([etcbc_samples.json]). *)
Record Morphology : Set := {
  part_of_speech : string;
  root : string }.

Record Sample : Set := {
  reference : string;
  book : string;
  hebrew_focus : string;
  translation : string;
  morphology : Morphology;
  exegetical_notes : list string;
  lexical_insights : list string;
  themes : list string }.

(** A significant date of a congregation and the profile that holds it
    ([congregation_calendar.json]).  Every key of a profile that the resolver
    reads may be absent, and the profile may have further keys, of which the
    names are kept. *)
Record SignificantDate : Set := {
  sd_date : string;
  sd_description : string;
  sd_emphasis : option string }.

Record Profile : Set := {
  p_name : option string;
  p_location : option string;
  p_values : option (list string);
  p_significant_dates : option (list SignificantDate);
  p_other_keys : list string }.

(** The empty dict [{}]. *)
Definition empty_profile : Profile :=
  {| p_name := None; p_location := None; p_values := None;
     p_significant_dates := None; p_other_keys := [] |}.

(** [key in d] for an optional key of a dict. *)
Definition has_key {A} (o : option A) : bool :=
  match o with Some _ => true | None => false end.

(** Truth value of a profile dict: it has at least one key, one that the
    resolver reads or another. *)
Definition profile_truthy (r : Profile) : bool :=
  has_key (p_name r) || has_key (p_location r) ||
  has_key (p_values r) || has_key (p_significant_dates r) ||
  negb (bool_decide (p_other_keys r = [])).

(** The result of the congregation context resolver. *)
Record Event : Set := {
  ev_description : string;
  ev_emphasis : option string;
  ev_days_apart : Z }.

Record CongregationContext : Set := {
  cc_name : option string;
  cc_location : option string;
  cc_values : list string;
  nearby_events : list Event }.

(** A festival of the catalog, correlated with a civil date. *)
Record FestivalMatch : Set := {
  festival : string;
  emphasis : string;
  festival_date : string;
  days_apart : Z }.

Record LessonSection : Set := {
  title : string;
  content : string;
  exegetical : list string;
  application : string }.

Record Slide : Set := {
  slide_title : string;
  bullets : list string;
  notes : string }.

(** ** Interfaces of what lies outside [main.py] *)

(** [convertdate.hebrew]: conversions between the civil and the Hebrew
    calendar, each returning a (year, month, day) triple or raising. *)
Class ConvertDate := {
  hebrew_from_gregorian : Z → Z → Z → result (Z * Z * Z);
  hebrew_to_gregorian : Z → Z → Z → result (Z * Z * Z) }.

(** [dateutil.parser.isoparse]. *)
Class DateUtil := {
  isoparse : string → result datetime }.

(** [str.lower]. *)
Class StrLower := {
  lower : string → string }.

(** The two catalogs read from JSON when the module is loaded. *)
Class Catalogs := {
  ETCBC_SAMPLES : list Sample;
  CONG_CALENDAR : gmap string Profile }.

(** ** The module's constants *)

Definition FESTIVALS : list (Z * Z * string * string) := [
  (1, 15, "Passover (Pesach)", "Celebrates redemption from Egypt and anticipates ultimate deliverance.");
  (1, 21, "Feast of Unleavened Bread", "Calls to remove leaven—symbolizing holiness and readiness.");
  (3, 6, "Shavuot (Pentecost)", "Remembers Torah giving and the Spirit's empowering.");
  (7, 1, "Rosh Hashanah", "Invites reflection, repentance, and attentiveness to God's voice.");
  (7, 10, "Yom Kippur", "Centers on atonement and God's mercy.");
  (7, 15, "Sukkot", "Highlights God's provision in wilderness journeys.");
  (9, 25, "Hanukkah", "Celebrates dedication and faithful witness.");
  (12, 14, "Purim", "Recounts God's hidden deliverance in Esther's story.")
].

(** ** Sample selector *)

Section SelectSample.
Context `{!StrLower, !Catalogs}.

(** [for sample in samples: if test(sample): return sample]; [None] when
    the loop runs to its end. *)
Fixpoint first_sample (test : Sample → bool) (samples : list Sample)
  : option Sample :=
  match samples with
  | [] => None
  | sample :: rest => if test sample then Some sample else first_sample test rest
  end.

Definition passage_test (normalized_passage : string) (sample : Sample) : bool :=
  str_truthy normalized_passage &&
  str_in normalized_passage (lower (reference sample)).

Definition topic_test (normalized_topic : string) (sample : Sample) : bool :=
  existsb (λ theme, str_in normalized_topic (lower theme)) (themes sample).

(** [select_sample(topic, passage)]. *)
Definition select_sample (topic passage : option string) : result Sample :=
  let normalized_topic := lower (or_empty topic) in
  let normalized_passage := lower (or_empty passage) in
  match first_sample (passage_test normalized_passage) ETCBC_SAMPLES with
  | Some sample => Ok sample
  | None =>
      match (if str_truthy normalized_topic
             then first_sample (topic_test normalized_topic) ETCBC_SAMPLES
             else None) with
      | Some sample => Ok sample
      | None =>
          match ETCBC_SAMPLES with
          | sample :: _ => Ok sample
          | [] => Raise IndexError
          end
      end
  end.
End SelectSample.

(** ** Congregation context resolver *)

Section CongregationContext.
Context `{!DateUtil, !Catalogs}.

(** [CONG_CALENDAR.get(congregation_id) or CONG_CALENDAR.get("default", {})]. *)
Definition resolve_record (congregation_id : string) : Profile :=
  let fallback := default empty_profile (CONG_CALENDAR !! "default") in
  match CONG_CALENDAR !! congregation_id with
  | Some record => if profile_truthy record then record else fallback
  | None => fallback
  end.

(** One turn of the loop over the significant dates. *)
Definition event_body (target_date : datetime) (events : list Event)
    (item : SignificantDate) : result (list Event) :=
  match isoparse (sd_date item) with
  | Raise ValueError | Raise TypeError => Ok events
  | Raise e => Raise e
  | Ok parsed =>
      let event_date := datetime_date parsed in
      let delta := Z.abs (days (date_sub (datetime_date target_date) event_date)) in
      if delta <=? 21 then
        Ok (events ++ [ {| ev_description := sd_description item;
                           ev_emphasis := sd_emphasis item;
                           ev_days_apart := delta |} ])
      else Ok events
  end.

(** [congregation_context(congregation_id, target_date)]. *)
Definition congregation_context (congregation_id : string)
    (target_date : datetime) : result CongregationContext :=
  let record := resolve_record congregation_id in
  events ← for_each (event_body target_date)
                    (default [] (p_significant_dates record)) [];
  Ok {| cc_name := p_name record;
        cc_location := p_location record;
        cc_values := default [] (p_values record);
        nearby_events := sorted ev_days_apart events |}.
End CongregationContext.

(** ** Festival matcher *)

Section FestivalMatcher.
Context `{!ConvertDate}.

(** The [try] block: the conversion of a liturgical date of [year] and the
    construction of the civil [datetime]. *)
Definition convert_festival (year month day : Z) : result datetime :=
  '(g_year, g_month, g_day) ← hebrew_to_gregorian year month day;
  datetime_new g_year g_month g_day.

(** One turn of the inner loop, over the festivals of one year. *)
Definition festival_body (gregorian_date : datetime) (year : Z)
    (matches : list FestivalMatch) (entry : Z * Z * string * string)
  : result (list FestivalMatch) :=
  let '(month, day, name, emphasis) := entry in
  match convert_festival year month day with
  | Raise ValueError => Ok matches
  | Raise e => Raise e
  | Ok festival_date =>
      let delta := Z.abs (days (datetime_sub gregorian_date festival_date)) in
      if delta <=? 21 then
        Ok (matches ++ [ {| festival := name;
                            emphasis := emphasis;
                            festival_date :=
                              date_isoformat (datetime_date festival_date);
                            days_apart := delta |} ])
      else Ok matches
  end.

(** One turn of the outer loop, over the offsets of the swept years. *)
Definition offset_body (gregorian_date : datetime) (hy : Z)
    (matches : list FestivalMatch) (offset : Z) : result (list FestivalMatch) :=
  let year := hy + offset in
  for_each (festival_body gregorian_date year) FESTIVALS matches.

(** [hebrew_festival_matches(gregorian_date)], for a naive [datetime]. *)
Definition hebrew_festival_matches (gregorian_date : datetime)
  : result (list FestivalMatch) :=
  '(hy, _, _) ← hebrew_from_gregorian (year gregorian_date)
                   (month gregorian_date) (day gregorian_date);
  matches ← for_each (offset_body gregorian_date hy) [-1; 0; 1] [];
  Ok (sorted days_apart matches).
End FestivalMatcher.

(** ** Narrative composer *)

(** [build_conclusion(sample, introduction)]. *)
Definition build_conclusion (sample : Sample) (introduction : string) : string :=
  let focus := hebrew_focus sample in
  ("The same cadence that opened our time—" +:+ focus +:+
   "—now sends us. Let the insights we traced move from study to practice: ") +:+
  "embrace God's invitation, embody covenantal blessing, and walk toward Christlike transformation together.".

(** [construct_sections(sample, estimated_minutes)]. *)
Definition construct_sections (sample : Sample) (estimated_minutes : Z)
  : list LessonSection :=
  let base_points := [
    {| title := "Textual Horizon";
       content :=
         (reference sample +:+ " anchors the lesson. Key Hebrew focus: " +:+
          hebrew_focus sample +:+ " (" +:+ translation sample +:+ "). ") +:+
         ("Morphology: " +:+ part_of_speech (morphology sample) +:+
          " rooted in " +:+ root (morphology sample) +:+ ".");
       exegetical := exegetical_notes sample;
       application := "Trace the flow of the passage, inviting listeners to inhabit the narrative movement." |};
    {| title := "Linguistic Insights";
       content := "Lexical themes emerge, amplifying covenantal movement.";
       exegetical := lexical_insights sample;
       application := "Highlight how the Hebrew terms reshape imagination and discipleship practices." |};
    {| title := "Formation Pathways";
       content := "Move from exegesis to embodied action.";
       exegetical := [
         "Map the passage's structure to contemporary rhythms (gathering, scattering, serving).";
         "Invite testimonies or reflective prayer that echo the text's movement." ];
       application := "Provide concrete steps for the congregation to live the text this week." |}
  ] in
  if estimated_minutes <? 25 then
    let condensed := take 1 base_points in
    condensed ++ [
      {| title := "Concise Insight";
         content :=
           "In limited time, emphasize the pivot: " +:+ hebrew_focus sample +:+
           " propels us toward faithful obedience.";
         exegetical := take 1 (lexical_insights sample);
         application := "Offer one spiritual practice and one communal action." |} ]
  else base_points.

(** ** Slide structurer *)

(** [enumerate(xs, start)]. *)
Fixpoint enumerate {A} (start : Z) (xs : list A) : list (Z * A) :=
  match xs with
  | [] => []
  | x :: xs' => (start, x) :: enumerate (start + 1) xs'
  end.

Definition opening_slide (introduction : string) : Slide :=
  {| slide_title := "Opening Story";
     bullets := [introduction];
     notes := "Welcome, frame the occasion, and read the passage aloud." |}.

Definition section_slide (idx : Z) (section : LessonSection) : Slide :=
  {| slide_title := str_of_int idx +:+ ". " +:+ title section;
     bullets := [content section] ++ exegetical section ++ [application section];
     notes := "Guide discussion; invite observations and response." |}.

Definition closing_slide (conclusion : string) : Slide :=
  {| slide_title := "Sending Charge";
     bullets := [conclusion];
     notes := "Summarize commitments and pray a commissioning blessing." |}.

(** [create_slides(introduction, sections, conclusion)]. *)
Definition create_slides (introduction : string) (sections : list LessonSection)
    (conclusion : string) : list Slide :=
  let slides := [opening_slide introduction] in
  let slides :=
    fold_left (λ slides '(idx, section), slides ++ [section_slide idx section])
              (enumerate 1 sections) slides in
  slides ++ [closing_slide conclusion].

(** ** Derived notions used in the statements *)

(** [x] is the first element of [l] that passes [test]. *)
Definition first_such {A} (test : A → bool) (l : list A) (x : A) : Prop :=
  ∃ before after,
    l = before ++ x :: after ∧ test x = true ∧
    Forall (λ y, test y = false) before.

(** No element of [l] passes [test]. *)
Definition none_such {A} (test : A → bool) (l : list A) : Prop :=
  Forall (λ y, test y = false) l.

(** [needle] occurs in [hay] as a contiguous substring. *)
Definition substring_of (needle hay : string) : Prop :=
  ∃ before after, hay = before +:+ needle +:+ after.

(** Distance in days between two calendar days. *)
Definition day_distance (a b : date) : Z :=
  Z.abs (date_toordinal a - date_toordinal b).

(** A [datetime] whose time of day lies within the day. *)
Definition time_in_range (t : datetime) : Prop :=
  0 ≤ hour t < 24 ∧ 0 ≤ minute t < 60 ∧ 0 ≤ second t < 60 ∧
  0 ≤ microsecond t < 1000000.

Section Contributions.
Context `{!ConvertDate, !DateUtil}.

(** What one significant date adds to the events: nothing when its date does
    not parse or lies outside the window. *)
Definition event_of (target_date : datetime) (item : SignificantDate)
  : list Event :=
  match isoparse (sd_date item) with
  | Ok parsed =>
      let delta := day_distance (datetime_date target_date) (datetime_date parsed) in
      if delta <=? 21 then
        [ {| ev_description := sd_description item;
             ev_emphasis := sd_emphasis item;
             ev_days_apart := delta |} ]
      else []
  | Raise _ => []
  end.

(** When the stored date does not parse, the parser reports it with one of
    the two exceptions the resolver expects from it. *)
Definition parse_failure_expected (item : SignificantDate) : Prop :=
  ∀ e, isoparse (sd_date item) = Raise e → e = ValueError ∨ e = TypeError.

(** The stored date of a significant date parses. *)
Definition date_parses (item : SignificantDate) : bool :=
  is_ok (isoparse (sd_date item)).

(** The (year, festival) pairs in the order in which the matcher visits
    them: year by year and, within a year, in catalog order. *)
Definition year_pairs (year : Z) : list (Z * (Z * Z * string * string)) :=
  map (λ entry, (year, entry)) FESTIVALS.

Definition sweep (hy : Z) : list (Z * (Z * Z * string * string)) :=
  flat_map (λ offset, year_pairs (hy + offset)) [-1; 0; 1].

(** The liturgical date of the pair exists in its year and is a civil date
    that [datetime] can hold. *)
Definition pair_converts (pair : Z * (Z * Z * string * string)) : bool :=
  let '(year, (month, day, _, _)) := pair in
  is_ok (convert_festival year month day).

(** When the conversion of the pair fails, it fails with the exception the
    matcher expects from it. *)
Definition conversion_failure_expected
    (pair : Z * (Z * Z * string * string)) : Prop :=
  let '(year, (month, day, _, _)) := pair in
  ∀ e, convert_festival year month day = Raise e → e = ValueError.

(** What one (year, festival) pair adds to the matches: nothing when its
    conversion fails or its civil date lies outside the window. *)
Definition match_of (gregorian_date : datetime)
    (pair : Z * (Z * Z * string * string)) : list FestivalMatch :=
  let '(year, (month, day, name, emphasis)) := pair in
  match convert_festival year month day with
  | Ok festival_date =>
      let delta := Z.abs (days (datetime_sub gregorian_date festival_date)) in
      if delta <=? 21 then
        [ {| festival := name;
             emphasis := emphasis;
             festival_date := date_isoformat (datetime_date festival_date);
             days_apart := delta |} ]
      else []
  | Raise _ => []
  end.
End Contributions.

(** The statement that a condensed lesson always carries exactly one
    exegetical note in its second section. *)
Definition condensed_has_one_note (sample : Sample) (estimated_minutes : Z)
  : Prop :=
  ∃ first second,
    construct_sections sample estimated_minutes = [first; second] ∧
    length (exegetical second) = 1%nat.

(** The statement that the resolver answers for whatever dates are stored,
    with events inside the window and sorted by distance. *)
Definition resolver_always_answers `{!DateUtil, !Catalogs}
    (congregation_id : string) (target_date : datetime) : Prop :=
  ∃ context,
    congregation_context congregation_id target_date = Ok context ∧
    Forall (λ ev, 0 ≤ ev_days_apart ev ≤ 21) (nearby_events context) ∧
    StronglySorted (key_le ev_days_apart) (nearby_events context).

(** The runtime estimate as a closed formula: the request itself, or the
    larger of 10 and the integer part of 65 percent of the request. *)
Definition estimate_as_stated (estimated_minutes : Z) (interpreted : bool)
  : Prop :=
  estimate_runtime estimated_minutes interpreted
  = Ok (if interpreted then Z.max 10 (estimated_minutes * 65 / 100)
        else estimated_minutes).

(** The interpreted estimate is a value between the floor of 10 minutes and
    the request. *)
Definition interpreted_estimate_bounded (estimated_minutes : Z) : Prop :=
  ∃ r, estimate_runtime estimated_minutes true = Ok r ∧
       10 ≤ r ≤ estimated_minutes.

(** ** Test doubles and sample data for the examples *)

Module Fixtures.

(** Lower-casing of the ASCII letters. *)
Definition ascii_lower_char (c : Ascii.ascii) : Ascii.ascii :=
  let n := Ascii.nat_of_ascii c in
  if ((65 <=? n) && (n <=? 90))%nat then Ascii.ascii_of_nat (n + 32) else c.

Fixpoint ascii_lower_string (s : string) : string :=
  match s with
  | EmptyString => EmptyString
  | String c s' => String (ascii_lower_char c) (ascii_lower_string s')
  end.

Definition ascii_lower : StrLower := {| lower := ascii_lower_string |}.

Definition genesis : Sample :=
  {| reference := "Genesis 12:1-3"; book := "Genesis";
     hebrew_focus := "lekh-lekha"; translation := "go forth";
     morphology := {| part_of_speech := "verb"; root := "hlk" |};
     exegetical_notes := ["The call precedes the promise."];
     lexical_insights := ["Blessing is repeated five times."; "Go is doubled."];
     themes := ["Calling"; "Blessing"] |}.

Definition esther : Sample :=
  {| reference := "Esther 4:14"; book := "Esther";
     hebrew_focus := "et"; translation := "time";
     morphology := {| part_of_speech := "noun"; root := "et" |};
     exegetical_notes := ["Relief will arise from another place."];
     lexical_insights := [];
     themes := ["Providence"; "Courage"] |}.

Definition stored_profile : Profile :=
  {| p_name := Some "Esther Fellowship";
     p_location := Some "Singapore";
     p_values := Some ["Hospitality"];
     p_significant_dates := Some [
       {| sd_date := "2025-04-20"; sd_description := "Anniversary service";
          sd_emphasis := Some "Gratitude" |};
       {| sd_date := "soon"; sd_description := "Retreat"; sd_emphasis := None |};
       {| sd_date := "2025-04-13"; sd_description := "Baptism Sunday";
          sd_emphasis := Some "New life" |};
       {| sd_date := "2025-08-09"; sd_description := "National day";
          sd_emphasis := None |} ];
     p_other_keys := [] |}.

Definition catalogs : Catalogs :=
  {| ETCBC_SAMPLES := [genesis; esther];
     CONG_CALENDAR := {[ "default" := stored_profile ]} |}.

(** A parser of [YYYY-MM-DD] alone; anything else is a [ValueError]. *)
Definition digit_of (c : Ascii.ascii) : option Z :=
  let n := Z.of_nat (Ascii.nat_of_ascii c) in
  if (48 <=? n) && (n <=? 57) then Some (n - 48) else None.

Fixpoint digits_value (acc : Z) (cs : list Ascii.ascii) : option Z :=
  match cs with
  | [] => Some acc
  | c :: cs' => d ← digit_of c; digits_value (acc * 10 + d) cs'
  end.

Definition hyphen : Ascii.ascii := Ascii.ascii_of_nat 45.

Definition parse_iso_date (s : string) : result datetime :=
  match String.list_ascii_of_string s with
  | [y1; y2; y3; y4; dash1; m1; m2; dash2; d1; d2] =>
      if (Ascii.eqb dash1 hyphen && Ascii.eqb dash2 hyphen)%bool then
        match digits_value 0 [y1; y2; y3; y4], digits_value 0 [m1; m2],
              digits_value 0 [d1; d2] with
        | Some y, Some m, Some d => datetime_new y m d
        | _, _, _ => Raise ValueError
        end
      else Raise ValueError
  | _ => Raise ValueError
  end.

Definition iso_dates : DateUtil := {| isoparse := parse_iso_date |}.

(** A table of the festivals of the Hebrew years 5785 and 5786; every other
    liturgical date is refused with a [ValueError]. *)
Definition festival_table : list (Z * Z * Z * (Z * Z * Z)) := [
  (5785, 7, 1, (2024, 10, 3));   (5785, 7, 10, (2024, 10, 12));
  (5785, 7, 15, (2024, 10, 17)); (5785, 9, 25, (2024, 12, 26));
  (5785, 12, 14, (2025, 3, 14)); (5785, 1, 15, (2025, 4, 13));
  (5785, 1, 21, (2025, 4, 19));  (5785, 3, 6, (2025, 6, 2));
  (5786, 7, 1, (2025, 9, 23));   (5786, 7, 10, (2025, 10, 2));
  (5786, 7, 15, (2025, 10, 7));  (5786, 9, 25, (2025, 12, 15));
  (5786, 12, 14, (2026, 3, 3));  (5786, 1, 15, (2026, 4, 2));
  (5786, 1, 21, (2026, 4, 8));   (5786, 3, 6, (2026, 5, 22))
].

Fixpoint table_lookup (table : list (Z * Z * Z * (Z * Z * Z))) (y m d : Z)
  : result (Z * Z * Z) :=
  match table with
  | [] => Raise ValueError
  | (y', m', d', civil) :: table' =>
      if (y =? y') && (m =? m') && (d =? d') then Ok civil
      else table_lookup table' y m d
  end.

(** The Hebrew year starts on 1 Tishri: 3 October 2024 for 5785 and
    23 September 2025 for 5786. *)
Definition table_hebrew_year (y m d : Z) : result (Z * Z * Z) :=
  let ord := ymd2ord y m d in
  if ord <? ymd2ord 2024 10 3 then Ok (5784, 0, 0)
  else if ord <? ymd2ord 2025 9 23 then Ok (5785, 0, 0)
  else Ok (5786, 0, 0).

Definition table_calendar : ConvertDate :=
  {| hebrew_from_gregorian := table_hebrew_year;
     hebrew_to_gregorian := table_lookup festival_table |}.

Definition midnight (y m d : Z) : datetime := mk_datetime y m d 0 0 0 0.

End Fixtures.

(** * The rest of [main.py] *)

(** ** More of the Python runtime *)

Module PyMore.

(** [xs[:limit]]: the first [limit] elements, or all but the last [-limit]
    for a negative [limit]. *)
Definition slice_to {A} (limit : Z) (xs : list A) : list A :=
  if 0 <=? limit then take (Z.to_nat limit) xs
  else take (length xs - Z.to_nat (- limit)) xs.

(** [str.strip()]: white space is what [str.isspace] accepts, matched here
    on the UTF-8 encoding: U+0009 to U+000D, U+001C to U+0020, U+0085,
    U+00A0, U+1680, U+2000 to U+200A, U+2028, U+2029, U+202F, U+205F and
    U+3000. *)
Definition is_ascii_space (c : Ascii.ascii) : bool :=
  let n := Ascii.nat_of_ascii c in
  ((9 <=? n) && (n <=? 13) || (28 <=? n) && (n <=? 32))%nat.

Definition byte (n : nat) : Ascii.ascii := Ascii.ascii_of_nat n.

(** Whether the bytes [b1 b2] and [b1 b2 b3] encode a white-space
    character. *)
Definition is_space2 (b1 b2 : Ascii.ascii) : bool :=
  let n1 := Ascii.nat_of_ascii b1 in
  let n2 := Ascii.nat_of_ascii b2 in
  ((n1 =? 194) && ((n2 =? 133) || (n2 =? 160)))%nat.

Definition is_space3 (b1 b2 b3 : Ascii.ascii) : bool :=
  let n1 := Ascii.nat_of_ascii b1 in
  let n2 := Ascii.nat_of_ascii b2 in
  let n3 := Ascii.nat_of_ascii b3 in
  ((n1 =? 225) && (n2 =? 154) && (n3 =? 128) ||
   (n1 =? 226) && (n2 =? 128) &&
     ((128 <=? n3) && (n3 <=? 138) || (n3 =? 168) || (n3 =? 169) || (n3 =? 175)) ||
   (n1 =? 226) && (n2 =? 129) && (n3 =? 159) ||
   (n1 =? 227) && (n2 =? 128) && (n3 =? 128))%nat.

(** [lstrip] on the bytes of a string. *)
Fixpoint lstrip_bytes (bs : list Ascii.ascii) : list Ascii.ascii :=
  match bs with
  | b1 :: rest1 =>
      if is_ascii_space b1 then lstrip_bytes rest1
      else match rest1 with
           | b2 :: rest2 =>
               if is_space2 b1 b2 then lstrip_bytes rest2
               else match rest2 with
                    | b3 :: rest3 =>
                        if is_space3 b1 b2 b3 then lstrip_bytes rest3 else bs
                    | [] => bs
                    end
           | [] => bs
           end
  | [] => []
  end.

(** [rstrip] on the reversed bytes of a string: the encodings are met last
    byte first. *)
Fixpoint rstrip_reversed (bs : list Ascii.ascii) : list Ascii.ascii :=
  match bs with
  | b1 :: rest1 =>
      if is_ascii_space b1 then rstrip_reversed rest1
      else match rest1 with
           | b2 :: rest2 =>
               if is_space2 b2 b1 then rstrip_reversed rest2
               else match rest2 with
                    | b3 :: rest3 =>
                        if is_space3 b3 b2 b1 then rstrip_reversed rest3 else bs
                    | [] => bs
                    end
           | [] => bs
           end
  | [] => []
  end.

Definition strip (s : string) : string :=
  String.string_of_list_ascii
    (rev (rstrip_reversed (rev (lstrip_bytes (String.list_ascii_of_string s))))).

(** [s.replace(old, new)] for single characters. *)
Fixpoint replace_char (old new : Ascii.ascii) (s : string) : string :=
  match s with
  | EmptyString => EmptyString
  | String c s' =>
      String (if Ascii.eqb c old then new else c) (replace_char old new s')
  end.

(** [os.path.basename] on POSIX: what follows the last slash. *)
Fixpoint basename_from (current : string) (s : string) : string :=
  match s with
  | EmptyString => current
  | String c s' =>
      if Ascii.eqb c (byte 47) then basename_from s' s'
      else basename_from current s'
  end.

Definition basename (path : string) : string := basename_from path path.

(** Failures beyond the exceptions of [Py.exn]: the [AttributeError] of a
    method call on [None], and FastAPI's [HTTPException]. *)
Inductive failure : Set :=
  | AttributeError
  | HTTPException (status_code : Z) (detail : string)
  | Uncaught (e : exn).

Inductive outcome (A : Type) : Type :=
  | Returns (a : A)
  | Fails (f : failure).
Arguments Returns {A} a.
Arguments Fails {A} f.

#[global] Instance outcome_ret : MRet outcome := fun _ a => Returns a.
#[global] Instance outcome_bind : MBind outcome := fun _ _ f m =>
  match m with
  | Returns a => f a
  | Fails e => Fails e
  end.

(** A call that may raise one of the exceptions of [Py.exn], which the
    caller does not catch. *)
Definition uncaught {A} (r : result A) : outcome A :=
  match r with
  | Ok a => Returns a
  | Raise e => Fails (Uncaught e)
  end.

End PyMore.
Import PyMore.

(** ** Festival matcher, for a reference date with or without time zone *)

(** A [datetime] with its [tzinfo]: naive, or aware with the offset of its
    zone from UTC in seconds, as [isoparse] returns it for a date written
    with an offset.  The fields are those of the local time. *)
Record zoned_datetime : Set := mk_zoned {
  local : datetime;
  tzinfo : option Z }.

(** [a - b] for a naive [b]: an aware minus a naive [datetime] raises
    [TypeError]. *)
Definition zoned_sub (a : zoned_datetime) (b : datetime) : result timedelta :=
  match tzinfo a with
  | None => Ok (datetime_sub (local a) b)
  | Some _ => Raise TypeError
  end.

Module Zoned.
Section FestivalMatcher.
Context `{!ConvertDate}.

(** One turn of the inner loop: the subtraction stands after the [try]. *)
Definition festival_body (gregorian_date : zoned_datetime) (year : Z)
    (matches : list FestivalMatch) (entry : Z * Z * string * string)
  : result (list FestivalMatch) :=
  let '(month, day, name, emphasis) := entry in
  match convert_festival year month day with
  | Raise ValueError => Ok matches
  | Raise e => Raise e
  | Ok festival_date =>
      difference ← zoned_sub gregorian_date festival_date;
      let delta := Z.abs (days difference) in
      if delta <=? 21 then
        Ok (matches ++ [ {| festival := name;
                            emphasis := emphasis;
                            festival_date :=
                              date_isoformat (datetime_date festival_date);
                            days_apart := delta |} ])
      else Ok matches
  end.

Definition offset_body (gregorian_date : zoned_datetime) (hy : Z)
    (matches : list FestivalMatch) (offset : Z) : result (list FestivalMatch) :=
  let year := hy + offset in
  for_each (festival_body gregorian_date year) FESTIVALS matches.

(** [hebrew_festival_matches(gregorian_date)], for any [datetime]. *)
Definition hebrew_festival_matches (gregorian_date : zoned_datetime)
  : result (list FestivalMatch) :=
  '(hy, _, _) ← hebrew_from_gregorian (year (local gregorian_date))
                                      (month (local gregorian_date))
                                      (day (local gregorian_date));
  matches ← for_each (offset_body gregorian_date hy) [-1; 0; 1] [];
  Ok (sorted days_apart matches).

(** One turn of the loops, on a (year, festival) pair. *)
Definition pair_body (gregorian_date : zoned_datetime)
    (matches : list FestivalMatch) (pair : Z * (Z * Z * string * string))
  : result (list FestivalMatch) :=
  festival_body gregorian_date pair.1 matches pair.2.
End FestivalMatcher.
End Zoned.

(** ** Slide palette *)

Definition COLOR_PALETTE : list (Z * Z * Z) := [
  (40, 75, 99);
  (142, 68, 173);
  (22, 160, 133);
  (192, 57, 43)
].

(** [make_slide_palette(index)]: the subscript is never negative, so it
    fails only beyond the end of the list. *)
Definition make_slide_palette (index : Z) : result (Z * Z * Z) :=
  match COLOR_PALETTE !! Z.to_nat (index mod Z.of_nat (length COLOR_PALETTE)) with
  | Some color => Ok color
  | None => Raise IndexError
  end.

(** ** Introduction *)

Section Introduction.
Context `{!StrLower}.

(** The f-string of the [return] statement of [build_introduction], before
    [strip].  The emphasis of a congregation event may be [None], on which
    [.lower()] raises [AttributeError]. *)
Definition introduction_text (sample : Sample) (audience occasion : option string)
    (festival_info : list FestivalMatch) (congregation_info : CongregationContext)
  : outcome string :=
  let hook :=
    "Imagine standing where " +:+ reference sample +:+
    " first unfolded—hearing the Hebrew cadence of " +:+ hebrew_focus sample +:+
    " inviting trust." in
  let audience_line :=
    if str_truthy (or_empty audience) then "For " +:+ or_empty audience +:+ ", "
    else "" in
  let festival_line :=
    match festival_info with
    | nearest :: _ =>
        " We gather with " +:+ festival nearest +:+ " approaching (" +:+
        festival_date nearest +:+ "), a season inviting " +:+
        lower (emphasis nearest) +:+ "."
    | [] => ""
    end in
  congregation_line ←
    match nearby_events congregation_info with
    | first :: _ =>
        match ev_emphasis first with
        | Some event_emphasis =>
            Returns (" Our own community prepares for " +:+ ev_description first +:+
                     " in " +:+ str_of_int (ev_days_apart first) +:+
                     " days, aligning hearts toward " +:+ lower event_emphasis +:+ ".")
        | None => Fails AttributeError
        end
    | [] => Returns ""
    end;
  let occasion_line :=
    if str_truthy (or_empty occasion)
    then " In this " +:+ lower (or_empty occasion) +:+ " we are called to listen afresh."
    else "" in
  Returns (hook +:+ festival_line +:+ congregation_line +:+ " " +:+
           audience_line +:+ "God's word speaks with precision and promise." +:+
           occasion_line).

(** [build_introduction(sample, audience, occasion, festival_info,
    congregation_info)]. *)
Definition build_introduction (sample : Sample) (audience occasion : option string)
    (festival_info : list FestivalMatch) (congregation_info : CongregationContext)
  : outcome string :=
  text ← introduction_text sample audience occasion festival_info congregation_info;
  Returns (strip text).
End Introduction.

(** ** Code search with local fallback *)

(** An item of GitHub's answer, with the keys the code reads, and an entry of
    the list that [search_etcbc] returns. *)
Record RemoteItem : Set := {
  ri_name : option string;
  ri_path : option string;
  ri_html_url : option string;
  ri_repository_full_name : option string }.

Record SourceItem : Set := {
  src_name : option string;
  src_path : option string;
  src_html_url : option string;
  src_repository : string }.

(** What [client.get] does: it raises an [httpx.HTTPError], or it answers with
    a status code and a body; [response.json()] raises, or it returns the
    decoded body.  Of the decoded bodies those of the shape that GitHub
    documents are embedded: an object whose ["items"], when the key is
    there, is a list of objects, each with an object under ["repository"]
    when it has that key.  A body of another shape, on which [data.get], the
    slice or [item.get] raise, is outside this type. *)
Inductive http_result : Set :=
  | HTTPError
  | Response (status_code : Z) (json : result (option (list RemoteItem))).

(** [httpx.Client.get], given the [q] and [per_page] parameters. *)
Class Httpx := {
  client_get : string → string → http_result }.

Section SearchEtcbc.
Context `{!StrLower, !Catalogs, !Httpx}.

Definition remote_source (item : RemoteItem) : SourceItem :=
  {| src_name := ri_name item;
     src_path := ri_path item;
     src_html_url := ri_html_url item;
     src_repository := default "ETCBC/bhsa" (ri_repository_full_name item) |}.

Definition fallback_source (sample : Sample) : SourceItem :=
  {| src_name := Some (reference sample);
     src_path := Some ("samples/" +:+ lower (book sample) +:+ ".json");
     src_html_url := Some "https://github.com/ETCBC/bhsa";
     src_repository := "ETCBC/bhsa" |}.

(** The [try] block: [Some items] when it returns from inside, [None] when
    control reaches the fallback. *)
Definition search_remote (query : string) (limit : Z)
  : result (option (list SourceItem)) :=
  match client_get (query +:+ " repo:ETCBC/bhsa") (str_of_int limit) with
  | HTTPError => Ok None
  | Response status_code json =>
      if status_code =? 200 then
        data ← json;
        let items := map remote_source (slice_to limit (default [] data)) in
        match items with
        | [] => Ok None
        | _ :: _ => Ok (Some items)
        end
      else Ok None
  end.

(** [search_etcbc(query, limit)]. *)
Definition search_etcbc (query : string) (limit : Z) : result (list SourceItem) :=
  found ← search_remote query limit;
  match found with
  | Some items => Ok items
  | None => Ok (slice_to limit (map fallback_source ETCBC_SAMPLES))
  end.
End SearchEtcbc.

(** ** Request handler *)

Record LessonRequest : Set := {
  rq_audience : option string;
  rq_occasion : option string;
  rq_date : option string;
  rq_topic : option string;
  rq_passage : option string;
  rq_lesson_type : string;
  rq_estimated_minutes : Z;
  rq_interpreted : bool;
  rq_congregation_id : string }.

Record Canvas : Set := {
  cv_introduction : string;
  cv_sections : list LessonSection;
  cv_conclusion : string }.

Record Lesson : Set := {
  ls_title : string;
  ls_introduction : string;
  ls_conclusion : string;
  ls_sections : list LessonSection;
  ls_slides : list Slide;
  ls_canvas : Canvas;
  ls_hebrew_focus : string;
  ls_morphology : Morphology;
  ls_themes : list string }.

Record LessonResponse : Set := {
  lesson : Lesson;
  festivals : list FestivalMatch;
  congregation : CongregationContext;
  github_sources : list SourceItem;
  runtime_minutes : Z;
  pptx_download : string }.

(** What the handler takes from its host: the clock, the writer of the
    slide deck, which returns the path of the file, and [str.title]. *)
Class Host := {
  utcnow : datetime;
  create_pptx : list Slide → outcome string;
  str_title : string → string }.

(** Truth value of an optional string: present and non-empty. *)
Definition opt_truthy (o : option string) : bool := str_truthy (or_empty o).

Section GenerateLesson.
Context `{!StrLower, !Catalogs, !ConvertDate, !DateUtil, !Httpx, !Host}.

(** The reference date: the clock, or the date of the request, whose parse
    failure is answered with status 400. *)
Definition target_date_of (payload : LessonRequest) : outcome datetime :=
  if opt_truthy (rq_date payload) then
    match isoparse (or_empty (rq_date payload)) with
    | Ok parsed => Returns parsed
    | Raise ValueError | Raise TypeError =>
        Fails (HTTPException 400 "Invalid date format")
    | Raise e => Fails (Uncaught e)
    end
  else Returns utcnow.

(** [payload.passage or payload.topic or sample["reference"]]. *)
Definition github_query_of (payload : LessonRequest) (sample : Sample) : string :=
  if opt_truthy (rq_passage payload) then or_empty (rq_passage payload)
  else if opt_truthy (rq_topic payload) then or_empty (rq_topic payload)
  else reference sample.

(** [generate_lesson(payload)], for a payload that passed the validation of
    its fields and a request date without UTC offset. *)
Definition generate_lesson (payload : LessonRequest) : outcome LessonResponse :=
  if negb (opt_truthy (rq_topic payload)) && negb (opt_truthy (rq_passage payload))
  then Fails (HTTPException 400 "Topic or passage required")
  else
    target_date ← target_date_of payload;
    sample ← uncaught (select_sample (rq_topic payload) (rq_passage payload));
    festivals ← uncaught (hebrew_festival_matches target_date);
    congregation ← uncaught (congregation_context (rq_congregation_id payload)
                                                  target_date);
    introduction ← build_introduction sample (rq_audience payload)
                      (rq_occasion payload) festivals congregation;
    let conclusion := build_conclusion sample introduction in
    let sections := construct_sections sample (rq_estimated_minutes payload) in
    let slides := create_slides introduction sections conclusion in
    pptx_path ← create_pptx slides;
    runtime_minutes ← uncaught (estimate_runtime (rq_estimated_minutes payload)
                                                 (rq_interpreted payload));
    let github_query := github_query_of payload sample in
    github_sources ← uncaught (search_etcbc github_query 5);
    let lesson :=
      {| ls_title :=
           reference sample +:+ " — " +:+
           str_title (replace_char (byte 95) (byte 32) (rq_lesson_type payload));
         ls_introduction := introduction;
         ls_conclusion := conclusion;
         ls_sections := sections;
         ls_slides := slides;
         ls_canvas := {| cv_introduction := introduction;
                         cv_sections := sections;
                         cv_conclusion := conclusion |};
         ls_hebrew_focus := hebrew_focus sample;
         ls_morphology := morphology sample;
         ls_themes := themes sample |} in
    Returns {| lesson := lesson;
               festivals := festivals;
               congregation := congregation;
               github_sources := github_sources;
               runtime_minutes := runtime_minutes;
               pptx_download := "/api/pptx/" +:+ basename pptx_path |}.
End GenerateLesson.

(** ** More derived notions *)

(** The reference time moved to the start of its day. *)
Definition at_midnight (t : datetime) : datetime :=
  mk_datetime (year t) (month t) (day t) 0 0 0 0.

(** The opening sentence of the introduction. *)
Definition hook_of (sample : Sample) : string :=
  "Imagine standing where " +:+ reference sample +:+
  " first unfolded—hearing the Hebrew cadence of " +:+ hebrew_focus sample +:+
  " inviting trust.".

(** The nearest congregation event has no emphasis. *)
Definition nearest_event_without_emphasis (context : CongregationContext) : Prop :=
  ∃ first rest, nearby_events context = first :: rest ∧ ev_emphasis first = None.

(** The turn of a pair in the loops of the matcher returns: the conversion
    of the pair fails as the matcher expects, and it does fail when the
    reference date is aware. *)
Definition turn_returns `{!ConvertDate} (gregorian_date : zoned_datetime)
    (pair : Z * (Z * Z * string * string)) : Prop :=
  conversion_failure_expected pair ∧
  (is_Some (tzinfo gregorian_date) → pair_converts pair = false).

(** The turn of a pair raises [e]: the conversion of the pair raises [e],
    which is not [ValueError]; or it succeeds, the reference date is aware,
    and [e] is the [TypeError] of the subtraction. *)
Definition turn_raises `{!ConvertDate} (gregorian_date : zoned_datetime)
    (pair : Z * (Z * Z * string * string)) (e : exn) : Prop :=
  let '(year, (month, day, _, _)) := pair in
  convert_festival year month day = Raise e ∧ e ≠ ValueError ∨
  is_ok (convert_festival year month day) = true ∧
  is_Some (tzinfo gregorian_date) ∧ e = TypeError.

(** A string of the form [YYYY-MM-DD]: four, two and two characters between
    hyphens. *)
Definition iso_day (s : string) : Prop :=
  ∃ y m d, s = y +:+ "-" +:+ m +:+ "-" +:+ d ∧
           String.length y = 4%nat ∧ String.length m = 2%nat ∧
           String.length d = 2%nat.

(** The minutes of a payload that passed the validation of the request
    model: [Field(default=35, ge=10, le=120)]. *)
Definition minutes_validated (payload : LessonRequest) : Prop :=
  10 ≤ rq_estimated_minutes payload ≤ 120.

(** ** More test doubles *)

Module Scenario.

Definition no_catalogs : Catalogs :=
  {| ETCBC_SAMPLES := []; CONG_CALENDAR := ∅ |}.

(** A parser that, as [dateutil]'s does, takes 24:00 for the midnight that
    ends the day: on the last day of the year 9999 there is no next day and
    the result is an [OverflowError].  Plain dates are parsed and anything
    else is refused. *)
Definition overflowing_parser : DateUtil :=
  {| isoparse := λ s, if String.eqb s "9999-12-31T24:00" then Raise OverflowError
                      else Fixtures.parse_iso_date s |}.

Definition overflowing_profile : Profile :=
  {| p_name := Some "Overflow"; p_location := None; p_values := None;
     p_significant_dates := Some [
       {| sd_date := "never"; sd_description := "Skipped"; sd_emphasis := None |};
       {| sd_date := "9999-12-31T24:00"; sd_description := "Far away";
          sd_emphasis := None |} ];
     p_other_keys := [] |}.

Definition overflowing_catalogs : Catalogs :=
  {| ETCBC_SAMPLES := [Fixtures.genesis];
     CONG_CALENDAR := {[ "default" := overflowing_profile ]} |}.

(** A calendar whose conversion to the Hebrew year fails, and one whose
    conversion back fails with an exception the matcher does not expect. *)
Definition failing_calendar : ConvertDate :=
  {| hebrew_from_gregorian := λ _ _ _, Raise OverflowError;
     hebrew_to_gregorian := Fixtures.table_lookup Fixtures.festival_table |}.

Definition surprising_calendar : ConvertDate :=
  {| hebrew_from_gregorian := Fixtures.table_hebrew_year;
     hebrew_to_gregorian := λ y m d,
       if (y =? 5786) && (m =? 7) && (d =? 10) then Raise KeyError
       else Fixtures.table_lookup Fixtures.festival_table y m d |}.

(** The network is down; GitHub answers with two items; GitHub answers with
    something that is not JSON. *)
Definition offline : Httpx := {| client_get := λ _ _, HTTPError |}.

Definition two_hits : Httpx :=
  {| client_get := λ _ _,
       Response 200 (Ok (Some [
         {| ri_name := Some "genesis.tf"; ri_path := Some "tf/genesis.tf";
            ri_html_url := None; ri_repository_full_name := None |};
         {| ri_name := None; ri_path := None; ri_html_url := None;
            ri_repository_full_name := Some "ETCBC/bhsa" |} ])) |}.

Definition garbled : Httpx :=
  {| client_get := λ _ _, Response 200 (Raise ValueError) |}.

(** A host with a fixed clock and a deck writer that always succeeds. *)
Definition host : Host :=
  {| utcnow := mk_datetime 2025 4 16 9 0 0 0;
     create_pptx := λ _, Returns "/srv/generated/lesson_0123.pptx";
     str_title := λ s, s |}.

Definition request : LessonRequest :=
  {| rq_audience := Some "youth"; rq_occasion := None; rq_date := None;
     rq_topic := Some "blessing"; rq_passage := None;
     rq_lesson_type := "bible_study"; rq_estimated_minutes := 20;
     rq_interpreted := true; rq_congregation_id := "default" |}.

(** The same request for a given day, and a request for 40 minutes whose
    topic is the empty string. *)
Definition dated_request (date : string) : LessonRequest :=
  {| rq_audience := Some "youth"; rq_occasion := None; rq_date := Some date;
     rq_topic := Some "blessing"; rq_passage := None;
     rq_lesson_type := "bible_study"; rq_estimated_minutes := 20;
     rq_interpreted := true; rq_congregation_id := "default" |}.

Definition request_without_subject : LessonRequest :=
  {| rq_audience := None; rq_occasion := Some "Retreat"; rq_date := Some "someday";
     rq_topic := Some ""; rq_passage := None;
     rq_lesson_type := "topical"; rq_estimated_minutes := 40;
     rq_interpreted := false; rq_congregation_id := "default" |}.

End Scenario.

(** * Properties *)

(** ** The Python runtime *)

Section SortedFacts.
Context {A : Type} (key : A → Z).

Lemma insert_by_key_Permutation x (l : list A) :
  insert_by_key key x l ≡ₚ x :: l.
Proof.
  induction l as [|y l IH]; simpl; [done|].
  destruct (key x <=? key y); [done|].
  rewrite IH. apply Permutation_swap.
Qed.

Lemma sorted_Permutation (l : list A) : sorted key l ≡ₚ l.
Proof.
  induction l as [|x l IH]; simpl; [done|].
  by rewrite insert_by_key_Permutation, IH.
Qed.

Lemma insert_by_key_sorted x (l : list A) :
  StronglySorted (key_le key) l → StronglySorted (key_le key) (insert_by_key key x l).
Proof.
  induction 1 as [|y l Hl IH Hy]; simpl.
  - repeat constructor.
  - destruct (Z.leb_spec (key x) (key y)) as [Hxy|Hxy].
    + constructor; [by constructor|].
      constructor; [done|].
      eapply Forall_impl; [exact Hy|]. unfold key_le. intros; lia.
    + constructor; [done|].
      rewrite insert_by_key_Permutation.
      constructor; [unfold key_le; lia | done].
Qed.

Lemma sorted_StronglySorted (l : list A) : StronglySorted (key_le key) (sorted key l).
Proof.
  induction l as [|x l IH]; simpl; [constructor|].
  by apply insert_by_key_sorted.
Qed.

Lemma with_key_insert k x (l : list A) :
  with_key key k (insert_by_key key x l) = with_key key k (x :: l).
Proof.
  unfold with_key. induction l as [|y l IH]; simpl; [done|].
  destruct (Z.leb_spec (key x) (key y)) as [Hxy|Hxy]; simpl; [done|].
  rewrite IH. simpl.
  destruct (Z.eqb_spec (key x) k), (Z.eqb_spec (key y) k); try done; lia.
Qed.

(** Stability: the elements of any one key keep their order. *)
Lemma sorted_stable k (l : list A) :
  with_key key k (sorted key l) = with_key key k l.
Proof.
  induction l as [|x l IH]; simpl; [done|].
  rewrite with_key_insert. unfold with_key in *. simpl. by rewrite IH.
Qed.

Lemma sorted_Forall (P : A → Prop) (l : list A) :
  Forall P l → Forall P (sorted key l).
Proof. intros H. by rewrite sorted_Permutation. Qed.

Lemma with_key_app k (l1 l2 : list A) :
  with_key key k (l1 ++ l2) = with_key key k l1 ++ with_key key k l2.
Proof. apply List.filter_app. Qed.
End SortedFacts.

Section ForEachFacts.
Context {A S : Type}.

(** A loop whose body adds the contribution of each element, and never
    raises, returns the accumulated contributions. *)
Lemma for_each_contributions (body : S → A → result S) (add : S → A → S)
    (xs : list A) (s : S) :
  Forall (λ x, ∀ s, body s x = Ok (add s x)) xs →
  for_each body xs s = Ok (fold_left add xs s).
Proof.
  intros H. revert s. induction H as [|x xs Hx _ IH]; intros s; simpl; [done|].
  rewrite Hx. simpl. apply IH.
Qed.

Lemma for_each_app (body : S → A → result S) (xs ys : list A) (s : S) :
  for_each body (xs ++ ys) s = s' ← for_each body xs s; for_each body ys s'.
Proof.
  revert s. induction xs as [|x xs IH]; intros s; simpl; [done|].
  destruct (body s x); simpl; [apply IH | done].
Qed.
End ForEachFacts.

Lemma fold_left_append {A B} (f : A → list B) (xs : list A) (acc : list B) :
  fold_left (λ acc x, acc ++ f x) xs acc = acc ++ flat_map f xs.
Proof.
  revert acc. induction xs as [|x xs IH]; intros acc; simpl.
  - by rewrite app_nil_r.
  - by rewrite IH, app_assoc.
Qed.

Section StringFacts.
Lemma prefix_append (x rest : string) : String.prefix x (x +:+ rest) = true.
Proof.
  induction x as [|c x IH]; simpl; [by destruct rest|].
  destruct (Ascii.ascii_dec c c); [exact IH | done].
Qed.

Lemma prefix_split (x hay : string) :
  String.prefix x hay = true → ∃ rest, hay = x +:+ rest.
Proof.
  revert hay. induction x as [|c x IH]; intros hay H; simpl in *.
  - by exists hay.
  - destruct hay as [|c' hay]; simpl in H; [done|].
    destruct (Ascii.ascii_dec c c') as [->|]; [|done].
    destruct (IH _ H) as [rest ->]. by exists rest.
Qed.

Lemma str_in_prefix (x hay : string) :
  String.prefix x hay = true → str_in x hay = true.
Proof. intros H. destruct hay; cbn [str_in]; by rewrite H. Qed.

Lemma str_in_here (x rest : string) : str_in x (x +:+ rest) = true.
Proof. apply str_in_prefix, prefix_append. Qed.

Lemma str_in_later (x before hay : string) :
  str_in x hay = true → str_in x (before +:+ hay) = true.
Proof.
  intros H. induction before as [|c before IH]; [done|].
  change (String c before +:+ hay) with (String c (before +:+ hay)).
  cbn [str_in]. rewrite IH. apply orb_true_r.
Qed.

(** [str_in] decides containment. *)
Lemma str_in_spec (x hay : string) :
  str_in x hay = true ↔ substring_of x hay.
Proof.
  split.
  - induction hay as [|c hay IH]; cbn [str_in]; intros H.
    + rewrite orb_false_r in H. apply prefix_split in H as [rest ->].
      by exists EmptyString, rest.
    + apply orb_true_iff in H as [H|H].
      * apply prefix_split in H as [rest ->]. by exists EmptyString, rest.
      * destruct (IH H) as (before & after & ->).
        by exists (String c before), after.
  - intros (before & after & ->). apply str_in_later, str_in_here.
Qed.
End StringFacts.

Lemma append_assoc (a b c : string) : (a +:+ b) +:+ c = a +:+ (b +:+ c).
Proof.
  induction a as [|ch a IH]; [done|].
  change (String ch ((a +:+ b) +:+ c) = String ch (a +:+ (b +:+ c))).
  by rewrite IH.
Qed.

Lemma first_sample_spec (test : Sample → bool) (samples : list Sample) :
  match first_sample test samples with
  | Some sample => first_such test samples sample
  | None => none_such test samples
  end.
Proof.
  induction samples as [|s samples IH]; simpl; [constructor|].
  destruct (test s) eqn:Hs.
  - exists [], samples. by repeat split.
  - destruct (first_sample test samples) as [found|].
    + destruct IH as (before & after & -> & Hfound & Hbefore).
      exists (s :: before), after. repeat split; [done|]. by constructor.
    + by constructor.
Qed.

Lemma enumerate_slides (sections : list LessonSection) (start : Z) (acc : list Slide) :
  fold_left (λ slides '(idx, section), slides ++ [section_slide idx section])
            (enumerate start sections) acc
  = acc ++ imap (λ i section, section_slide (start + Z.of_nat i) section) sections.
Proof.
  revert start acc. induction sections as [|s sections IH]; intros start acc; simpl.
  - by rewrite app_nil_r.
  - rewrite IH, <- app_assoc. simpl. rewrite Z.add_0_r. do 2 f_equal.
    apply imap_ext. intros i x _. simpl. f_equal. lia.
Qed.

(** ** Narrative composer *)

(** C9: the conclusion restates the language-focus term of the sample and ends
    with the fixed three-part charge (invitation, embodiment,
    transformation); the introduction it is given has no influence on it. *)
Theorem build_conclusion_ignores_introduction (sample : Sample) (i1 i2 : string) :
  build_conclusion sample i1 = build_conclusion sample i2 ∧
  str_in (hebrew_focus sample) (build_conclusion sample i1) = true ∧
  str_in "embrace God's invitation, embody covenantal blessing, and walk toward Christlike transformation together."
         (build_conclusion sample i1) = true ∧
  build_conclusion sample i1 =
    "The same cadence that opened our time—" +:+ hebrew_focus sample +:+
    "—now sends us. Let the insights we traced move from study to practice: embrace God's invitation, embody covenantal blessing, and walk toward Christlike transformation together.".
Proof.
  assert (Heq : ∀ i, build_conclusion sample i =
    "The same cadence that opened our time—" +:+ hebrew_focus sample +:+
    "—now sends us. Let the insights we traced move from study to practice: embrace God's invitation, embody covenantal blessing, and walk toward Christlike transformation together.").
  { intros i. unfold build_conclusion. cbv zeta.
    rewrite !append_assoc. reflexivity. }
  split; [by rewrite !Heq|]. split; [|split; [|apply Heq]].
  - rewrite Heq. apply str_in_later, str_in_here.
  - apply str_in_spec.
    exists ("The same cadence that opened our time—" +:+ hebrew_focus sample +:+
            "—now sends us. Let the insights we traced move from study to practice: "),
           EmptyString.
    unfold build_conclusion. cbv zeta. by rewrite !append_assoc.
Qed.

(** C3, as amended: three sections from 25 minutes on and two below; the
    condensed lesson keeps the first section of the full lesson, and the notes
    of its second section are the first lexical insight of the sample alone:
    one note when the sample has a lexical insight, none when it has not. *)
Theorem construct_sections_shape (sample : Sample) (short full : Z) :
  short < 25 → 25 ≤ full →
  length (construct_sections sample full) = 3%nat ∧
  ∃ first second,
    construct_sections sample short = [first; second] ∧
    head (construct_sections sample full) = Some first ∧
    exegetical second = take 1 (lexical_insights sample) ∧
    length (exegetical second) = (1 `min` length (lexical_insights sample))%nat.
Proof.
  intros Hshort Hfull. unfold construct_sections.
  destruct (Z.ltb_spec full 25); [lia|].
  destruct (Z.ltb_spec short 25); [|lia].
  split; [done|]. eexists _, _. do 3 (split; [reflexivity|]).
  cbn [exegetical]. by rewrite length_take.
Qed.

Lemma construct_sections_shape_witness :
  length (construct_sections Fixtures.genesis 35) = 3%nat ∧
  ∃ first second,
    construct_sections Fixtures.genesis 20 = [first; second] ∧
    head (construct_sections Fixtures.genesis 35) = Some first ∧
    exegetical second = take 1 (lexical_insights Fixtures.genesis) ∧
    length (exegetical second) =
      (1 `min` length (lexical_insights Fixtures.genesis))%nat.
Proof. apply (construct_sections_shape Fixtures.genesis 20 35); lia. Defined.

(** C3, as stated, fails for a sample without lexical insights: the notes of
    the condensed second section are then empty. *)
Lemma condensed_has_one_note_counterexample :
  ¬ condensed_has_one_note Fixtures.esther 10.
Proof.
  intros (first & second & Heq & Hlen).
  vm_compute in Heq. injection Heq as _ <-. vm_compute in Hlen. discriminate.
Qed.

(** ** Slide structurer *)

(** C4: an opening slide, one slide per section in order, a closing slide;
    [n + 2] slides for [n] sections. *)
Theorem create_slides_layout (introduction : string)
    (sections : list LessonSection) (conclusion : string) :
  let slides := create_slides introduction sections conclusion in
  length slides = (length sections + 2)%nat ∧
  slides !! 0%nat =
    Some {| slide_title := "Opening Story";
            bullets := [introduction];
            notes := "Welcome, frame the occasion, and read the passage aloud." |} ∧
  (∀ (i : nat) (section : LessonSection),
     sections !! i = Some section →
     slides !! S i =
       Some {| slide_title :=
                 str_of_int (Z.of_nat i + 1) +:+ ". " +:+ title section;
               bullets :=
                 content section :: exegetical section ++ [application section];
               notes := "Guide discussion; invite observations and response." |}) ∧
  slides !! S (length sections) =
    Some {| slide_title := "Sending Charge";
            bullets := [conclusion];
            notes := "Summarize commitments and pray a commissioning blessing." |}.
Proof.
  intros slides.
  assert (Hslides : slides =
    opening_slide introduction ::
    imap (λ i section, section_slide (1 + Z.of_nat i) section) sections ++
    [closing_slide conclusion]).
  { unfold slides, create_slides. by rewrite enumerate_slides. }
  rewrite Hslides. repeat split.
  - simpl. rewrite length_app, length_imap. simpl. lia.
  - intros i section Hi. simpl.
    rewrite lookup_app_l by (rewrite length_imap; by eapply lookup_lt_Some).
    rewrite list_lookup_imap, Hi. simpl. unfold section_slide.
    replace (1 + Z.of_nat i) with (Z.of_nat i + 1) by lia. done.
  - simpl. rewrite lookup_app_r by (by rewrite length_imap).
    by rewrite length_imap, Nat.sub_diag.
Qed.

(** ** Sample selector *)

Section SelectSampleFacts.
Context `{!StrLower, !Catalogs}.

(** C5: with a non-empty catalog a sample is always returned: the first
    whose lower-cased reference contains the lower-cased passage, when a
    passage is given and found; else the first with a theme whose
    lower-cased form contains the lower-cased topic, when a topic is given
    and found; else the first of the catalog. *)
Theorem select_sample_priority (topic passage : option string) :
  ETCBC_SAMPLES ≠ [] →
  let normalized_topic := lower (or_empty topic) in
  let normalized_passage := lower (or_empty passage) in
  let in_reference sample :=
    str_in normalized_passage (lower (reference sample)) in
  let in_theme sample :=
    existsb (λ theme, str_in normalized_topic (lower theme)) (themes sample) in
  let no_passage_match :=
    normalized_passage = "" ∨ none_such in_reference ETCBC_SAMPLES in
  let no_topic_match :=
    normalized_topic = "" ∨ none_such in_theme ETCBC_SAMPLES in
  ∃ sample,
    select_sample topic passage = Ok sample ∧
    ((normalized_passage ≠ "" ∧ first_such in_reference ETCBC_SAMPLES sample) ∨
     (no_passage_match ∧ normalized_topic ≠ "" ∧
      first_such in_theme ETCBC_SAMPLES sample) ∨
     (no_passage_match ∧ no_topic_match ∧ head ETCBC_SAMPLES = Some sample)).
Proof.
  intros Hne nt np in_reference in_theme no_passage no_topic.
  unfold select_sample. fold nt np.
  pose proof (first_sample_spec (passage_test np) ETCBC_SAMPLES) as Hp.
  destruct (first_sample (passage_test np) ETCBC_SAMPLES) as [sample|].
  { exists sample. split; [done|]. left.
    destruct Hp as (before & after & Heq & Htest & Hbefore).
    unfold passage_test in Htest. apply andb_true_iff in Htest as [Hnp Htest].
    split; [by destruct np|].
    exists before, after. repeat split; [done..|].
    eapply Forall_impl; [exact Hbefore|]. intros y. unfold passage_test.
    by rewrite Hnp. }
  assert (Hnp : no_passage).
  { unfold no_passage. destruct np eqn:E; [by left|right].
    eapply Forall_impl; [exact Hp|]. by intros y. }
  destruct (str_truthy nt) eqn:Hnt.
  - pose proof (first_sample_spec (topic_test nt) ETCBC_SAMPLES) as Ht.
    destruct (first_sample (topic_test nt) ETCBC_SAMPLES) as [sample|].
    + exists sample. split; [done|]. right; left.
      repeat split; [done| by destruct nt | done].
    + destruct ETCBC_SAMPLES as [|sample rest] eqn:E; [done|].
      exists sample. split; [done|]. right; right.
      repeat split; [done | by right].
  - destruct ETCBC_SAMPLES as [|sample rest] eqn:E; [done|].
    exists sample. split; [done|]. right; right.
    repeat split; [done | left; by destruct nt].
Qed.
End SelectSampleFacts.

Lemma select_sample_priority_witness :
  @ETCBC_SAMPLES Fixtures.catalogs ≠ [] ∧
  ∃ sample,
    @select_sample Fixtures.ascii_lower Fixtures.catalogs
      (Some "courage") (Some "ESTHER") = Ok sample ∧
    reference sample = "Esther 4:14".
Proof.
  split; [done|].
  destruct (@select_sample_priority Fixtures.ascii_lower Fixtures.catalogs
              (Some "courage") (Some "ESTHER")) as (sample & Heq & _); [done|].
  exists sample. split; [exact Heq|].
  vm_compute in Heq. by injection Heq as <-.
Defined.

(** ** Dates *)

Lemma date_sub_days (a b : date) :
  days (date_sub a b) = date_toordinal a - date_toordinal b.
Proof.
  unfold date_sub, timedelta_new. cbn [days].
  change (0 / 1000000) with 0. change ((0 + 0) / 86400) with 0. lia.
Qed.

(** Against a midnight, the whole days of a difference are the difference of
    the day numbers, whatever the time of day of the first operand. *)
Lemma datetime_sub_days (a b : datetime) :
  time_in_range a →
  hour b = 0 → minute b = 0 → second b = 0 → microsecond b = 0 →
  days (datetime_sub a b) = datetime_toordinal a - datetime_toordinal b.
Proof.
  intros (Hh & Hm & Hs & Hus) Hbh Hbm Hbs Hbus.
  unfold datetime_sub, timedelta_new. cbn [days].
  rewrite Hbh, Hbm, Hbs, Hbus.
  rewrite (Z.div_small (microsecond a - 0)) by lia.
  rewrite Z.div_small by lia. lia.
Qed.

(** ** Congregation context resolver *)

Section CongregationContextFacts.
Context `{!DateUtil, !Catalogs}.

Lemma event_body_adds (target_date : datetime) (item : SignificantDate) :
  parse_failure_expected item →
  ∀ events, event_body target_date events item
            = Ok (events ++ event_of target_date item).
Proof.
  intros Hitem events. unfold event_body, event_of, day_distance.
  destruct (isoparse (sd_date item)) as [parsed|e] eqn:Hparse.
  - rewrite date_sub_days.
    destruct (_ <=? 21); [done | by rewrite app_nil_r].
  - destruct (Hitem e Hparse) as [-> | ->]; by rewrite app_nil_r.
Qed.

Lemma event_of_failed (target_date : datetime) (item : SignificantDate) :
  date_parses item = false → event_of target_date item = [].
Proof.
  unfold date_parses, event_of. by destruct (isoparse (sd_date item)).
Qed.

Lemma event_of_unparsed (target_date : datetime) (items : list SignificantDate) :
  flat_map (event_of target_date) (List.filter date_parses items)
  = flat_map (event_of target_date) items.
Proof.
  induction items as [|item items IH]; simpl; [done|].
  destruct (date_parses item) eqn:E; simpl; rewrite IH; [done|].
  by rewrite event_of_failed.
Qed.

Lemma event_of_window (target_date : datetime) (items : list SignificantDate) :
  Forall (λ ev, 0 ≤ ev_days_apart ev ≤ 21) (flat_map (event_of target_date) items).
Proof.
  induction items as [|item items IH]; simpl; [constructor|].
  apply Forall_app. split; [|done]. unfold event_of, day_distance.
  destruct (isoparse (sd_date item)); [|constructor].
  destruct (Z.leb_spec (Z.abs (date_toordinal (datetime_date target_date)
                               - date_toordinal (datetime_date a))) 21);
    [|constructor].
  apply List.Forall_cons; [simpl; lia | constructor].
Qed.
End CongregationContextFacts.

Section CongregationContextResults.
Context `{!DateUtil, !Catalogs}.

(** C6, as amended: an unknown identifier resolves to the "default" profile;
    when every stored date parses or makes the parser raise [ValueError] or
    [TypeError], the resolver returns, the dates that do not parse are left
    out without an error, and the events that are returned lie at most 21
    days from the reference date and are sorted by that distance. *)
Theorem congregation_context_nearby (congregation_id : string)
    (target_date : datetime) :
  let record := resolve_record congregation_id in
  let items := default [] (p_significant_dates record) in
  Forall parse_failure_expected items →
  (CONG_CALENDAR !! congregation_id = None →
   record = default empty_profile (CONG_CALENDAR !! "default")) ∧
  ∃ context,
    congregation_context congregation_id target_date = Ok context ∧
    cc_name context = p_name record ∧
    nearby_events context =
      sorted ev_days_apart
        (flat_map (event_of target_date) (List.filter date_parses items)) ∧
    Forall (λ ev, 0 ≤ ev_days_apart ev ≤ 21) (nearby_events context) ∧
    StronglySorted (key_le ev_days_apart) (nearby_events context).
Proof.
  intros record items Hitems. split.
  { intros Hnone. unfold record, resolve_record. by rewrite Hnone. }
  unfold congregation_context. fold record. fold items.
  rewrite (for_each_contributions _ (λ events item, events ++ event_of target_date item)).
  2: { eapply Forall_impl; [exact Hitems|]. intros item Hitem events.
       by apply event_body_adds. }
  rewrite fold_left_append. simpl.
  eexists. split; [reflexivity|]. cbn [cc_name nearby_events].
  rewrite event_of_unparsed. repeat split.
  - apply sorted_Forall, event_of_window.
  - apply sorted_StronglySorted.
Qed.
End CongregationContextResults.

Lemma congregation_context_nearby_witness :
  Forall (@parse_failure_expected Fixtures.iso_dates)
         (default [] (p_significant_dates
                        (@resolve_record Fixtures.catalogs "nowhere"))) ∧
  ∃ context,
    @congregation_context Fixtures.iso_dates Fixtures.catalogs "nowhere"
      (mk_datetime 2025 4 16 13 30 0 0) = Ok context ∧
    map ev_description (nearby_events context)
    = ["Baptism Sunday"; "Anniversary service"].
Proof.
  assert (Hitems : Forall (@parse_failure_expected Fixtures.iso_dates)
            (default [] (p_significant_dates
                           (@resolve_record Fixtures.catalogs "nowhere")))).
  { vm_compute default.
    repeat (apply List.Forall_cons;
            [intros e He; vm_compute in He;
             first [discriminate He | injection He as <-; by left] |]).
    apply List.Forall_nil. }
  split; [exact Hitems|].
  destruct (@congregation_context_nearby Fixtures.iso_dates Fixtures.catalogs
              "nowhere" (mk_datetime 2025 4 16 13 30 0 0) Hitems)
    as (_ & context & Heq & _).
  exists context. split; [exact Heq|].
  vm_compute in Heq. by injection Heq as <-.
Defined.

(** C6, as stated, fails for a stored date on which the parser raises
    another exception: [isoparse] takes 24:00 for the start of the next day,
    and after 31 December 9999 there is none; the [OverflowError] is not
    caught. *)
Lemma resolver_always_answers_counterexample :
  ¬ @resolver_always_answers Scenario.overflowing_parser
      Scenario.overflowing_catalogs "default" (Fixtures.midnight 2025 4 16).
Proof. intros (context & Hrun & _). vm_compute in Hrun. discriminate. Qed.

(** ** Festival matcher *)

Lemma flat_map_nested {A B C} (f : B → list C) (g : A → list B) (l : list A) :
  flat_map f (flat_map g l) = flat_map (λ x, flat_map f (g x)) l.
Proof.
  induction l as [|x l IH]; simpl; [done|].
  by rewrite flat_map_app, IH.
Qed.

Section ForEachReturns.
Context {A S : Type}.

(** When a loop returns, and each turn that returns adds the contribution of
    its element, the loop returns the accumulated contributions. *)
Lemma for_each_returns (body : S → A → result S) (add : S → A → S)
    (xs : list A) (s s' : S) :
  (∀ s x s1, body s x = Ok s1 → s1 = add s x) →
  for_each body xs s = Ok s' → s' = fold_left add xs s.
Proof.
  intros Hbody. revert s. induction xs as [|x xs IH]; intros s; simpl.
  - by intros [= <-].
  - destruct (body s x) as [s1|e] eqn:Hx; simpl; [|done].
    rewrite (Hbody _ _ _ Hx). apply IH.
Qed.
End ForEachReturns.

Section FestivalMatcherFacts.
Context `{!ConvertDate}.

Lemma festival_body_returns (gregorian_date : datetime) (year : Z)
    (matches matches' : list FestivalMatch) (entry : Z * Z * string * string) :
  festival_body gregorian_date year matches entry = Ok matches' →
  matches' = matches ++ match_of gregorian_date (year, entry).
Proof.
  destruct entry as [[[month day] name] emphasis].
  unfold festival_body, match_of.
  destruct (convert_festival year month day) as [festival_date|[]];
    try done.
  - destruct (_ <=? 21); intros [= <-]; [done | by rewrite app_nil_r].
  - intros [= <-]. by rewrite app_nil_r.
Qed.

(** A conversion that fails with [ValueError] leaves the matches as they
    are and the loop goes on. *)
Lemma festival_body_skips (gregorian_date : datetime) (year month day : Z)
    (name emphasis : string) (matches : list FestivalMatch) :
  convert_festival year month day = Raise ValueError →
  festival_body gregorian_date year matches (month, day, name, emphasis)
  = Ok matches.
Proof. intros Hconv. unfold festival_body. by rewrite Hconv. Qed.

Lemma festival_body_adds (gregorian_date : datetime) (year : Z)
    (entry : Z * Z * string * string) :
  (∀ e, convert_festival year entry.1.1.1 entry.1.1.2 = Raise e → e = ValueError) →
  ∀ matches, festival_body gregorian_date year matches entry
             = Ok (matches ++ match_of gregorian_date (year, entry)).
Proof.
  destruct entry as [[[month day] name] emphasis]. simpl.
  intros Hconv matches. unfold festival_body, match_of.
  destruct (convert_festival year month day) as [festival_date|e].
  - destruct (_ <=? 21); [done | by rewrite app_nil_r].
  - rewrite (Hconv e eq_refl). by rewrite app_nil_r.
Qed.

Lemma match_of_failed (gregorian_date : datetime)
    (pair : Z * (Z * Z * string * string)) :
  pair_converts pair = false → match_of gregorian_date pair = [].
Proof.
  destruct pair as [year [[[month day] name] emphasis]].
  unfold pair_converts, match_of.
  by destruct (convert_festival year month day).
Qed.

Lemma match_of_converting (gregorian_date : datetime)
    (pairs : list (Z * (Z * Z * string * string))) :
  flat_map (match_of gregorian_date) (List.filter pair_converts pairs)
  = flat_map (match_of gregorian_date) pairs.
Proof.
  induction pairs as [|pair pairs IH]; simpl; [done|].
  destruct (pair_converts pair) eqn:E; simpl; rewrite IH; [done|].
  by rewrite match_of_failed.
Qed.

Lemma match_of_window (gregorian_date : datetime)
    (pairs : list (Z * (Z * Z * string * string))) :
  Forall (λ m, 0 ≤ days_apart m ≤ 21) (flat_map (match_of gregorian_date) pairs).
Proof.
  induction pairs as [|pair pairs IH]; simpl; [constructor|].
  apply Forall_app. split; [|done].
  destruct pair as [year [[[month day] name] emphasis]]. unfold match_of.
  destruct (convert_festival year month day) as [festival_date|]; [|constructor].
  destruct (Z.leb_spec (Z.abs (days (datetime_sub gregorian_date festival_date))) 21);
    [|constructor].
  apply List.Forall_cons; [cbn [days_apart]; lia | constructor].
Qed.

(** For a reference time within its day, the distance of a match counts the
    days between the reference day and the day of the festival. *)
Lemma match_of_day_distance (gregorian_date : datetime) (year month day : Z)
    (name emphasis : string) (m : FestivalMatch) :
  time_in_range gregorian_date →
  m ∈ match_of gregorian_date (year, (month, day, name, emphasis)) →
  ∃ festival_date,
    convert_festival year month day = Ok festival_date ∧
    days_apart m = day_distance (datetime_date gregorian_date)
                                (datetime_date festival_date).
Proof.
  intros Htime Hm. unfold match_of in Hm.
  destruct (convert_festival year month day) as [festival_date|] eqn:Hconv;
    [|by apply elem_of_nil in Hm].
  exists festival_date. split; [done|].
  unfold convert_festival in Hconv.
  destruct (hebrew_to_gregorian year month day) as [[[gy gm] gd]|]; [|done].
  cbn [mbind result_bind] in Hconv. unfold datetime_new in Hconv.
  destruct (check_date_fields gy gm gd); [|done]. injection Hconv as <-.
  rewrite datetime_sub_days in Hm by done.
  destruct (_ <=? 21); [|by apply elem_of_nil in Hm].
  apply list_elem_of_singleton in Hm as ->. done.
Qed.

Lemma flat_map_year_pairs {B} (f : Z * (Z * Z * string * string) → list B)
    (year : Z) :
  flat_map f (year_pairs year) = flat_map (λ entry, f (year, entry)) FESTIVALS.
Proof.
  unfold year_pairs. induction FESTIVALS as [|entry entries IH]; simpl; [done|].
  by rewrite IH.
Qed.

Lemma offset_body_returns (gregorian_date : datetime) (hy offset : Z)
    (matches matches' : list FestivalMatch) :
  offset_body gregorian_date hy matches offset = Ok matches' →
  matches' = matches ++ flat_map (match_of gregorian_date) (year_pairs (hy + offset)).
Proof.
  unfold offset_body. intros Hloop.
  apply (for_each_returns _
           (λ ms entry, ms ++ match_of gregorian_date (hy + offset, entry)))
    in Hloop.
  - by rewrite Hloop, fold_left_append, flat_map_year_pairs.
  - intros ms entry ms1. apply festival_body_returns.
Qed.

Lemma sweep_returns (gregorian_date : datetime) (hy : Z)
    (matches : list FestivalMatch) :
  for_each (offset_body gregorian_date hy) [-1; 0; 1] [] = Ok matches →
  matches = flat_map (match_of gregorian_date) (sweep hy).
Proof.
  intros Hloop.
  apply (for_each_returns _
           (λ ms offset, ms ++ flat_map (match_of gregorian_date)
                                        (year_pairs (hy + offset)))) in Hloop.
  - rewrite Hloop, fold_left_append. unfold sweep.
    by rewrite flat_map_nested.
  - intros ms offset ms1. apply offset_body_returns.
Qed.

Lemma with_key_flat_map {A B} (key : B → Z) (k : Z) (f : A → list B) (l : list A) :
  with_key key k (flat_map f l) = flat_map (λ x, with_key key k (f x)) l.
Proof.
  induction l as [|x l IH]; simpl; [done|].
  by rewrite with_key_app, IH.
Qed.
End FestivalMatcherFacts.

Section FestivalMatcherResults.
Context `{!ConvertDate}.

Lemma offset_body_adds (gregorian_date : datetime) (hy offset : Z) :
  Forall conversion_failure_expected (year_pairs (hy + offset)) →
  ∀ matches,
    offset_body gregorian_date hy matches offset
    = Ok (matches ++ flat_map (match_of gregorian_date) (year_pairs (hy + offset))).
Proof.
  intros Hyear matches. unfold offset_body.
  rewrite (for_each_contributions _
             (λ ms entry, ms ++ match_of gregorian_date (hy + offset, entry))).
  - by rewrite fold_left_append, flat_map_year_pairs.
  - unfold year_pairs in Hyear. rewrite List.Forall_map in Hyear.
    eapply Forall_impl; [exact Hyear|].
    intros [[[month day] name] emphasis] Hentry ms.
    by apply festival_body_adds.
Qed.

(** C1: the matches that are returned lie at most 21 days from the
    reference date and are sorted by that distance; matches at the same
    distance keep the order of the sweep, which within each swept year is
    the order of the festival catalog. *)
Theorem hebrew_festival_matches_sorted (gregorian_date : datetime)
    (out : list FestivalMatch) :
  hebrew_festival_matches gregorian_date = Ok out →
  Forall (λ m, 0 ≤ days_apart m ≤ 21) out ∧
  StronglySorted (key_le days_apart) out ∧
  ∃ hy hm hd,
    hebrew_from_gregorian (year gregorian_date) (month gregorian_date)
                          (day gregorian_date) = Ok (hy, hm, hd) ∧
    out ≡ₚ flat_map (match_of gregorian_date) (sweep hy) ∧
    ∀ k,
      let tied year :=
        flat_map (λ entry, with_key days_apart k
                             (match_of gregorian_date (year, entry)))
                 FESTIVALS in
      with_key days_apart k out = tied (hy - 1) ++ tied hy ++ tied (hy + 1).
Proof.
  unfold hebrew_festival_matches. intros Hrun.
  destruct (hebrew_from_gregorian _ _ _) as [[[hy hm] hd]|] eqn:Hfrom;
    [|done]. cbn [mbind result_bind] in Hrun.
  destruct (for_each _ _ _) as [matches|] eqn:Hloop; [|done].
  injection Hrun as <-. apply sweep_returns in Hloop as ->.
  split; [apply sorted_Forall, match_of_window|].
  split; [apply sorted_StronglySorted|].
  exists hy, hm, hd. split; [done|]. split; [apply sorted_Permutation|].
  intros k. cbv zeta. rewrite sorted_stable. unfold sweep. cbn [flat_map].
  rewrite app_nil_r, !flat_map_app, !with_key_app, !with_key_flat_map.
  rewrite !flat_map_year_pairs, Z.add_0_r. done.
Qed.

(** C8: a (year, festival) pair whose conversion fails is passed over and
    the sweep goes on: the matcher returns, and what it returns is made of
    the pairs that convert. *)
Theorem festival_conversion_failures_skipped (gregorian_date : datetime)
    (hy hm hd : Z) :
  hebrew_from_gregorian (year gregorian_date) (month gregorian_date)
                        (day gregorian_date) = Ok (hy, hm, hd) →
  Forall conversion_failure_expected (sweep hy) →
  (∀ year month day name emphasis matches,
     convert_festival year month day = Raise ValueError →
     festival_body gregorian_date year matches (month, day, name, emphasis)
     = Ok matches) ∧
  hebrew_festival_matches gregorian_date
  = Ok (sorted days_apart
          (flat_map (match_of gregorian_date)
                    (List.filter pair_converts (sweep hy)))).
Proof.
  intros Hfrom Hsweep. split.
  { intros. by apply festival_body_skips. }
  unfold hebrew_festival_matches. rewrite Hfrom. cbn [mbind result_bind].
  unfold sweep in Hsweep. cbn [flat_map] in Hsweep.
  rewrite app_nil_r in Hsweep.
  apply Forall_app in Hsweep as [Hprev Hsweep].
  apply Forall_app in Hsweep as [Hthis Hnext].
  cbn [for_each]. rewrite !offset_body_adds by done.
  cbn [mbind result_bind]. rewrite !offset_body_adds by done.
  cbn [mbind result_bind]. rewrite !offset_body_adds by done.
  cbn [mbind result_bind]. rewrite match_of_converting. unfold sweep.
  cbn [flat_map]. by rewrite !flat_map_app, !app_nil_r, app_nil_l, app_assoc.
Qed.
End FestivalMatcherResults.

Lemma hebrew_festival_matches_sorted_witness :
  ∃ out,
    @hebrew_festival_matches Fixtures.table_calendar
      (Fixtures.midnight 2025 4 16) = Ok out ∧
    map festival out = ["Passover (Pesach)"; "Feast of Unleavened Bread"] ∧
    map days_apart out = [3; 3] ∧
    Forall (λ m, 0 ≤ days_apart m ≤ 21) out ∧
    StronglySorted (key_le days_apart) out.
Proof.
  destruct (@hebrew_festival_matches Fixtures.table_calendar
              (Fixtures.midnight 2025 4 16)) as [out|e] eqn:Hrun;
    [|vm_compute in Hrun; discriminate].
  exists out. split; [done|].
  destruct (@hebrew_festival_matches_sorted Fixtures.table_calendar _ _ Hrun)
    as (Hwindow & Hsorted & _).
  vm_compute in Hrun. injection Hrun as <-. by repeat split.
Defined.

Lemma festival_conversion_failures_skipped_witness :
  @hebrew_from_gregorian Fixtures.table_calendar 2025 10 1 = Ok (5786, 0, 0) ∧
  Forall (@conversion_failure_expected Fixtures.table_calendar) (sweep 5786) ∧
  @convert_festival Fixtures.table_calendar 5787 7 1 = Raise ValueError ∧
  ∃ out,
    @hebrew_festival_matches Fixtures.table_calendar
      (mk_datetime 2025 10 1 13 30 0 0) = Ok out ∧
    map festival out = ["Yom Kippur"; "Sukkot"; "Rosh Hashanah"].
Proof.
  assert (Hsweep : Forall (@conversion_failure_expected Fixtures.table_calendar)
                          (sweep 5786)).
  { repeat (apply List.Forall_cons;
            [intros e He; vm_compute in He;
             first [discriminate He | by injection He as <-] |]).
    apply List.Forall_nil. }
  split; [done|]. split; [exact Hsweep|]. split; [done|].
  eexists. split.
  - by apply (@festival_conversion_failures_skipped Fixtures.table_calendar
                (mk_datetime 2025 10 1 13 30 0 0) 5786 0 0).
  - by vm_compute.
Defined.

(** ** Binary64 arithmetic *)

Lemma digits2_pos_bounds (p : positive) :
  2 ^ (Zpos (digits2_pos p) - 1) ≤ Zpos p < 2 ^ Zpos (digits2_pos p).
Proof.
  induction p as [p IH|p IH|]; cbn [digits2_pos]; [| |by vm_compute].
  all: rewrite Pos2Z.inj_succ, Z.pow_succ_r by lia.
  all: replace (Z.succ (Zpos (digits2_pos p)) - 1)
         with (Z.succ (Zpos (digits2_pos p) - 1)) by lia.
  all: rewrite Z.pow_succ_r by lia; lia.
Qed.

Lemma digits2_pos_unique (p : positive) (k : Z) :
  2 ^ (k - 1) ≤ Zpos p < 2 ^ k → Zpos (digits2_pos p) = k.
Proof.
  intros [Hlo Hhi]. pose proof (digits2_pos_bounds p) as [Hlo' Hhi'].
  destruct (Z.lt_trichotomy (Zpos (digits2_pos p)) k) as [Hlt|[Heq|Hgt]]; [|done|].
  - assert (2 ^ Zpos (digits2_pos p) ≤ 2 ^ (k - 1)) by (apply Z.pow_le_mono_r; lia).
    lia.
  - assert (0 ≤ k ∨ k < 0) as [Hk|Hk] by lia.
    + assert (2 ^ k ≤ 2 ^ (Zpos (digits2_pos p) - 1)) by (apply Z.pow_le_mono_r; lia).
      lia.
    + rewrite (Z.pow_neg_r 2 k) in Hhi by lia. lia.
Qed.

Lemma iter_xO_value (p k : positive) :
  Zpos (Pos.iter xO p k) = Zpos p * 2 ^ Zpos k.
Proof.
  induction k as [|k IH] using Pos.peano_ind.
  - cbn [Pos.iter]. lia.
  - rewrite Pos.iter_succ, Pos2Z.inj_succ, Z.pow_succ_r by lia.
    rewrite Pos2Z.inj_xO, IH. lia.
Qed.

Lemma shr_1_inv (P k : Z) (mrs : shr_record) :
  0 ≤ k → shr_inv P k mrs → shr_inv P (k + 1) (shr_1 mrs).
Proof.
  intros Hk (R & HP & HR & Hm & Hr & Hs).
  assert (Hpow : 2 ^ (k + 1) = 2 * 2 ^ k) by (rewrite Z.pow_add_r by lia; lia).
  destruct mrs as [m r s]. cbn [shr_m shr_r shr_s] in *.
  assert (Hsticky : r || s = negb (R =? 0)).
  { rewrite Hr, Hs.
    destruct (Z.leb_spec (2 ^ k) (2 * R)), (Z.eqb_spec R 0),
             (Z.eqb_spec (2 * R) (2 ^ k)); simpl; try done; lia. }
  destruct m as [|[q|q|]|q]; cbn [shr_1]; try lia.
  - exists R. cbn [shr_m shr_r shr_s]. rewrite Hpow, Hsticky.
    split_and!; lia.
  - exists (2 ^ k + R). cbn [shr_m shr_r shr_s]. rewrite Hpow, Hsticky.
    pose proof (Pos2Z.inj_xI q). split_and!; lia.
  - exists R. cbn [shr_m shr_r shr_s]. rewrite Hpow, Hsticky.
    pose proof (Pos2Z.inj_xO q). split_and!; lia.
  - exists (2 ^ k + R). cbn [shr_m shr_r shr_s]. rewrite Hpow, Hsticky.
    split_and!; lia.
Qed.

Lemma iter_shr_1_inv (P : Z) (p : positive) :
  ∀ k mrs, 0 ≤ k → shr_inv P k mrs →
           shr_inv P (k + Zpos p) (iter_pos shr_1 p mrs).
Proof.
  induction p as [p IH|p IH|]; intros k mrs Hk Hinv; cbn [iter_pos].
  - replace (k + Zpos p~1) with (k + 1 + Zpos p + Zpos p) by lia.
    apply IH; [lia|]. apply IH; [lia|]. by apply shr_1_inv.
  - replace (k + Zpos p~0) with (k + Zpos p + Zpos p) by lia.
    apply IH; [lia|]. by apply IH.
  - by apply shr_1_inv.
Qed.

Lemma round_nearest_even_spec (P k : Z) (mrs : shr_record) :
  0 ≤ k → shr_inv P k mrs →
  shr_m mrs = P / 2 ^ k ∧
  shr_m mrs ≤ round_nearest_even (shr_m mrs) (loc_of_shr_record mrs) ∧
  is_rne P k (round_nearest_even (shr_m mrs) (loc_of_shr_record mrs)).
Proof.
  intros Hk (R & HP & HR & Hm & Hr & Hs).
  assert (Hpow : 0 < 2 ^ k) by (apply Z.pow_pos_nonneg; lia).
  split.
  { apply (Z.div_unique _ _ _ R); lia. }
  destruct mrs as [m r s]; cbn [shr_m shr_r shr_s] in *.
  destruct (Z.leb_spec (2 ^ k) (2 * R)), (Z.eqb_spec R 0),
           (Z.eqb_spec (2 * R) (2 ^ k)); subst r s;
    cbn [negb andb loc_of_shr_record round_nearest_even]; try lia.
  - destruct (Z.even m) eqn:Heven.
    + split; [lia|]. split; [lia|]. done.
    + split; [lia|]. split; [lia|]. intros _.
      rewrite Z.even_add, Heven. done.
  - split; [lia|]. split; [lia|]. lia.
  - split; [lia|]. split; [lia|]. lia.
  - split; [lia|]. split; [lia|]. lia.
Qed.

Lemma is_rne_mono (P P' k M M' : Z) :
  0 ≤ k → is_rne P k M → is_rne P' k M' → P ≤ P' → M ≤ M'.
Proof.
  intros Hk [HM HMe] [HM' HMe'] HP.
  assert (Hpow : 0 < 2 ^ k) by (apply Z.pow_pos_nonneg; lia).
  destruct (Z.le_gt_cases M M') as [|Hgt]; [done|]. exfalso.
  assert (Hstep : (M' + 1) * 2 ^ k ≤ M * 2 ^ k).
  { apply Z.mul_le_mono_nonneg_r; lia. }
  assert (M = M' + 1).
  { assert (M * 2 ^ k ≤ (M' + 1) * 2 ^ k) by lia.
    apply Z.mul_le_mono_pos_r in H; lia. }
  subst M.
  assert (He : Z.even (M' + 1) = true) by (apply HMe; lia).
  assert (He' : Z.even M' = true) by (apply HMe'; lia).
  rewrite Z.even_add, He' in He. done.
Qed.

Lemma is_rne_scale (P k s M : Z) :
  0 ≤ k → 0 ≤ s → is_rne P k M → is_rne (P * 2 ^ s) (k + s) M.
Proof.
  intros Hk Hs [HM HMe].
  assert (Hpow : 0 < 2 ^ s) by (apply Z.pow_pos_nonneg; lia).
  unfold is_rne. rewrite Z.pow_add_r by lia.
  replace (2 * (M * (2 ^ k * 2 ^ s))) with (2 * (M * 2 ^ k) * 2 ^ s) by ring.
  replace (2 * (P * 2 ^ s) - 2 ^ k * 2 ^ s) with ((2 * P - 2 ^ k) * 2 ^ s) by ring.
  replace (2 * (P * 2 ^ s) + 2 ^ k * 2 ^ s) with ((2 * P + 2 ^ k) * 2 ^ s) by ring.
  split.
  - split; apply Z.mul_le_mono_nonneg_r; lia.
  - intros [H|H]; apply Z.mul_cancel_r in H; try lia; apply HMe; lia.
Qed.

Lemma fexp_normal (e : Z) : -1021 ≤ e → fexp prec emax e = e - 53.
Proof. intros He. unfold fexp, emin, prec, emax. lia. Qed.

Lemma binary_round_aux_exact (sx : bool) (mz : positive) (ez : Z) :
  Zpos (digits2_pos mz) = 53 → -1074 ≤ ez ≤ 971 →
  binary_round_aux prec emax sx (Zpos mz) ez loc_Exact = S754_finite sx mz ez.
Proof.
  intros Hd He. unfold binary_round_aux, shr_fexp. cbn [Zdigits2].
  rewrite Hd, fexp_normal by lia.
  replace (53 + ez - 53 - ez) with 0 by lia.
  cbn [shr shr_record_of_loc loc_of_shr_record shr_m round_nearest_even Zdigits2].
  rewrite Hd, fexp_normal by lia.
  replace (53 + ez - 53 - ez) with 0 by lia.
  cbn [shr shr_record_of_loc shr_m].
  unfold prec, emax. destruct (Z.leb_spec ez (1024 - 53)); [done | lia].
Qed.

Lemma binary_round_aux_rne (sx : bool) (P : positive) (e0 : Z) :
  let D := Zpos (digits2_pos P) in
  53 < D → -1074 ≤ e0 + D - 53 →
  ∃ M1,
    is_rne (Zpos P) (D - 53) M1 ∧ 2 ^ 52 ≤ M1 ≤ 2 ^ 53 ∧
    (e0 + D - 53 + (if M1 <? 2 ^ 53 then 0 else 1) ≤ 971 →
     binary_round_aux prec emax sx (Zpos P) e0 loc_Exact
     = pack sx M1 (e0 + D - 53)).
Proof.
  intros D HD Hmin. pose proof (digits2_pos_bounds P) as [Hlo Hhi].
  fold D in Hlo, Hhi.
  unfold binary_round_aux, shr_fexp. cbn [Zdigits2]. fold D.
  rewrite fexp_normal by lia.
  replace (D + e0 - 53 - e0) with (D - 53) by lia.
  replace (e0 + D - 53) with (e0 + (D - 53)) by lia.
  destruct (D - 53) as [|n|n] eqn:Hn; [lia| |lia].
  cbn [shr shr_record_of_loc].
  assert (Hinv : shr_inv (Zpos P) (0 + Zpos n)
                   (iter_pos shr_1 n {| shr_m := Zpos P; shr_r := false; shr_s := false |})).
  { apply iter_shr_1_inv; [lia|]. exists 0. cbn [shr_m shr_r shr_s].
    split_and!; try done; lia. }
  rewrite Z.add_0_l in Hinv.
  apply round_nearest_even_spec in Hinv as (Hm & Hle & Hrne); [|lia].
  set (mrs := iter_pos shr_1 n _) in *.
  set (M1 := round_nearest_even (shr_m mrs) (loc_of_shr_record mrs)) in *.
  assert (Hpow : 2 ^ (D - 1) = 2 ^ 52 * 2 ^ Zpos n).
  { rewrite <- Z.pow_add_r by lia. f_equal. lia. }
  assert (Hpow' : 2 ^ D = 2 ^ 53 * 2 ^ Zpos n).
  { rewrite <- Z.pow_add_r by lia. f_equal. lia. }
  assert (Hn0 : 0 < 2 ^ Zpos n) by (apply Z.pow_pos_nonneg; lia).
  assert (Hm52 : 2 ^ 52 ≤ shr_m mrs).
  { rewrite Hm. apply Z.div_le_lower_bound; lia. }
  assert (HM53 : M1 ≤ 2 ^ 53).
  { destruct Hrne as [[_ Hup] _].
    destruct (Z.le_gt_cases M1 (2 ^ 53)) as [|Hgt]; [done|]. exfalso.
    assert ((2 ^ 53 + 1) * 2 ^ Zpos n ≤ M1 * 2 ^ Zpos n)
      by (apply Z.mul_le_mono_nonneg_r; lia).
    lia. }
  exists M1. split; [done|]. split; [lia|].
  unfold pack.
  destruct (Z.ltb_spec M1 (2 ^ 53)) as [Hlt|Hge]; intros Hfin.
  - destruct M1 as [|M1p|M1p] eqn:HM1; [lia| |lia].
    cbn [Zdigits2 Z.to_pos].
    assert (Hd : Zpos (digits2_pos M1p) = 53).
    { apply digits2_pos_unique. change (53 - 1) with 52. lia. }
    rewrite Hd, fexp_normal by lia.
    replace (53 + (e0 + Zpos n) - 53 - (e0 + Zpos n)) with 0 by lia.
    cbn [shr shr_record_of_loc shr_m]. unfold prec, emax.
    destruct (Z.leb_spec (e0 + Zpos n) (1024 - 53)); [done | lia].
  - assert (HM1 : M1 = 9007199254740992) by (change (2 ^ 53) with 9007199254740992 in *; lia).
    rewrite HM1.
    change (Zdigits2 9007199254740992) with 54.
    rewrite fexp_normal by lia.
    replace (54 + (e0 + Zpos n) - 53 - (e0 + Zpos n)) with 1 by lia.
    cbn [shr iter_pos shr_record_of_loc shr_1 shr_m].
    unfold prec, emax.
    destruct (Z.leb_spec (e0 + Zpos n + 1) (1024 - 53)); [done | lia].
Qed.

Lemma pow2_pos (k : Z) : 0 ≤ k → 0 < 2 ^ k.
Proof. intros. apply Z.pow_pos_nonneg; lia. Qed.

Lemma pow2_split (a b : Z) : 0 ≤ a → 0 ≤ b → 2 ^ (a + b) = 2 ^ a * 2 ^ b.
Proof. intros. by rewrite Z.pow_add_r. Qed.

(** Rounding is monotone, also across numbers of different width. *)
Lemma rounded_mono (P P' : positive) (a a' M1 M1' : Z) :
  let D := Zpos (digits2_pos P) in
  let D' := Zpos (digits2_pos P') in
  53 < D → 53 < D' → 0 ≤ a → 0 ≤ a' →
  is_rne (Zpos P) (D - 53) M1 → is_rne (Zpos P') (D' - 53) M1' →
  M1 ≤ 2 ^ 53 → 2 ^ 52 ≤ M1' →
  Zpos P * 2 ^ a ≤ Zpos P' * 2 ^ a' →
  M1 * 2 ^ (D - 53 + a) ≤ M1' * 2 ^ (D' - 53 + a').
Proof.
  intros D D' HD HD' Ha Ha' Hrne Hrne' HM1 HM1' Hle.
  pose proof (digits2_pos_bounds P) as [Hlo Hhi].
  pose proof (digits2_pos_bounds P') as [Hlo' Hhi'].
  fold D in Hlo, Hhi. fold D' in Hlo', Hhi'.
  pose proof (pow2_pos a Ha) as Hpa. pose proof (pow2_pos a' Ha') as Hpa'.
  assert (Hb : D + a ≤ D' + a').
  { destruct (Z.le_gt_cases (D + a) (D' + a')) as [|Hgt]; [done|]. exfalso.
    assert (2 ^ (D' + a') ≤ 2 ^ (D - 1 + a)) by (apply Z.pow_le_mono_r; lia).
    rewrite !pow2_split in H by lia.
    assert (Zpos P' * 2 ^ a' < 2 ^ D' * 2 ^ a') by (apply Z.mul_lt_mono_pos_r; lia).
    assert (2 ^ (D - 1) * 2 ^ a ≤ Zpos P * 2 ^ a) by (apply Z.mul_le_mono_nonneg_r; lia).
    lia. }
  destruct (Z.eq_dec (D + a) (D' + a')) as [Heq|Hne].
  - replace (D' - 53 + a') with (D - 53 + a) by lia.
    apply Z.mul_le_mono_nonneg_r; [apply Z.pow_nonneg; lia|].
    destruct (Z.le_gt_cases a a') as [Haa|Haa].
    + apply (is_rne_mono (Zpos P) (Zpos P' * 2 ^ (a' - a)) (D - 53)); [lia|done| |].
      * replace (D - 53) with (D' - 53 + (a' - a)) by lia.
        apply is_rne_scale; [lia..|done].
      * replace a' with (a' - a + a) in Hle by lia.
        rewrite pow2_split, Z.mul_assoc in Hle by lia.
        apply Z.mul_le_mono_pos_r in Hle; lia.
    + apply (is_rne_mono (Zpos P * 2 ^ (a - a')) (Zpos P') (D' - 53)); [lia| |done|].
      * replace (D' - 53) with (D - 53 + (a - a')) by lia.
        apply is_rne_scale; [lia..|done].
      * replace a with (a - a' + a') in Hle by lia.
        rewrite pow2_split, Z.mul_assoc in Hle by lia.
        apply Z.mul_le_mono_pos_r in Hle; lia.
  - transitivity (2 ^ 53 * 2 ^ (D - 53 + a)).
    { apply Z.mul_le_mono_nonneg_r; [apply Z.pow_nonneg; lia | done]. }
    transitivity (2 ^ 52 * 2 ^ (D' - 53 + a')).
    2: { apply Z.mul_le_mono_nonneg_r; [apply Z.pow_nonneg; lia | done]. }
    rewrite <- !pow2_split by lia. apply Z.pow_le_mono_r; lia.
Qed.

Lemma pack_finite (sx : bool) (M1 e : Z) :
  2 ^ 52 ≤ M1 ≤ 2 ^ 53 → -53 ≤ e →
  ∃ M e', pack sx M1 e = S754_finite sx M e' ∧
          2 ^ 52 ≤ Zpos M < 2 ^ 53 ∧ e ≤ e' ≤ e + 1 ∧
          (M1 < 2 ^ 53 → e' = e) ∧
          Zpos M * 2 ^ (e' + 53) = M1 * 2 ^ (e + 53).
Proof.
  intros HM He. unfold pack.
  change (2 ^ 52) with 4503599627370496 in *.
  change (2 ^ 53) with 9007199254740992 in *.
  destruct (Z.ltb_spec M1 9007199254740992) as [Hlt|Hge].
  - exists (Z.to_pos M1), e. rewrite Z2Pos.id by lia. split_and!; try done; lia.
  - exists 4503599627370496%positive, (e + 1).
    split_and!; try done; try lia.
    replace (e + 1 + 53) with (1 + (e + 53)) by lia.
    rewrite pow2_split by lia. change (2 ^ 1) with 2.
    assert (M1 = 9007199254740992) as -> by lia. lia.
Qed.

Lemma binary_round_small (sx : bool) (p : positive) :
  Zpos p < 2 ^ 53 →
  ∃ mz, binary_round prec emax sx p 0
        = S754_finite sx mz (Zpos (digits2_pos p) - 53) ∧
        Zpos mz = Zpos p * 2 ^ (53 - Zpos (digits2_pos p)) ∧
        2 ^ 52 ≤ Zpos mz < 2 ^ 53 ∧ 1 ≤ Zpos (digits2_pos p) ≤ 53.
Proof.
  intros Hp. pose proof (digits2_pos_bounds p) as [Hlo Hhi].
  assert (Hd : Zpos (digits2_pos p) ≤ 53).
  { destruct (Z.le_gt_cases (Zpos (digits2_pos p)) 53) as [|Hgt]; [done|].
    assert (2 ^ 53 ≤ 2 ^ (Zpos (digits2_pos p) - 1)) by (apply Z.pow_le_mono_r; lia).
    lia. }
  set (d := Zpos (digits2_pos p)) in *.
  assert (Hd1 : 1 ≤ d) by (unfold d; lia).
  assert (H52 : 2 ^ 52 = 2 ^ (d - 1) * 2 ^ (53 - d)).
  { rewrite <- Z.pow_add_r by lia. f_equal. lia. }
  assert (H53 : 2 ^ 53 = 2 ^ d * 2 ^ (53 - d)).
  { rewrite <- Z.pow_add_r by lia. f_equal. lia. }
  pose proof (pow2_pos (53 - d) ltac:(lia)) as HS.
  assert (Hrange : 2 ^ 52 ≤ Zpos p * 2 ^ (53 - d) < 2 ^ 53).
  { rewrite H52, H53.
    split; [apply Z.mul_le_mono_nonneg_r | apply Z.mul_lt_mono_pos_r]; lia. }
  unfold binary_round. rewrite Z.add_0_r. fold d. rewrite fexp_normal by lia.
  unfold shl_align. rewrite Z.sub_0_r.
  destruct (d - 53) as [|k|k] eqn:Hk; [|lia|].
  - exists p. rewrite binary_round_aux_exact by (fold d; lia).
    replace (53 - d) with 0 in * by lia. rewrite Z.mul_1_r in *.
    split_and!; try done; lia.
  - exists (Pos.iter xO p k).
    assert (Hval : Zpos (Pos.iter xO p k) = Zpos p * 2 ^ (53 - d)).
    { rewrite iter_xO_value. do 2 f_equal. lia. }
    split.
    { apply binary_round_aux_exact; [|lia].
      apply digits2_pos_unique. rewrite Hval. exact Hrange. }
    rewrite Hval. split_and!; try done; lia.
Qed.

Lemma digits2_pos_large (p : positive) :
  2 ^ 53 ≤ Zpos p → 53 < Zpos (digits2_pos p).
Proof.
  intros Hp. pose proof (digits2_pos_bounds p) as [_ Hhi].
  destruct (Z.lt_ge_cases 53 (Zpos (digits2_pos p))) as [|Hle]; [done|].
  assert (2 ^ Zpos (digits2_pos p) ≤ 2 ^ 53) by (apply Z.pow_le_mono_r; lia).
  lia.
Qed.

Lemma binary_round_int (sx : bool) (p : positive) :
  Zpos p < 2 ^ 1024 - 2 ^ 970 →
  ∃ M e, binary_round prec emax sx p 0 = S754_finite sx M e ∧
         2 ^ 52 ≤ Zpos M < 2 ^ 53 ∧ -52 ≤ e ≤ 971 ∧
         conv_desc p (Zpos M * 2 ^ (e + 53)).
Proof.
  intros Hp. destruct (Z.lt_ge_cases (Zpos p) (2 ^ 53)) as [Hsmall|Hlarge].
  - destruct (binary_round_small sx p Hsmall) as (mz & Heq & Hmz & Hrange & Hd).
    exists mz, (Zpos (digits2_pos p) - 53).
    split; [done|]. split; [done|]. split; [lia|]. left. split; [done|].
    rewrite Hmz, <- Z.mul_assoc, <- pow2_split by lia. do 2 f_equal. lia.
  - pose proof (digits2_pos_large p Hlarge) as HD.
    pose proof (digits2_pos_bounds p) as [Hlo Hhi].
    set (D := Zpos (digits2_pos p)) in *.
    assert (HT : 2 ^ 1024 = 2 ^ 53 * 2 ^ 971) by (by rewrite <- pow2_split).
    assert (HT' : 2 ^ 971 = 2 * 2 ^ 970) by (by rewrite <- Z.pow_succ_r).
    pose proof (pow2_pos 970 ltac:(lia)) as HT0.
    assert (HD1024 : D ≤ 1024).
    { destruct (Z.le_gt_cases D 1024) as [|Hgt]; [done|].
      assert (2 ^ 1024 ≤ 2 ^ (D - 1)) by (apply Z.pow_le_mono_r; lia). lia. }
    destruct (binary_round_aux_rne sx p 0) as (M1 & Hrne & HM1 & Hfin); [done|fold D; lia|].
    fold D in Hrne, Hfin.
    assert (Hcarry : 0 + D - 53 + (if M1 <? 2 ^ 53 then 0 else 1) ≤ 971).
    { destruct (Z.ltb_spec M1 (2 ^ 53)) as [|Hge]; [lia|].
      destruct (Z.eq_dec D 1024) as [HDeq|]; [exfalso|lia].
      destruct Hrne as [[_ Hup] _]. rewrite HDeq in Hup.
      change (1024 - 53) with 971 in Hup.
      assert (2 ^ 53 * 2 ^ 971 ≤ M1 * 2 ^ 971)
        by (apply Z.mul_le_mono_nonneg_r; lia).
      lia. }
    specialize (Hfin Hcarry).
    destruct (pack_finite sx M1 (0 + D - 53)) as (M & e' & Hpack & HMr & He' & Hnc & Hval);
      [done|lia|].
    exists M, e'. unfold binary_round. rewrite Z.add_0_r. fold D.
    rewrite fexp_normal by lia. unfold shl_align. rewrite Z.sub_0_r.
    destruct (D - 53) as [|n|n] eqn:Hn; [lia| |lia].
    rewrite Hfin, Hpack. split; [done|]. split; [done|].
    split; [destruct (Z.ltb_spec M1 (2 ^ 53)); lia|].
    right. split; [done|]. exists M1. fold D. rewrite Hn.
    split; [done|]. split; [done|]. rewrite Hval. do 2 f_equal. lia.
Qed.

Lemma conv_desc_mono (p p' : positive) (V V' : Z) :
  conv_desc p V → conv_desc p' V' → Zpos p ≤ Zpos p' → V ≤ V'.
Proof.
  intros [[Hp ->] | [Hp (M1 & Hrne & HM1 & ->)]]
         [[Hp' ->] | [Hp' (M1' & Hrne' & HM1' & ->)]] Hle.
  - apply Z.mul_le_mono_nonneg_r; [apply Z.pow_nonneg|]; lia.
  - pose proof (digits2_pos_large p' Hp') as HD'.
    transitivity (2 ^ 53 * 2 ^ 53).
    { apply Z.mul_le_mono_nonneg_r; [apply Z.pow_nonneg|]; lia. }
    transitivity (2 ^ 52 * 2 ^ Zpos (digits2_pos p')).
    2: { apply Z.mul_le_mono_nonneg_r; [apply Z.pow_nonneg|]; lia. }
    rewrite <- !pow2_split by lia. apply Z.pow_le_mono_r; lia.
  - lia.
  - pose proof (digits2_pos_large p Hp) as HD.
    pose proof (digits2_pos_large p' Hp') as HD'.
    pose proof (rounded_mono p p' 0 0 M1 M1' HD HD' ltac:(lia) ltac:(lia)
                  Hrne Hrne' ltac:(lia) ltac:(lia) ltac:(lia)) as Hmono.
    rewrite !Z.add_0_r in Hmono.
    assert (HE : 2 ^ Zpos (digits2_pos p) = 2 ^ (Zpos (digits2_pos p) - 53) * 2 ^ 53).
    { rewrite <- pow2_split by lia. f_equal. lia. }
    assert (HE' : 2 ^ Zpos (digits2_pos p') = 2 ^ (Zpos (digits2_pos p') - 53) * 2 ^ 53).
    { rewrite <- pow2_split by lia. f_equal. lia. }
    rewrite HE, HE', !Z.mul_assoc.
    apply Z.mul_le_mono_nonneg_r; [apply Z.pow_nonneg; lia | done].
Qed.

Lemma conv_desc_bound (p : positive) (V : Z) :
  conv_desc p V → V ≤ Zpos p * (2 ^ 53 + 1).
Proof.
  intros [[Hp ->] | [Hp (M1 & [[_ Hup] _] & HM1 & ->)]]; [lia|].
  pose proof (digits2_pos_large p Hp) as HD.
  pose proof (digits2_pos_bounds p) as [Hlo _].
  set (D := Zpos (digits2_pos p)) in *.
  pose proof (pow2_pos (D - 53) ltac:(lia)) as Hn.
  assert (HD1 : 2 ^ (D - 1) = 2 ^ (D - 53) * 2 ^ 52).
  { rewrite <- pow2_split by lia. f_equal. lia. }
  assert (HD0 : 2 ^ D = 2 ^ (D - 53) * 2 ^ 53).
  { rewrite <- pow2_split by lia. f_equal. lia. }
  rewrite HD0, HD1 in *.
  change (2 ^ 53) with 9007199254740992 in *.
  change (2 ^ 52) with 4503599627370496 in *. lia.
Qed.

Lemma product_digits (M : positive) :
  2 ^ 52 ≤ Zpos M < 2 ^ 53 →
  105 ≤ Zpos (digits2_pos (M * C065)) ≤ 106.
Proof.
  intros HM. pose proof (digits2_pos_bounds (M * C065)) as [HPlo HPhi].
  assert (HP : Zpos (M * C065) = Zpos M * 5854679515581645) by (unfold C065; lia).
  change (2 ^ 52) with 4503599627370496 in HM.
  change (2 ^ 53) with 9007199254740992 in HM.
  split.
  - destruct (Z.le_gt_cases 105 (Zpos (digits2_pos (M * C065)))) as [|Hlt]; [done|].
    assert (2 ^ Zpos (digits2_pos (M * C065)) ≤ 2 ^ 104) by (apply Z.pow_le_mono_r; lia).
    change (2 ^ 104) with 20282409603651670423947251286016 in *. lia.
  - destruct (Z.le_gt_cases (Zpos (digits2_pos (M * C065))) 106) as [|Hgt]; [done|].
    assert (2 ^ 106 ≤ 2 ^ (Zpos (digits2_pos (M * C065)) - 1)) by (apply Z.pow_le_mono_r; lia).
    change (2 ^ 106) with 81129638414606681695789005144064 in *. lia.
Qed.

Lemma float_mul_0_65 (sx : bool) (M : positive) (e : Z) :
  2 ^ 52 ≤ Zpos M < 2 ^ 53 → -52 ≤ e ≤ 971 →
  ∃ Mp ep, float_mul (S754_finite sx M e) float_0_65 = S754_finite sx Mp ep ∧
           -53 ≤ ep ≤ 971 ∧ prod_desc M e (Zpos Mp * 2 ^ (ep + 53)).
Proof.
  intros HM He. pose proof (product_digits M HM) as HD.
  unfold float_mul, float_0_65, SFmul. rewrite xorb_false_r.
  destruct (binary_round_aux_rne sx (M * C065) (e + -53))
    as (M1 & Hrne & HM1 & Hfin); [lia..|].
  set (Dp := Zpos (digits2_pos (M * C065))) in *.
  assert (Hcarry : e + -53 + Dp - 53 + (if M1 <? 2 ^ 53 then 0 else 1) ≤ 971).
  { destruct (Z.ltb_spec M1 (2 ^ 53)) as [|Hge]; [lia|].
    destruct (Z.eq_dec Dp 106) as [HDeq|]; [exfalso|lia].
    destruct Hrne as [[_ Hup] _]. rewrite HDeq in Hup.
    change (106 - 53) with 53 in Hup.
    assert (HP : Zpos (M * C065) = Zpos M * 5854679515581645) by (unfold C065; lia).
    rewrite HP in Hup.
    change (2 ^ 52) with 4503599627370496 in *.
    change (2 ^ 53) with 9007199254740992 in *. lia. }
  specialize (Hfin Hcarry).
  destruct (pack_finite sx M1 (e + -53 + Dp - 53))
    as (Mp & ep & Hpack & HMp & Hep & Hnc & Hval); [done|lia|].
  exists Mp, ep. rewrite Hfin, Hpack. split; [done|].
  split; [destruct (Z.ltb_spec M1 (2 ^ 53)); lia|].
  exists M1. fold Dp. split; [done|]. split; [done|].
  rewrite Hval. do 2 f_equal. lia.
Qed.

Lemma prod_desc_mono (M M' : positive) (e e' W W' : Z) :
  -52 ≤ e → -52 ≤ e' →
  2 ^ 52 ≤ Zpos M < 2 ^ 53 → 2 ^ 52 ≤ Zpos M' < 2 ^ 53 →
  Zpos M * 2 ^ (e + 53) ≤ Zpos M' * 2 ^ (e' + 53) →
  prod_desc M e W → prod_desc M' e' W' → W ≤ W'.
Proof.
  intros He He' HM HM' Hle (M1 & Hrne & HM1 & ->) (M1' & Hrne' & HM1' & ->).
  pose proof (product_digits M HM) as HD.
  pose proof (product_digits M' HM') as HD'.
  replace (e + 53) with (e + 52 + 1) in Hle by lia.
  replace (e' + 53) with (e' + 52 + 1) in Hle by lia.
  rewrite (pow2_split (e + 52) 1), (pow2_split (e' + 52) 1) in Hle by lia.
  change (2 ^ 1) with 2 in Hle.
  rewrite !Z.mul_assoc in Hle. apply Z.mul_le_mono_pos_r in Hle; [|lia].
  pose proof (rounded_mono (M * C065) (M' * C065) (e + 52) (e' + 52) M1 M1'
                ltac:(lia) ltac:(lia) ltac:(lia) ltac:(lia)
                Hrne Hrne' ltac:(lia) ltac:(lia)) as Hmono.
  cbv zeta in Hmono.
  assert (HP : Zpos (M * C065) * 2 ^ (e + 52) ≤ Zpos (M' * C065) * 2 ^ (e' + 52)).
  { rewrite !Pos2Z.inj_mul.
    replace (Zpos M * Zpos C065 * 2 ^ (e + 52))
      with (Zpos M * 2 ^ (e + 52) * Zpos C065) by ring.
    replace (Zpos M' * Zpos C065 * 2 ^ (e' + 52))
      with (Zpos M' * 2 ^ (e' + 52) * Zpos C065) by ring.
    apply Z.mul_le_mono_nonneg_r; [lia | done]. }
  specialize (Hmono HP).
  set (Dp := Zpos (digits2_pos (M * C065))) in *.
  set (Dp' := Zpos (digits2_pos (M' * C065))) in *.
  replace (Dp - 53 + (e + 52)) with (e + Dp - 53 + 52) in Hmono by lia.
  replace (Dp' - 53 + (e' + 52)) with (e' + Dp' - 53 + 52) in Hmono by lia.
  rewrite (pow2_split (e + Dp - 53) 52), (pow2_split (e' + Dp' - 53) 52) in Hmono by lia.
  rewrite !Z.mul_assoc in Hmono.
  apply Z.mul_le_mono_pos_r in Hmono; [done | by apply pow2_pos].
Qed.

Lemma prod_desc_bound (M : positive) (e W : Z) :
  -52 ≤ e → 2 ^ 52 ≤ Zpos M < 2 ^ 53 →
  prod_desc M e W →
  W * 2 ^ 53 ≤ 5854679515581646 * (Zpos M * 2 ^ (e + 53)).
Proof.
  intros He HM (M1 & [[_ Hup] _] & HM1 & ->).
  pose proof (product_digits M HM) as HD.
  set (Dp := Zpos (digits2_pos (M * C065))) in *.
  assert (HP : Zpos (M * C065) = Zpos M * 5854679515581645) by (unfold C065; lia).
  rewrite HP in Hup.
  assert (Hn : 0 < 2 ^ (Dp - 53) ≤ 2 ^ 53).
  { split; [apply pow2_pos; lia | apply Z.pow_le_mono_r; lia]. }
  assert (HW : M1 * 2 ^ (e + Dp - 53) * 2 ^ 53
               = M1 * 2 ^ (Dp - 53) * 2 ^ (e + 53)).
  { rewrite <- !Z.mul_assoc, <- !pow2_split by lia. do 2 f_equal. lia. }
  rewrite HW.
  replace (5854679515581646 * (Zpos M * 2 ^ (e + 53)))
    with (Zpos M * 5854679515581646 * 2 ^ (e + 53)) by ring.
  apply Z.mul_le_mono_nonneg_r; [apply Z.pow_nonneg; lia|].
  change (2 ^ 52) with 4503599627370496 in *.
  change (2 ^ 53) with 9007199254740992 in *. lia.
Qed.

Lemma int_of_float_scaled (sx : bool) (Mp : positive) (ep : Z) :
  -53 ≤ ep →
  int_of_float (S754_finite sx Mp ep)
  = Ok (if sx then - (Zpos Mp * 2 ^ (ep + 53) / 2 ^ 53)
        else Zpos Mp * 2 ^ (ep + 53) / 2 ^ 53).
Proof.
  intros Hep. cbn [int_of_float].
  assert (Hval : match ep with
                 | 0 => Zpos Mp
                 | Zpos _ => Z.shiftl (Zpos Mp) ep
                 | Zneg p => Z.shiftr (Zpos Mp) (Zpos p)
                 end = Zpos Mp * 2 ^ (ep + 53) / 2 ^ 53); [|by rewrite Hval].
  destruct ep as [|pe|pe].
  - by rewrite Z.div_mul.
  - rewrite Z.shiftl_mul_pow2, pow2_split, Z.mul_assoc, Z.div_mul by lia. done.
  - rewrite Z.shiftr_div_pow2 by lia.
    replace (2 ^ 53) with (2 ^ Zpos pe * 2 ^ (Zneg pe + 53)).
    2: { rewrite <- pow2_split by lia. f_equal. lia. }
    rewrite Z.div_mul_cancel_r; [done|..]; apply Z.pow_nonzero; lia.
Qed.

Lemma float_of_int_finite (n : Z) (x : spec_float) :
  binary_normalize prec emax n 0 false = x →
  (∀ s, x ≠ S754_infinity s) →
  float_of_int n = Ok x.
Proof.
  intros Hx Hfin. unfold float_of_int. rewrite Hx.
  destruct x; try done. by destruct (Hfin s).
Qed.

Lemma prod_desc_nonneg (M : positive) (e W : Z) : prod_desc M e W → 0 ≤ W.
Proof.
  intros (M1 & _ & HM1 & ->).
  apply Z.mul_nonneg_nonneg; [|apply Z.pow_nonneg]; lia.
Qed.

(** The conversion of [p], the product by [0.65] and the truncation, step
    by step. *)
Lemma interpreted_chain (sx : bool) (p : positive) :
  Zpos p < 2 ^ 1024 - 2 ^ 970 →
  ∃ M e W,
    binary_round prec emax sx p 0 = S754_finite sx M e ∧
    2 ^ 52 ≤ Zpos M < 2 ^ 53 ∧ -52 ≤ e ≤ 971 ∧
    conv_desc p (Zpos M * 2 ^ (e + 53)) ∧ prod_desc M e W ∧
    int_of_float (float_mul (S754_finite sx M e) float_0_65)
    = Ok (if sx then - (W / 2 ^ 53) else W / 2 ^ 53).
Proof.
  intros Hp.
  destruct (binary_round_int sx p Hp) as (M & e & Hconv & HM & He & Hdesc).
  destruct (float_mul_0_65 sx M e HM He) as (Mp & ep & Hmul & Hep & Hprod).
  exists M, e, (Zpos Mp * 2 ^ (ep + 53)).
  split_and!; try done; try lia.
  rewrite Hmul. apply int_of_float_scaled. lia.
Qed.

Lemma estimate_runtime_positive (p : positive) :
  Zpos p < 2 ^ 1024 - 2 ^ 970 →
  ∃ M e W,
    2 ^ 52 ≤ Zpos M < 2 ^ 53 ∧ -52 ≤ e ≤ 971 ∧
    conv_desc p (Zpos M * 2 ^ (e + 53)) ∧ prod_desc M e W ∧
    estimate_runtime (Zpos p) true = Ok (Z.max 10 (W / 2 ^ 53)).
Proof.
  intros Hp.
  destruct (interpreted_chain false p Hp) as (M & e & W & Hx & HM & He & Hc & Hw & Hint).
  exists M, e, W. split_and!; try done; try lia.
  unfold estimate_runtime.
  rewrite (float_of_int_finite _ (S754_finite false M e)); [|done..].
  cbn [mbind result_bind]. by rewrite Hint.
Qed.

Lemma estimate_runtime_negative (p : positive) :
  Zpos p < 2 ^ 1024 - 2 ^ 970 →
  estimate_runtime (Zneg p) true = Ok 10.
Proof.
  intros Hp.
  destruct (interpreted_chain true p Hp) as (M & e & W & Hx & HM & He & Hc & Hw & Hint).
  unfold estimate_runtime.
  rewrite (float_of_int_finite _ (S754_finite true M e)); [|done..].
  cbn [mbind result_bind]. rewrite Hint. cbn [mbind result_bind].
  pose proof (prod_desc_nonneg _ _ _ Hw).
  assert (0 ≤ W / 2 ^ 53) by (apply Z.div_pos; [lia | by apply pow2_pos]).
  f_equal. lia.
Qed.

Lemma interpreted_estimate_below_request (p : positive) (M : positive) (e W : Z) :
  2 ^ 52 ≤ Zpos M < 2 ^ 53 → -52 ≤ e →
  conv_desc p (Zpos M * 2 ^ (e + 53)) → prod_desc M e W →
  W / 2 ^ 53 ≤ Zpos p.
Proof.
  intros HM He Hc Hw.
  pose proof (conv_desc_bound _ _ Hc) as HV.
  pose proof (prod_desc_bound _ _ _ He HM Hw) as HW.
  pose proof (prod_desc_nonneg _ _ _ Hw) as HW0.
  apply Z.div_le_upper_bound; [by apply pow2_pos|].
  change (2 ^ 53) with 9007199254740992 in *.
  set (V := Zpos M * 2 ^ (e + 53)) in *.
  assert (HV' : 5854679515581646 * V ≤ 5854679515581646 * (Zpos p * 9007199254740993))
    by (apply Z.mul_le_mono_nonneg_l; lia).
  lia.
Qed.

(** Below [3 * 2^48] the rounded product stays on the right side of the
    next integer: its integer part is that of the exact 65 percent. *)
Lemma mul_0_65_integer_part (sx : bool) (p : positive) :
  Zpos p < 3 * 2 ^ 48 →
  ∃ M e,
    binary_round prec emax sx p 0 = S754_finite sx M e ∧
    int_of_float (float_mul (S754_finite sx M e) float_0_65)
    = Ok (if sx then - (Zpos p * 65 / 100) else Zpos p * 65 / 100).
Proof.
  intros Hp. change (3 * 2 ^ 48) with 844424930131968 in Hp.
  destruct (binary_round_small sx p) as (M & Hx & HMv & HM & Hd);
    [change (2 ^ 53) with 9007199254740992; lia|].
  pose proof (digits2_pos_bounds p) as [Hlo Hhi].
  set (d := Zpos (digits2_pos p)) in *.
  assert (Hd50 : d ≤ 50).
  { destruct (Z.le_gt_cases d 50) as [|Hgt]; [done|].
    assert (2 ^ 50 ≤ 2 ^ (d - 1)) by (apply Z.pow_le_mono_r; lia).
    change (2 ^ 50) with 1125899906842624 in *. lia. }
  destruct (float_mul_0_65 sx M (d - 53) HM ltac:(lia))
    as (Mp & ep & Hmul & Hep & Hprod).
  exists M, (d - 53). split; [done|].
  rewrite Hmul, int_of_float_scaled by lia.
  assert (Hgoal : Zpos Mp * 2 ^ (ep + 53) / 2 ^ 53 = Zpos p * 65 / 100);
    [|by rewrite Hgoal].
  destruct Hprod as (M1 & [[Hlow Hup] _] & HM1 & ->).
  pose proof (product_digits M HM) as HD.
  pose proof (digits2_pos_bounds (M * C065)) as [HPlo HPhi].
  set (Dp := Zpos (digits2_pos (M * C065))) in *.
  assert (HP : Zpos (M * C065) = Zpos M * 5854679515581645) by (unfold C065; lia).
  rewrite HP in *.
  set (S := 2 ^ (53 - d)) in *.
  set (N := 2 ^ (Dp - 53)) in *.
  set (q := Zpos p * 65 / 100).
  assert (Hq : 20 * q ≤ 13 * Zpos p ≤ 20 * q + 19).
  { unfold q. Z.div_mod_to_equations. lia. }
  set (t := 159 - d - Dp).
  assert (Ht : 3 ≤ t) by (unfold t; lia).
  pose proof (pow2_pos t ltac:(lia)) as Ht0.
  assert (HN : 0 < N) by (apply pow2_pos; lia).
  assert (HS : 0 < S) by (apply pow2_pos; lia).
  assert (HK : N * 2 ^ t = 2 ^ 53 * S).
  { unfold N, S. rewrite <- !pow2_split by lia. f_equal. unfold t. lia. }
  assert (Hkey : 4 * Zpos M + 10 * N < 2 ^ 53 * S).
  { rewrite HMv.
    destruct (Z.le_gt_cases d 48) as [Hd48|Hd48].
    - assert (32 ≤ S).
      { change 32 with (2 ^ 5). apply Z.pow_le_mono_r; lia. }
      assert (Zpos p < 2 ^ 48).
      { assert (2 ^ d ≤ 2 ^ 48) by (apply Z.pow_le_mono_r; lia). lia. }
      assert (N ≤ 2 ^ 53) by (apply Z.pow_le_mono_r; lia).
      assert (Zpos p * S ≤ 2 ^ 48 * S) by (apply Z.mul_le_mono_nonneg_r; lia).
      change (2 ^ 48) with 281474976710656 in *.
      change (2 ^ 53) with 9007199254740992 in *. lia.
    - destruct (Z.eq_dec d 49) as [Hd49|Hd49].
      + assert (S = 16) as -> by (unfold S; rewrite Hd49; done).
        assert (N ≤ 2 ^ 53) by (apply Z.pow_le_mono_r; lia).
        change (2 ^ 53) with 9007199254740992 in *. lia.
      + assert (d = 50) as Hd' by lia.
        assert (HS8 : S = 8) by (unfold S; rewrite Hd'; done).
        assert (Dp = 105) as HDp.
        { destruct (Z.eq_dec Dp 105) as [|HDne]; [done|]. exfalso.
          assert (HDp : Dp = 106) by lia. rewrite HDp, HMv, HS8 in HPlo.
          change (2 ^ (106 - 1)) with 40564819207303340847894502572032 in HPlo.
          lia. }
        assert (N = 2 ^ 52) as -> by (unfold N; rewrite HDp; done).
        rewrite HS8.
        change (2 ^ 52) with 4503599627370496.
        change (2 ^ 53) with 9007199254740992. lia. }
  assert (HqS : 13 * Zpos M ≤ 20 * (q * S) + 19 * S ∧ 20 * (q * S) ≤ 13 * Zpos M).
  { rewrite HMv.
    replace (13 * (Zpos p * S)) with (13 * Zpos p * S) by ring.
    replace (20 * (q * S) + 19 * S) with ((20 * q + 19) * S) by ring.
    replace (20 * (q * S)) with (20 * q * S) by ring.
    split; apply Z.mul_le_mono_nonneg_r; lia. }
  assert (HW : M1 * 2 ^ (d - 53 + Dp - 53) / 2 ^ 53 = M1 / 2 ^ t).
  { replace (2 ^ 53) with (2 ^ t * 2 ^ (d - 53 + Dp - 53)).
    2: { rewrite <- pow2_split by lia. f_equal. unfold t. lia. }
    rewrite Z.div_mul_cancel_r; [done|..]; apply Z.pow_nonzero; lia. }
  rewrite HW. symmetry.
  apply Z.div_unique with (r := M1 - q * 2 ^ t); [|lia]. left.
  change (2 ^ 53) with 9007199254740992 in *.
  split.
  - assert (q * 2 ^ t ≤ M1); [|lia].
    destruct (Z.le_gt_cases (q * 2 ^ t) M1) as [|Hgt]; [done|]. exfalso.
    assert (Hgt' : (M1 + 1) * N ≤ q * 2 ^ t * N)
      by (apply Z.mul_le_mono_nonneg_r; lia).
    replace (q * 2 ^ t * N) with (q * (N * 2 ^ t)) in Hgt' by ring.
    rewrite HK in Hgt'.
    replace (q * (9007199254740992 * S)) with (9007199254740992 * (q * S)) in Hgt' by ring.
    lia.
  - assert (M1 < (q + 1) * 2 ^ t); [|lia].
    destruct (Z.lt_ge_cases M1 ((q + 1) * 2 ^ t)) as [|Hge]; [done|]. exfalso.
    assert (Hge' : (q + 1) * 2 ^ t * N ≤ M1 * N)
      by (apply Z.mul_le_mono_nonneg_r; lia).
    replace ((q + 1) * 2 ^ t * N) with ((q + 1) * (N * 2 ^ t)) in Hge' by ring.
    rewrite HK in Hge'.
    replace ((q + 1) * (9007199254740992 * S))
      with (9007199254740992 * (q * S) + 9007199254740992 * S) in Hge' by ring.
    lia.
Qed.

Lemma estimate_runtime_interpreted (m : Z) :
  - (2 ^ 1024 - 2 ^ 970) < m < 3 * 2 ^ 48 →
  estimate_runtime m true = Ok (Z.max 10 (m * 65 / 100)).
Proof.
  intros Hm. destruct m as [|p|p]; [done| |].
  - destruct (mul_0_65_integer_part false p) as (M & e & Hx & Hint); [lia|].
    unfold estimate_runtime.
    rewrite (float_of_int_finite _ (S754_finite false M e)); [|done..].
    cbn [mbind result_bind]. by rewrite Hint.
  - rewrite estimate_runtime_negative by lia.
    assert (Zneg p * 65 / 100 < 0) by (apply Z.div_lt_upper_bound; lia).
    f_equal. lia.
Qed.

(** ** Runtime estimator *)

(** C2, as amended: without interpretation the estimate is the request
    itself; with interpretation it is the larger of 10 and the integer part
    of 65 percent of the request, for every request below [3 * 2^48] that
    converts to a float, which covers the 10 to 120 minutes a request may ask
    for; 35 minutes give 35 and 22, and 10 minutes give 10. *)
Theorem estimate_runtime_value (m : Z) (interpreted : bool) :
  interpreted = false ∨ - (2 ^ 1024 - 2 ^ 970) < m < 3 * 2 ^ 48 →
  estimate_runtime m interpreted
  = Ok (if interpreted then Z.max 10 (m * 65 / 100) else m) ∧
  estimate_runtime 35 false = Ok 35 ∧
  estimate_runtime 35 true = Ok 22 ∧
  estimate_runtime 10 true = Ok 10.
Proof.
  intros Hm. split; [|by vm_compute].
  destruct interpreted; [|done].
  destruct Hm as [|Hm]; [done|]. by apply estimate_runtime_interpreted.
Qed.

Lemma estimate_runtime_value_witness :
  (true = false ∨ - (2 ^ 1024 - 2 ^ 970) < 120 < 3 * 2 ^ 48) ∧
  estimate_runtime 120 true = Ok 78.
Proof.
  assert (Hm : true = false ∨ - (2 ^ 1024 - 2 ^ 970) < 120 < 3 * 2 ^ 48)
    by (right; by vm_compute).
  split; [exact Hm|]. by destruct (estimate_runtime_value 120 true Hm) as [-> _].
Defined.

(** C2, as stated, fails for a request of 844424930131983 minutes, 15 above
    [3 * 2^48]: the double nearest to the product is the next integer, one
    above the integer part of the exact product. *)
Lemma estimate_as_stated_counterexample :
  ¬ estimate_as_stated 844424930131983 true.
Proof. unfold estimate_as_stated. by vm_compute. Qed.

Example estimate_runtime_off_by_one :
  estimate_runtime 844424930131983 true = Ok 548876204585789 ∧
  844424930131983 * 65 / 100 = 548876204585788.
Proof. by vm_compute. Qed.

(** C10, as amended: for every request from 10 minutes on that converts to
    a float, that is below [2^1024 - 2^970], the interpreted estimate lies
    between 10 and the request, and a longer request never gets a shorter
    estimate. *)
Theorem interpreted_estimate_monotone (m m' : Z) :
  10 ≤ m → m ≤ m' → m' < 2 ^ 1024 - 2 ^ 970 →
  ∃ r r',
    estimate_runtime m true = Ok r ∧ estimate_runtime m' true = Ok r' ∧
    10 ≤ r ≤ m ∧ 10 ≤ r' ≤ m' ∧ r ≤ r'.
Proof.
  intros Hlow Hle Hhigh.
  destruct m as [|p|p]; [lia| |lia]. destruct m' as [|p'|p']; [lia| |lia].
  destruct (estimate_runtime_positive p) as (M & e & W & HM & He & Hc & Hw & ->); [lia|].
  destruct (estimate_runtime_positive p') as (M' & e' & W' & HM' & He' & Hc' & Hw' & ->); [lia|].
  eexists _, _. split; [done|]. split; [done|].
  pose proof (interpreted_estimate_below_request p M e W HM ltac:(lia) Hc Hw).
  pose proof (interpreted_estimate_below_request p' M' e' W' HM' ltac:(lia) Hc' Hw').
  assert (HWW : W ≤ W').
  { apply (prod_desc_mono M M' e e'); try done; try lia.
    by apply (conv_desc_mono p p'). }
  assert (W / 2 ^ 53 ≤ W' / 2 ^ 53) by (apply Z.div_le_mono; [by apply pow2_pos | done]).
  lia.
Qed.

Lemma interpreted_estimate_monotone_witness :
  ∃ r r',
    estimate_runtime 35 true = Ok r ∧ estimate_runtime 36 true = Ok r' ∧
    10 ≤ r ≤ 35 ∧ 10 ≤ r' ≤ 36 ∧ r ≤ r'.
Proof. apply (interpreted_estimate_monotone 35 36); by vm_compute. Defined.

(** C10, as stated, fails for a request of [2^1024 - 2^970] minutes, the
    first integer that rounds beyond the largest double: the estimator
    raises [OverflowError] instead of returning a value. *)
Lemma interpreted_estimate_bounded_counterexample :
  ¬ interpreted_estimate_bounded (2 ^ 1024 - 2 ^ 970).
Proof. intros (r & Hr & _). vm_compute in Hr. discriminate. Qed.

Example float_0_65_nearest :
  SFdiv prec emax (binary_normalize prec emax 65 0 false)
                  (binary_normalize prec emax 100 0 false) = float_0_65.
Proof. by vm_compute. Qed.

Example date_isoformat_pads :
  date_isoformat (mk_date 7 3 1) = "0007-03-01" ∧
  date_isoformat (mk_date 2025 12 15) = "2025-12-15".
Proof. by vm_compute. Qed.

(** * Further properties *)

(** ** Sample selector, continued *)

Section SelectSampleEdges.
Context `{!StrLower, !Catalogs}.

Lemma first_sample_member (test : Sample → bool) (samples : list Sample)
    (sample : Sample) :
  first_sample test samples = Some sample → sample ∈ samples.
Proof.
  induction samples as [|s samples IH]; simpl; [done|].
  destruct (test s).
  - intros [= ->]. apply list_elem_of_here.
  - intros Hfound. apply list_elem_of_further, IH, Hfound.
Qed.

(** The selector raises exactly when the catalog is empty, whatever the
    query: the final subscript raises [IndexError]. *)
Theorem select_sample_raises (topic passage : option string) (e : exn) :
  select_sample topic passage = Raise e ↔ ETCBC_SAMPLES = [] ∧ e = IndexError.
Proof.
  unfold select_sample. destruct ETCBC_SAMPLES as [|head rest] eqn:Hcatalog.
  - cbn [first_sample]. destruct (str_truthy _); split.
    all: first [by intros [= <-] | by intros [_ ->]].
  - split; [|by intros [? _]].
    destruct (first_sample (passage_test _) _); [done|].
    destruct (str_truthy _); [|done].
    by destruct (first_sample (topic_test _) _).
Qed.

(** A sample that is returned is an entry of the catalog. *)
Theorem select_sample_from_catalog (topic passage : option string)
    (sample : Sample) :
  select_sample topic passage = Ok sample → sample ∈ ETCBC_SAMPLES.
Proof.
  unfold select_sample.
  destruct (first_sample (passage_test _) ETCBC_SAMPLES) as [found|] eqn:Hpassage.
  { intros [= <-]. by eapply first_sample_member. }
  destruct (str_truthy (lower (or_empty topic))).
  - destruct (first_sample (topic_test _) ETCBC_SAMPLES) as [found|] eqn:Htopic.
    { intros [= <-]. by eapply first_sample_member. }
    destruct ETCBC_SAMPLES; [done|]. intros [= <-]. apply list_elem_of_here.
  - destruct ETCBC_SAMPLES; [done|]. intros [= <-]. apply list_elem_of_here.
Qed.
End SelectSampleEdges.

Lemma select_sample_raises_witness :
  @select_sample Fixtures.ascii_lower Scenario.no_catalogs
    (Some "blessing") (Some "Genesis") = Raise IndexError.
Proof.
  by apply (@select_sample_raises Fixtures.ascii_lower Scenario.no_catalogs).
Defined.

Lemma select_sample_from_catalog_witness :
  @select_sample Fixtures.ascii_lower Fixtures.catalogs (Some "courage") None
  = Ok Fixtures.esther ∧
  Fixtures.esther ∈ @ETCBC_SAMPLES Fixtures.catalogs.
Proof.
  assert (Hrun : @select_sample Fixtures.ascii_lower Fixtures.catalogs
                   (Some "courage") None = Ok Fixtures.esther) by by vm_compute.
  split; [exact Hrun|].
  exact (@select_sample_from_catalog Fixtures.ascii_lower Fixtures.catalogs
           _ _ _ Hrun).
Defined.

(** ** Loops that raise *)

Section ForEachRaises.
Context {A S : Type}.

(** A loop raises what the first failing turn raises, when the turns before
    it return. *)
Lemma for_each_raises (body : S → A → result S) (add : S → A → S)
    (before after : list A) (x : A) (e : exn) (s : S) :
  Forall (λ y, ∀ s, body s y = Ok (add s y)) before →
  (∀ s, body s x = Raise e) →
  for_each body (before ++ x :: after) s = Raise e.
Proof.
  intros Hbefore Hx. rewrite for_each_app.
  rewrite (for_each_contributions _ add) by done.
  simpl. by rewrite Hx.
Qed.

(** A loop that raises has a first failing turn, and the turns before it
    returned. *)
Lemma for_each_raises_inv (body : S → A → result S) (xs : list A) (s : S) (e : exn) :
  for_each body xs s = Raise e →
  ∃ before x after s',
    xs = before ++ x :: after ∧
    Forall (λ y, ∃ s1 s2, body s1 y = Ok s2) before ∧
    body s' x = Raise e.
Proof.
  revert s. induction xs as [|x xs IH]; intros s; cbn [for_each]; [done|].
  destruct (body s x) as [s1|e1] eqn:Hbody; cbn [mbind result_bind].
  - intros (before & y & after & s' & -> & Hbefore & Hy)%IH.
    exists (x :: before), y, after, s'. split_and!; [done| |done].
    apply List.Forall_cons; [by exists s, s1 | done].
  - intros [= <-]. exists [], x, xs, s. split_and!; [done | constructor | done].
Qed.
End ForEachRaises.

(** ** Congregation context resolver, continued *)

Section CongregationContextEdges.
Context `{!DateUtil, !Catalogs}.

Lemma event_body_returns_inv (target_date : datetime) (events events' : list Event)
    (item : SignificantDate) :
  event_body target_date events item = Ok events' → parse_failure_expected item.
Proof.
  unfold event_body, parse_failure_expected. intros Hbody e He.
  rewrite He in Hbody. destruct e; auto; discriminate.
Qed.

Lemma event_body_raises_inv (target_date : datetime) (events : list Event)
    (item : SignificantDate) (e : exn) :
  event_body target_date events item = Raise e →
  isoparse (sd_date item) = Raise e ∧ e ≠ ValueError ∧ e ≠ TypeError.
Proof.
  unfold event_body. destruct (isoparse (sd_date item)) as [parsed|e'].
  - by destruct (_ <=? 21).
  - destruct e'; intros [= <-]; done.
Qed.

(** Without a profile for the identifier and without a "default" profile the
    resolver still answers: a context without name, location, values or
    events. *)
Theorem congregation_context_no_profile (congregation_id : string)
    (target_date : datetime) :
  CONG_CALENDAR !! congregation_id = None →
  CONG_CALENDAR !! "default" = None →
  congregation_context congregation_id target_date
  = Ok {| cc_name := None; cc_location := None; cc_values := [];
          nearby_events := [] |}.
Proof.
  intros Hid Hdefault. unfold congregation_context, resolve_record.
  by rewrite Hid, Hdefault.
Qed.

(** Only [ValueError] and [TypeError] of the parser are caught.  The
    resolver raises exactly when the date of an entry makes the parser raise
    another exception while the entries before it parse or fail as expected,
    and it raises that exception, whatever the entries after it. *)
Theorem congregation_context_raises (congregation_id : string)
    (target_date : datetime) (e : exn) :
  congregation_context congregation_id target_date = Raise e ↔
  ∃ before item after,
    p_significant_dates (resolve_record congregation_id)
    = Some (before ++ item :: after) ∧
    Forall parse_failure_expected before ∧
    isoparse (sd_date item) = Raise e ∧ e ≠ ValueError ∧ e ≠ TypeError.
Proof.
  unfold congregation_context. split.
  - destruct (for_each _ _ _) as [events|e'] eqn:Hloop; [done|].
    intros [= ->].
    apply for_each_raises_inv in Hloop
      as (before & item & after & events & Hitems & Hbefore & Hitem).
    apply event_body_raises_inv in Hitem as (Hparse & Hv & Ht).
    exists before, item, after. split_and!; try done.
    + destruct (p_significant_dates _) as [items|]; [by rewrite <- Hitems|].
      by destruct before.
    + eapply Forall_impl; [exact Hbefore|].
      intros it (s1 & s2 & Hit). by eapply event_body_returns_inv.
  - intros (before & item & after & Hitems & Hbefore & Hitem & Hv & Ht).
    rewrite Hitems. cbn [default].
    rewrite (for_each_raises _ (λ events it, events ++ event_of target_date it)
               before after item e); [done| |].
    + eapply Forall_impl; [exact Hbefore|]. intros it Hit events.
      by apply event_body_adds.
    + intros events. unfold event_body. rewrite Hitem. by destruct e.
Qed.
End CongregationContextEdges.

Lemma congregation_context_no_profile_witness :
  @CONG_CALENDAR Scenario.no_catalogs !! "riverside" = None ∧
  @CONG_CALENDAR Scenario.no_catalogs !! "default" = None ∧
  @congregation_context Fixtures.iso_dates Scenario.no_catalogs "riverside"
    (Fixtures.midnight 2025 4 16)
  = Ok {| cc_name := None; cc_location := None; cc_values := [];
          nearby_events := [] |}.
Proof.
  split; [done|]. split; [done|].
  by apply (@congregation_context_no_profile Fixtures.iso_dates Scenario.no_catalogs).
Defined.

Lemma congregation_context_raises_witness :
  @congregation_context Scenario.overflowing_parser Scenario.overflowing_catalogs
    "anyone" (Fixtures.midnight 2025 4 16) = Raise OverflowError.
Proof.
  apply (@congregation_context_raises Scenario.overflowing_parser
           Scenario.overflowing_catalogs "anyone" (Fixtures.midnight 2025 4 16)
           OverflowError).
  exists [ {| sd_date := "never"; sd_description := "Skipped";
              sd_emphasis := None |} ],
         {| sd_date := "9999-12-31T24:00"; sd_description := "Far away";
            sd_emphasis := None |}, [].
  split_and!; try done.
  apply List.Forall_cons; [|apply List.Forall_nil].
  intros e He. vm_compute in He. injection He as <-. by left.
Defined.


(** ** Dates in ISO format *)

Lemma length_append (a b : string) :
  String.length (a +:+ b) = (String.length a + String.length b)%nat.
Proof.
  induction a as [|c a IH]; [done|].
  change (String c a +:+ b) with (String c (a +:+ b)).
  cbn [String.length]. by rewrite IH.
Qed.

Lemma length_zeros (n : nat) : String.length (zeros n) = n.
Proof.
  induction n as [|n IH]; [done|].
  cbn [zeros]. rewrite length_append, IH. done.
Qed.

Lemma length_zero_pad (width : nat) (s : string) :
  (String.length s ≤ width)%nat → String.length (zero_pad width s) = width.
Proof. intros Hs. unfold zero_pad. rewrite length_append, length_zeros. lia. Qed.

Lemma str_of_int_width (n : Z) :
  1 ≤ n ≤ 9999 →
  (String.length (str_of_int n) ≤ 4)%nat ∧
  (n ≤ 31 → (String.length (str_of_int n) ≤ 2)%nat).
Proof.
  intros Hn.
  assert (Hall : forallb (λ k, let len := String.length (str_of_int (Z.of_nat k)) in
                               (len <=? 4)%nat &&
                               ((31 <? k)%nat || (len <=? 2)%nat))
                         (seq 1 (Z.to_nat 9999)) = true) by (by vm_compute).
  rewrite forallb_forall in Hall.
  specialize (Hall (Z.to_nat n)). rewrite Z2Nat.id in Hall by lia.
  apply andb_prop in Hall as [Hfour Htwo]; [|apply in_seq; lia].
  apply Nat.leb_le in Hfour. split; [done|]. intros Hsmall.
  apply orb_prop in Htwo as [Hlarge|Htwo]; [apply Nat.ltb_lt in Hlarge; lia|].
  by apply Nat.leb_le in Htwo.
Qed.

Lemma days_in_month_bound (y m : Z) : 1 ≤ m ≤ 12 → days_in_month y m ≤ 31.
Proof.
  intros Hm. unfold days_in_month.
  assert (Hcases : m = 1 ∨ m = 2 ∨ m = 3 ∨ m = 4 ∨ m = 5 ∨ m = 6 ∨ m = 7 ∨
                   m = 8 ∨ m = 9 ∨ m = 10 ∨ m = 11 ∨ m = 12) by lia.
  destruct Hcases as [->|[->|[->|[->|[->|[->|[->|[->|[->|[->|[->| ->]]]]]]]]]]];
    destruct (is_leap y); by vm_compute.
Qed.

Lemma date_isoformat_shape (t : datetime) (y m d : Z) :
  datetime_new y m d = Ok t → iso_day (date_isoformat (datetime_date t)).
Proof.
  unfold datetime_new, check_date_fields, MINYEAR, MAXYEAR.
  destruct (_ && _) eqn:Hcheck; [|done]. intros [= <-].
  repeat (apply andb_prop in Hcheck as [Hcheck ?]).
  pose proof (days_in_month_bound y m ltac:(lia)).
  destruct (str_of_int_width y ltac:(lia)) as [Hy _].
  destruct (str_of_int_width m ltac:(lia)) as [_ Hm].
  destruct (str_of_int_width d ltac:(lia)) as [_ Hd].
  unfold date_isoformat, datetime_date. cbn [d_year d_month d_day year month day].
  eexists _, _, _. split; [reflexivity|].
  split_and!; apply length_zero_pad; [done | apply Hm | apply Hd]; lia.
Qed.
(** ** Festival matcher, continued *)

Lemma for_each_ext {A S} (body body' : S → A → result S) (xs : list A) (s : S) :
  (∀ s x, body s x = body' s x) → for_each body xs s = for_each body' xs s.
Proof.
  intros Hext. revert s. induction xs as [|x xs IH]; intros s; simpl; [done|].
  rewrite Hext. destruct (body' s x); simpl; [apply IH | done].
Qed.

Section FestivalMatcherEdges.
Context `{!ConvertDate}.

(** A festival date that was built is the midnight of its day. *)
Lemma convert_festival_midnight (year month day : Z) (festival_date : datetime) :
  convert_festival year month day = Ok festival_date →
  hour festival_date = 0 ∧ minute festival_date = 0 ∧
  second festival_date = 0 ∧ microsecond festival_date = 0.
Proof.
  unfold convert_festival.
  destruct (hebrew_to_gregorian year month day) as [[[gy gm] gd]|]; [|done].
  cbn [mbind result_bind]. unfold datetime_new.
  destruct (check_date_fields gy gm gd); [|done]. by intros [= <-].
Qed.

Lemma at_midnight_in_range (t : datetime) : time_in_range (at_midnight t).
Proof. unfold time_in_range, at_midnight. simpl. lia. Qed.

Lemma festival_body_at_midnight (gregorian_date : datetime) (year : Z)
    (matches : list FestivalMatch) (entry : Z * Z * string * string) :
  time_in_range gregorian_date →
  festival_body gregorian_date year matches entry
  = festival_body (at_midnight gregorian_date) year matches entry.
Proof.
  intros Htime. destruct entry as [[[month day] name] emphasis].
  unfold festival_body.
  destruct (convert_festival year month day) as [festival_date|] eqn:Hconv; [|done].
  destruct (convert_festival_midnight _ _ _ _ Hconv) as (Hh & Hm & Hs & Hus).
  rewrite !datetime_sub_days by (done || apply at_midnight_in_range). done.
Qed.

(** The time of day of the reference plays no part: the matches are those of
    the start of its day. *)
Theorem hebrew_festival_matches_time_of_day (gregorian_date : datetime) :
  time_in_range gregorian_date →
  hebrew_festival_matches gregorian_date
  = hebrew_festival_matches (at_midnight gregorian_date).
Proof.
  intros Htime. unfold hebrew_festival_matches. cbn [at_midnight year month day].
  destruct (hebrew_from_gregorian _ _ _) as [[[hy hm] hd]|]; [|done].
  cbn [mbind result_bind]. f_equal.
  apply for_each_ext. intros matches offset. unfold offset_body.
  apply for_each_ext. intros ms entry. by apply festival_body_at_midnight.
Qed.

Lemma match_of_from_catalog (gregorian_date : datetime)
    (pairs : list (Z * (Z * Z * string * string))) :
  Forall (λ pair, pair.2 ∈ FESTIVALS) pairs →
  (length (flat_map (match_of gregorian_date) pairs) ≤ length pairs)%nat ∧
  Forall (λ m, (∃ month day, (month, day, festival m, emphasis m) ∈ FESTIVALS) ∧
               iso_day (festival_date m))
         (flat_map (match_of gregorian_date) pairs).
Proof.
  induction 1 as [|[year [[[month day] name] emph]] pairs Hpair _ [IHlen IHall]];
    cbn [flat_map]; [split; [done | constructor]|].
  rewrite length_app. unfold match_of at 1 3.
  destruct (convert_festival year month day) as [festival_date|] eqn:Hconv;
    [|simpl; split; [lia | done]].
  destruct (_ <=? 21); simpl; [|split; [lia | done]].
  split; [lia|]. apply List.Forall_cons; [|done]. split; [by exists month, day|].
  unfold convert_festival in Hconv.
  destruct (hebrew_to_gregorian year month day) as [[[gy gm] gd]|]; [|done].
  by apply date_isoformat_shape in Hconv.
Qed.

Lemma sweep_from_catalog (hy : Z) :
  length (sweep hy) = 24%nat ∧ Forall (λ pair, pair.2 ∈ FESTIVALS) (sweep hy).
Proof.
  split; [done|]. unfold sweep. cbn [flat_map]. rewrite app_nil_r.
  rewrite !Forall_app. unfold year_pairs.
  split_and!; apply List.Forall_map; by apply Forall_forall.
Qed.

(** At most 24 matches are returned, three years of eight festivals; each
    carries the name and the emphasis of a festival of the catalog, and its
    date is written as [YYYY-MM-DD]. *)
Theorem hebrew_festival_matches_from_catalog (gregorian_date : datetime)
    (out : list FestivalMatch) :
  hebrew_festival_matches gregorian_date = Ok out →
  (length out ≤ 24)%nat ∧
  Forall (λ m, (∃ month day, (month, day, festival m, emphasis m) ∈ FESTIVALS) ∧
               iso_day (festival_date m)) out.
Proof.
  unfold hebrew_festival_matches. intros Hrun.
  destruct (hebrew_from_gregorian _ _ _) as [[[hy hm] hd]|]; [|done].
  cbn [mbind result_bind] in Hrun.
  destruct (for_each _ _ _) as [matches|] eqn:Hloop; [|done].
  injection Hrun as <-. apply sweep_returns in Hloop as ->.
  destruct (sweep_from_catalog hy) as [Hlen Hall].
  destruct (match_of_from_catalog gregorian_date (sweep hy) Hall) as [Hle Hcat].
  rewrite sorted_Permutation. split; [lia | done].
Qed.

End FestivalMatcherEdges.

Section FestivalMatcherZoned.
Context `{!ConvertDate}.

Lemma zoned_festival_body_naive (gregorian_date : zoned_datetime) (year : Z)
    (matches : list FestivalMatch) (entry : Z * Z * string * string) :
  tzinfo gregorian_date = None →
  Zoned.festival_body gregorian_date year matches entry
  = festival_body (local gregorian_date) year matches entry.
Proof.
  intros Hnaive. destruct entry as [[[month day] name] emph].
  unfold Zoned.festival_body, festival_body, zoned_sub. rewrite Hnaive.
  by destruct (convert_festival year month day).
Qed.

Lemma zoned_matches_naive (gregorian_date : zoned_datetime) :
  tzinfo gregorian_date = None →
  Zoned.hebrew_festival_matches gregorian_date
  = hebrew_festival_matches (local gregorian_date).
Proof.
  intros Hnaive. unfold Zoned.hebrew_festival_matches, hebrew_festival_matches.
  destruct (hebrew_from_gregorian _ _ _) as [[[hy hm] hd]|]; [|done].
  cbn [mbind result_bind]. f_equal.
  apply for_each_ext. intros matches offset.
  unfold Zoned.offset_body, offset_body.
  apply for_each_ext. intros ms entry. by apply zoned_festival_body_naive.
Qed.

Lemma zoned_year_loop_pairs (gregorian_date : zoned_datetime) (year : Z)
    (entries : list (Z * Z * string * string)) (matches : list FestivalMatch) :
  for_each (Zoned.festival_body gregorian_date year) entries matches
  = for_each (Zoned.pair_body gregorian_date)
             (map (λ entry, (year, entry)) entries) matches.
Proof.
  revert matches. induction entries as [|entry entries IH]; intros matches;
    cbn [for_each map]; [done|].
  change (Zoned.pair_body gregorian_date matches (year, entry))
    with (Zoned.festival_body gregorian_date year matches entry).
  destruct (Zoned.festival_body gregorian_date year matches entry);
    cbn [mbind result_bind]; [apply IH | done].
Qed.

Lemma zoned_sweep_loop_pairs (gregorian_date : zoned_datetime) (hy : Z)
    (offsets : list Z) (matches : list FestivalMatch) :
  for_each (Zoned.offset_body gregorian_date hy) offsets matches
  = for_each (Zoned.pair_body gregorian_date)
             (flat_map (λ offset, year_pairs (hy + offset)) offsets) matches.
Proof.
  revert matches. induction offsets as [|offset offsets IH]; intros matches;
    cbn [for_each flat_map]; [done|].
  rewrite for_each_app.
  change (Zoned.offset_body gregorian_date hy matches offset)
    with (for_each (Zoned.festival_body gregorian_date (hy + offset))
                   FESTIVALS matches).
  rewrite zoned_year_loop_pairs.
  fold (year_pairs (hy + offset)).
  destruct (for_each (Zoned.pair_body gregorian_date) (year_pairs (hy + offset))
                     matches);
    cbn [mbind result_bind]; [apply IH | done].
Qed.

Lemma zoned_turn_returns (gregorian_date : zoned_datetime)
    (matches : list FestivalMatch) (pair : Z * (Z * Z * string * string)) :
  turn_returns gregorian_date pair ↔
  ∃ matches', Zoned.pair_body gregorian_date matches pair = Ok matches'.
Proof.
  destruct pair as [year [[[month day] name] emph]].
  unfold turn_returns, conversion_failure_expected, pair_converts,
    Zoned.pair_body, Zoned.festival_body, zoned_sub.
  cbn [fst snd].
  destruct (convert_festival year month day) as [festival_date|e0];
    cbn [is_ok].
  - destruct (tzinfo gregorian_date) as [offset|]; cbn [mbind result_bind].
    + split; [|by intros [? ?]].
      intros [_ Haware]. by discriminate Haware.
    + split; [|intros _; split; [done | by intros [? ?]]].
      intros _. destruct (_ <=? 21); by eexists.
  - split.
    + intros [Hexpected _]. rewrite (Hexpected e0 eq_refl). by eexists.
    + intros [matches' Hbody]. split; [|done].
      intros e [= <-]. by destruct e0.
Qed.

Lemma zoned_turn_raises (gregorian_date : zoned_datetime)
    (matches : list FestivalMatch) (pair : Z * (Z * Z * string * string))
    (e : exn) :
  turn_raises gregorian_date pair e ↔
  Zoned.pair_body gregorian_date matches pair = Raise e.
Proof.
  destruct pair as [year [[[month day] name] emph]].
  unfold turn_raises, Zoned.pair_body, Zoned.festival_body, zoned_sub.
  cbn [fst snd].
  destruct (convert_festival year month day) as [festival_date|e0];
    cbn [is_ok].
  - destruct (tzinfo gregorian_date) as [offset|]; cbn [mbind result_bind].
    + split.
      * intros [[? _]|(_ & _ & ->)]; done.
      * intros [= <-]. right. split_and!; [done | by eexists | done].
    + split.
      * intros [[? _]|(_ & [? ?] & _)]; done.
      * by destruct (_ <=? 21).
  - split.
    + intros [[[= ->] He]|[? _]]; [|done]. by destruct e.
    + destruct e0; intros [= <-]; by left.
Qed.

Lemma zoned_turn_aware (gregorian_date : zoned_datetime)
    (matches matches' : list FestivalMatch)
    (pair : Z * (Z * Z * string * string)) :
  is_Some (tzinfo gregorian_date) →
  Zoned.pair_body gregorian_date matches pair = Ok matches' →
  matches' = matches.
Proof.
  intros [offset Haware]. destruct pair as [year [[[month day] name] emph]].
  unfold Zoned.pair_body, Zoned.festival_body, zoned_sub. cbn [fst snd].
  rewrite Haware.
  destruct (convert_festival year month day) as [festival_date|[]]; try done.
  by intros [= <-].
Qed.

(** The matcher on any reference date.  On a naive one it is the matcher
    studied so far.  It raises exactly when the conversion of the reference
    date raises, which stands outside the [try], or when a turn of the sweep
    raises while the turns before it return: a turn raises what the
    conversion of its festival raises, [ValueError] apart, and it raises the
    [TypeError] of the subtraction when the festival converts and the
    reference date is aware.  So an aware reference date gives no match: a
    result can only be the empty list. *)
Theorem hebrew_festival_matches_raises (gregorian_date : zoned_datetime) (e : exn) :
  (tzinfo gregorian_date = None →
   Zoned.hebrew_festival_matches gregorian_date
   = hebrew_festival_matches (local gregorian_date)) ∧
  (Zoned.hebrew_festival_matches gregorian_date = Raise e ↔
   hebrew_from_gregorian (year (local gregorian_date))
     (month (local gregorian_date)) (day (local gregorian_date)) = Raise e ∨
   ∃ hy hm hd before pair after,
     hebrew_from_gregorian (year (local gregorian_date))
       (month (local gregorian_date)) (day (local gregorian_date))
     = Ok (hy, hm, hd) ∧
     sweep hy = before ++ pair :: after ∧
     Forall (turn_returns gregorian_date) before ∧
     turn_raises gregorian_date pair e) ∧
  (is_Some (tzinfo gregorian_date) →
   ∀ out, Zoned.hebrew_festival_matches gregorian_date = Ok out → out = []).
Proof.
  split; [apply zoned_matches_naive|].
  unfold Zoned.hebrew_festival_matches.
  destruct (hebrew_from_gregorian _ _ _) as [[[hy hm] hd]|e0] eqn:Hfrom;
    cbn [mbind result_bind].
  - rewrite zoned_sweep_loop_pairs. fold (sweep hy). split; [split|].
    + destruct (for_each _ _ _) as [matches|e'] eqn:Hloop; [done|].
      intros [= ->]. right.
      apply for_each_raises_inv in Hloop
        as (before & pair & after & matches & Hsweep & Hbefore & Hpair).
      exists hy, hm, hd, before, pair, after. split_and!; try done.
      * eapply Forall_impl; [exact Hbefore|].
        intros p (s1 & s2 & Hp).
        apply (proj2 (zoned_turn_returns gregorian_date s1 p)). by exists s2.
      * by apply (proj2 (zoned_turn_raises gregorian_date matches pair e)).
    + intros [Hraise|(hy' & hm' & hd' & before & pair & after & [= <- <- <-] &
                      Hsweep & Hbefore & Hpair)]; [done|].
      rewrite Hsweep.
      rewrite (for_each_raises _
                 (λ ms p, match Zoned.pair_body gregorian_date ms p with
                          | Ok ms' => ms'
                          | Raise _ => ms
                          end)
                 before after _ e); [done| |].
      * eapply Forall_impl; [exact Hbefore|].
        intros p Hp ms.
        destruct (proj1 (zoned_turn_returns gregorian_date ms p) Hp) as [ms' Hms].
        by rewrite Hms.
      * intros ms. by apply (proj1 (zoned_turn_raises gregorian_date ms pair e)).
    + intros Haware out.
      destruct (for_each _ _ _) as [matches|] eqn:Hloop; [|done].
      intros [= <-].
      apply (for_each_returns _ (λ ms _, ms)) in Hloop.
      * rewrite Hloop. clear Hloop.
        by induction (sweep hy) as [|p pairs IH]; [|cbn [fold_left]].
      * intros ms p ms1 Hp. by apply (zoned_turn_aware _ _ _ _ Haware Hp).
  - split; [|done]. split; [intros [= ->]; by left|].
    intros [[= ->]|(hy & hm & hd & _ & _ & _ & Hok & _)]; done.
Qed.
End FestivalMatcherZoned.

Lemma hebrew_festival_matches_time_of_day_witness :
  @hebrew_festival_matches Fixtures.table_calendar (mk_datetime 2025 4 16 23 59 59 999999)
  = @hebrew_festival_matches Fixtures.table_calendar (Fixtures.midnight 2025 4 16).
Proof.
  apply (@hebrew_festival_matches_time_of_day Fixtures.table_calendar
           (mk_datetime 2025 4 16 23 59 59 999999)).
  unfold time_in_range. simpl. lia.
Defined.

Lemma hebrew_festival_matches_from_catalog_witness :
  ∃ out,
    @hebrew_festival_matches Fixtures.table_calendar
      (Fixtures.midnight 2025 4 16) = Ok out ∧
    map festival_date out = ["2025-04-13"; "2025-04-19"] ∧
    (length out ≤ 24)%nat ∧
    Forall (λ m, (∃ month day, (month, day, festival m, emphasis m) ∈ FESTIVALS) ∧
                 iso_day (festival_date m)) out.
Proof.
  destruct (@hebrew_festival_matches Fixtures.table_calendar
              (Fixtures.midnight 2025 4 16)) as [out|e] eqn:Hrun;
    [|vm_compute in Hrun; discriminate].
  exists out. split; [done|].
  split; [vm_compute in Hrun; by injection Hrun as <-|].
  exact (@hebrew_festival_matches_from_catalog Fixtures.table_calendar _ _ Hrun).
Defined.

Lemma hebrew_festival_matches_raises_witness :
  @Zoned.hebrew_festival_matches Scenario.failing_calendar
    (mk_zoned (Fixtures.midnight 2025 4 16) None) = Raise OverflowError ∧
  @Zoned.hebrew_festival_matches Scenario.surprising_calendar
    (mk_zoned (mk_datetime 2025 10 1 13 30 0 0) None) = Raise KeyError ∧
  @Zoned.hebrew_festival_matches Fixtures.table_calendar
    (mk_zoned (mk_datetime 2025 4 16 9 0 0 0) (Some 28800)) = Raise TypeError.
Proof.
  split_and!.
  - apply (@hebrew_festival_matches_raises Scenario.failing_calendar
             (mk_zoned (Fixtures.midnight 2025 4 16) None) OverflowError).
    by left.
  - apply (@hebrew_festival_matches_raises Scenario.surprising_calendar
             (mk_zoned (mk_datetime 2025 10 1 13 30 0 0) None) KeyError).
    right.
    exists 5786, 0, 0, (take 12 (sweep 5786)),
           (5786, (7, 10, "Yom Kippur", "Centers on atonement and God's mercy.")),
           (drop 13 (sweep 5786)).
    split_and!; [done | done | | by left].
    repeat (apply List.Forall_cons;
            [split;
             [intros e He; vm_compute in He;
              first [discriminate He | by injection He as <-]
             |by intros [? ?]] |]).
    apply List.Forall_nil.
  - apply (@hebrew_festival_matches_raises Fixtures.table_calendar
             (mk_zoned (mk_datetime 2025 4 16 9 0 0 0) (Some 28800)) TypeError).
    right.
    exists 5785, 0, 0, (take 8 (sweep 5785)),
           (5785, (1, 15, "Passover (Pesach)",
                   "Celebrates redemption from Egypt and anticipates ultimate deliverance.")),
           (drop 9 (sweep 5785)).
    split_and!; [done | done | |right; split_and!; [done | by eexists | done]].
    repeat (apply List.Forall_cons;
            [split;
             [intros e He; vm_compute in He;
              first [discriminate He | by injection He as <-]
             |intros _; by vm_compute] |]).
    apply List.Forall_nil.
Defined.

(** ** Introduction *)

Lemma list_ascii_of_string_append (a b : string) :
  String.list_ascii_of_string (a +:+ b)
  = String.list_ascii_of_string a ++ String.list_ascii_of_string b.
Proof.
  induction a as [|c a IH]; [done|].
  change (String c a +:+ b) with (String c (a +:+ b)).
  cbn [String.list_ascii_of_string app]. by rewrite IH.
Qed.

Lemma is_space2_full_stop (b : Ascii.ascii) : is_space2 b (byte 46) = false.
Proof.
  unfold is_space2. change (Ascii.nat_of_ascii (byte 46)) with 46%nat.
  by destruct (Ascii.nat_of_ascii b =? 194)%nat.
Qed.

Lemma is_space3_full_stop (b3 b2 : Ascii.ascii) : is_space3 b3 b2 (byte 46) = false.
Proof.
  unfold is_space3. change (Ascii.nat_of_ascii (byte 46)) with 46%nat.
  cbv zeta.
  repeat match goal with
         | |- context [(Ascii.nat_of_ascii ?b =? ?k)%nat] =>
             is_var b; destruct (Ascii.nat_of_ascii b =? k)%nat
         end; reflexivity.
Qed.

(** Nothing is stripped from a text that starts with the letter I and ends
    with a full stop. *)
Lemma strip_sentence (s : string) (rest mid : list Ascii.ascii) :
  String.list_ascii_of_string s = byte 73 :: rest →
  String.list_ascii_of_string s = mid ++ [byte 46] →
  strip s = s.
Proof.
  intros Hfirst Hlast. unfold strip.
  assert (Hleft : lstrip_bytes (String.list_ascii_of_string s)
                  = String.list_ascii_of_string s).
  { rewrite Hfirst. by destruct rest as [|b2 [|b3 rest']]. }
  rewrite Hleft.
  assert (Hright : rstrip_reversed (rev (String.list_ascii_of_string s))
                   = rev (String.list_ascii_of_string s)).
  { rewrite Hlast, rev_app_distr. cbn [rev app].
    destruct (rev mid) as [|b2 [|b3 rest']]; cbn [rstrip_reversed];
      change (is_ascii_space (byte 46)) with false; cbv iota;
      rewrite ?is_space2_full_stop, ?is_space3_full_stop; reflexivity. }
  rewrite Hright, rev_involutive. apply String.string_of_list_ascii_of_string.
Qed.

Section IntroductionFacts.
Context `{!StrLower}.

Lemma ends_with_stop_append (a b : string) :
  (∃ mid, String.list_ascii_of_string b = mid ++ [byte 46]) →
  ∃ mid, String.list_ascii_of_string (a +:+ b) = mid ++ [byte 46].
Proof.
  intros [mid Hmid]. exists (String.list_ascii_of_string a ++ mid).
  by rewrite list_ascii_of_string_append, Hmid, app_assoc.
Qed.

Lemma introduction_text_sentence (sample : Sample) (audience occasion : option string)
    (festival_info : list FestivalMatch) (congregation_info : CongregationContext)
    (text : string) :
  introduction_text sample audience occasion festival_info congregation_info
  = Returns text →
  ∃ line tail,
    text = hook_of sample +:+ line +:+ tail ∧
    line = match festival_info with
           | nearest :: _ =>
               " We gather with " +:+ festival nearest +:+ " approaching (" +:+
               festival_date nearest +:+ "), a season inviting " +:+
               lower (emphasis nearest) +:+ "."
           | [] => ""
           end ∧
    ∃ mid, String.list_ascii_of_string tail = mid ++ [byte 46].
Proof.
  unfold introduction_text. intros Hrun.
  destruct (match nearby_events congregation_info with
            | [] => Returns ""
            | first :: _ => _
            end) as [congregation_line|] eqn:Hline; [|done].
  cbn [mbind outcome_bind] in Hrun. injection Hrun as <-.
  eexists _, _. split; [reflexivity|]. split; [reflexivity|].
  do 3 apply ends_with_stop_append.
  destruct (str_truthy (or_empty occasion)).
  - do 3 apply ends_with_stop_append.
    by exists (String.list_ascii_of_string " we are called to listen afresh").
  - by exists (String.list_ascii_of_string
                 "God's word speaks with precision and promise").
Qed.

Lemma introduction_text_unstripped (sample : Sample)
    (audience occasion : option string) (festival_info : list FestivalMatch)
    (congregation_info : CongregationContext) (text : string) :
  introduction_text sample audience occasion festival_info congregation_info
  = Returns text →
  strip text = text.
Proof.
  intros Hrun.
  destruct (introduction_text_sentence _ _ _ _ _ _ Hrun)
    as (line & tail & -> & _ & Htail).
  destruct (ends_with_stop_append (hook_of sample)  _
              (ends_with_stop_append line _ Htail)) as [mid Hmid].
  eapply strip_sentence; [|exact Hmid].
  unfold hook_of. rewrite list_ascii_of_string_append. reflexivity.
Qed.

Lemma build_introduction_text (sample : Sample) (audience occasion : option string)
    (festival_info : list FestivalMatch) (congregation_info : CongregationContext) :
  build_introduction sample audience occasion festival_info congregation_info
  = introduction_text sample audience occasion festival_info congregation_info.
Proof.
  unfold build_introduction.
  destruct (introduction_text _ _ _ _ _) as [text|f] eqn:Hrun; [|done].
  cbn [mbind outcome_bind]. by rewrite (introduction_text_unstripped _ _ _ _ _ _ Hrun).
Qed.

Lemma introduction_text_outcome (sample : Sample) (audience occasion : option string)
    (festival_info : list FestivalMatch) (congregation_info : CongregationContext) :
  match introduction_text sample audience occasion festival_info congregation_info with
  | Returns text => ¬ nearest_event_without_emphasis congregation_info
  | Fails f => f = AttributeError ∧ nearest_event_without_emphasis congregation_info
  end.
Proof.
  unfold introduction_text, nearest_event_without_emphasis.
  destruct (nearby_events congregation_info) as [|first rest].
  - cbn [mbind outcome_bind]. by intros (? & ? & ? & ?).
  - destruct (ev_emphasis first) as [event_emphasis|] eqn:Hemph.
    + cbn [mbind outcome_bind]. intros (first' & rest' & [= <- <-] & Hnone).
      congruence.
    + cbn [mbind outcome_bind]. split; [done|]. by exists first, rest.
Qed.

(** The call [.strip()] of the introduction removes nothing, as the text
    starts with a letter and ends with a full stop.  The function raises
    exactly when there is a nearby congregation event and the nearest has no
    emphasis, and then it is an [AttributeError]; otherwise the text starts
    with the opening sentence. *)
Theorem build_introduction_outcome (sample : Sample)
    (audience occasion : option string) (festival_info : list FestivalMatch)
    (congregation_info : CongregationContext) :
  build_introduction sample audience occasion festival_info congregation_info
  = introduction_text sample audience occasion festival_info congregation_info ∧
  match build_introduction sample audience occasion festival_info
                           congregation_info with
  | Returns text =>
      ¬ nearest_event_without_emphasis congregation_info ∧
      ∃ rest, text = hook_of sample +:+ rest
  | Fails f => f = AttributeError ∧ nearest_event_without_emphasis congregation_info
  end.
Proof.
  split; [apply build_introduction_text|]. rewrite build_introduction_text.
  pose proof (introduction_text_outcome sample audience occasion festival_info
                congregation_info) as Hout.
  destruct (introduction_text _ _ _ _ _) as [text|f] eqn:Hrun; [|done].
  split; [done|].
  destruct (introduction_text_sentence _ _ _ _ _ _ Hrun) as (line & tail & -> & _).
  by eexists.
Qed.
End IntroductionFacts.

Section IntroductionOfMatches.
Context `{!StrLower, !ConvertDate}.

(** The festival that the introduction names is the nearest of the matches:
    no other match is fewer days from the reference date, and the text
    carries its name, its civil date and its emphasis in lower case. *)
Theorem introduction_names_nearest_festival (gregorian_date : datetime)
    (sample : Sample) (audience occasion : option string)
    (congregation_info : CongregationContext)
    (nearest : FestivalMatch) (others : list FestivalMatch) (text : string) :
  hebrew_festival_matches gregorian_date = Ok (nearest :: others) →
  build_introduction sample audience occasion (nearest :: others) congregation_info
  = Returns text →
  Forall (λ m, days_apart nearest ≤ days_apart m) others ∧
  substring_of (festival nearest) text ∧
  substring_of (festival_date nearest) text ∧
  substring_of (lower (emphasis nearest)) text.
Proof.
  intros Hmatches Hintro. split.
  - unfold hebrew_festival_matches in Hmatches.
    destruct (hebrew_from_gregorian _ _ _) as [[[hy hm] hd]|]; [|done].
    cbn [mbind result_bind] in Hmatches.
    destruct (for_each _ _ _) as [matches|]; [|done].
    injection Hmatches as Hsorted.
    pose proof (sorted_StronglySorted days_apart matches) as Hstrong.
    rewrite Hsorted in Hstrong. by apply StronglySorted_inv in Hstrong as [_ Hhead].
  - rewrite build_introduction_text in Hintro.
    destruct (introduction_text_sentence _ _ _ _ _ _ Hintro)
      as (line & tail & -> & -> & _).
    split_and!.
    + exists (hook_of sample +:+ " We gather with "). eexists.
      rewrite !append_assoc. reflexivity.
    + exists (hook_of sample +:+ " We gather with " +:+ festival nearest +:+
              " approaching ("). eexists.
      rewrite !append_assoc. reflexivity.
    + exists (hook_of sample +:+ " We gather with " +:+ festival nearest +:+
              " approaching (" +:+ festival_date nearest +:+
              "), a season inviting "). eexists.
      rewrite !append_assoc. reflexivity.
Qed.
End IntroductionOfMatches.

Lemma introduction_names_nearest_festival_witness :
  ∃ nearest others text,
    @hebrew_festival_matches Fixtures.table_calendar (Fixtures.midnight 2025 4 16)
    = Ok (nearest :: others) ∧
    @build_introduction Fixtures.ascii_lower Fixtures.genesis (Some "youth") None
      (nearest :: others)
      {| cc_name := None; cc_location := None; cc_values := []; nearby_events := [] |}
    = Returns text ∧
    festival nearest = "Passover (Pesach)" ∧
    Forall (λ m, days_apart nearest ≤ days_apart m) others ∧
    substring_of (festival nearest) text ∧
    substring_of (festival_date nearest) text ∧
    substring_of (@lower Fixtures.ascii_lower (emphasis nearest)) text.
Proof.
  destruct (@hebrew_festival_matches Fixtures.table_calendar
              (Fixtures.midnight 2025 4 16)) as [[|nearest others]|e] eqn:Hrun;
    [vm_compute in Hrun; discriminate | | vm_compute in Hrun; discriminate].
  pose proof Hrun as Hval. vm_compute in Hval. injection Hval as <- <-.
  lazymatch type of Hrun with
  | _ = Ok ?matches =>
      destruct (@build_introduction Fixtures.ascii_lower Fixtures.genesis
                  (Some "youth") None matches
                  {| cc_name := None; cc_location := None; cc_values := [];
                     nearby_events := [] |}) as [text|f] eqn:Hintro;
        [|vm_compute in Hintro; discriminate]
  end.
  eexists _, _, text. split; [reflexivity|]. split; [exact Hintro|].
  split; [reflexivity|].
  exact (@introduction_names_nearest_festival Fixtures.ascii_lower
           Fixtures.table_calendar _ _ _ _ _ _ _ _ Hrun Hintro).
Defined.

(** ** Slide palette *)

(** A colour is found for every index, negative ones included: the remainder
    of Python's [%] by a positive length is never negative.  The colours
    repeat with period four. *)
Theorem make_slide_palette_cycles (index : Z) :
  ∃ color,
    make_slide_palette index = Ok color ∧ color ∈ COLOR_PALETTE ∧
    make_slide_palette (index + 4) = Ok color ∧
    (0 ≤ index < 4 → COLOR_PALETTE !! Z.to_nat index = Some color).
Proof.
  unfold make_slide_palette.
  change (Z.of_nat (length COLOR_PALETTE)) with 4.
  replace ((index + 4) mod 4) with (index mod 4)
    by (rewrite <- (Z_mod_plus_full index 1 4); f_equal; lia).
  assert (Hcases : index mod 4 = 0 ∨ index mod 4 = 1 ∨ index mod 4 = 2 ∨
                   index mod 4 = 3)
    by (pose proof (Z.mod_pos_bound index 4); lia).
  assert (Hsmall : 0 ≤ index < 4 → index mod 4 = index)
    by (intros ?; apply Z.mod_small; lia).
  destruct Hcases as [Hr|[Hr|[Hr|Hr]]]; rewrite Hr; eexists;
    (split; [reflexivity|]); (split; [set_solver|]); (split; [reflexivity|]);
    intros Hrange; rewrite <- (Hsmall Hrange), Hr; reflexivity.
Qed.

(** ** Code search *)

Lemma slice_to_length {A} (limit : Z) (xs : list A) :
  0 ≤ limit → (length (slice_to limit xs) ≤ Z.to_nat limit)%nat.
Proof.
  intros Hlimit. unfold slice_to.
  destruct (0 <=? limit) eqn:Hle; [|lia]. rewrite length_take. lia.
Qed.

Lemma slice_to_nonempty {A} (limit : Z) (xs : list A) :
  1 ≤ limit → xs ≠ [] → slice_to limit xs ≠ [].
Proof.
  intros Hlimit Hxs. unfold slice_to.
  destruct (0 <=? limit) eqn:Hle; [|lia].
  destruct xs as [|x xs]; [done|].
  destruct (Z.to_nat limit) as [|n] eqn:Hn; [lia | done].
Qed.

Section SearchEtcbcFacts.
Context `{!StrLower, !Catalogs, !Httpx}.

Lemma search_remote_bounded (query : string) (limit : Z) (items : list SourceItem) :
  0 ≤ limit → search_remote query limit = Ok (Some items) →
  (0 < length items ≤ Z.to_nat limit)%nat.
Proof.
  intros Hlimit. unfold search_remote.
  destruct (client_get _ _) as [|status_code json]; [done|].
  destruct (status_code =? 200); [|done].
  destruct json as [data|e]; [|done]. cbn [mbind result_bind].
  pose proof (slice_to_length limit (default [] data) Hlimit) as Hlen.
  rewrite <- (length_map remote_source) in Hlen.
  destruct (map remote_source _) as [|item rest]; [done|].
  intros [= <-]. simpl in *. lia.
Qed.

(** With a limit that is not negative, the search returns at most [limit]
    entries, from GitHub or from the local catalog. *)
Theorem search_etcbc_bounded (query : string) (limit : Z) (items : list SourceItem) :
  0 ≤ limit → search_etcbc query limit = Ok items →
  (length items ≤ Z.to_nat limit)%nat.
Proof.
  intros Hlimit. unfold search_etcbc.
  destruct (search_remote query limit) as [[found|]|e] eqn:Hremote; [| |done];
    cbn [mbind result_bind]; intros [= <-].
  - by apply (search_remote_bounded _ _ _ Hlimit) in Hremote as [_ ?].
  - by apply slice_to_length.
Qed.

(** With a positive limit and a catalog that is not empty, a search that
    returns never returns the empty list: an empty answer of GitHub is
    replaced by the local catalog. *)
Theorem search_etcbc_never_empty (query : string) (limit : Z)
    (items : list SourceItem) :
  1 ≤ limit → ETCBC_SAMPLES ≠ [] → search_etcbc query limit = Ok items →
  items ≠ [].
Proof.
  intros Hlimit Hcatalog. unfold search_etcbc.
  destruct (search_remote query limit) as [[found|]|e] eqn:Hremote; [| |done];
    cbn [mbind result_bind]; intros [= <-].
  - apply search_remote_bounded in Hremote as [Hpos _]; [|lia].
    destruct found; [simpl in Hpos; lia | done].
  - apply slice_to_nonempty; [done|].
    destruct ETCBC_SAMPLES; [done | discriminate].
Qed.

(** When the request to GitHub raises [httpx.HTTPError], or the answer has a
    status other than 200, the result is the head of the local catalog,
    whatever the query. *)
Theorem search_etcbc_fallback (query : string) (limit : Z) :
  (∀ json, client_get (query +:+ " repo:ETCBC/bhsa") (str_of_int limit)
           ≠ Response 200 json) →
  search_etcbc query limit = Ok (slice_to limit (map fallback_source ETCBC_SAMPLES)).
Proof.
  intros Hnot. unfold search_etcbc, search_remote.
  destruct (client_get _ _) as [|status_code json] eqn:Hget; [done|].
  destruct (status_code =? 200) eqn:Hstatus; [|done].
  apply Z.eqb_eq in Hstatus as ->. by destruct (Hnot json).
Qed.

(** What becomes of an answer with status 200.  When decoding its body
    raises, the search raises that exception, as only [httpx.HTTPError] is
    caught, and the local catalog is not consulted.  When the body is decoded
    and no item is left within the limit, for want of the key, of items or of
    a positive limit, the result is the head of the local catalog. *)
Theorem search_etcbc_status_ok (query : string) (limit : Z) :
  (∀ e, client_get (query +:+ " repo:ETCBC/bhsa") (str_of_int limit)
        = Response 200 (Raise e) →
        search_etcbc query limit = Raise e) ∧
  (∀ data, client_get (query +:+ " repo:ETCBC/bhsa") (str_of_int limit)
           = Response 200 (Ok data) →
           slice_to limit (default [] data) = [] →
           search_etcbc query limit
           = Ok (slice_to limit (map fallback_source ETCBC_SAMPLES))).
Proof.
  unfold search_etcbc, search_remote. split.
  - intros e Hget. by rewrite Hget.
  - intros data Hget Hnone. rewrite Hget. cbn [Z.eqb Pos.eqb mbind result_bind].
    by rewrite Hnone.
Qed.
End SearchEtcbcFacts.

Lemma search_etcbc_bounded_witness :
  ∃ items,
    @search_etcbc Fixtures.ascii_lower Fixtures.catalogs Scenario.two_hits
      "blessing" 1 = Ok items ∧
    (length items ≤ 1)%nat.
Proof.
  eexists. split; [reflexivity|].
  by apply (@search_etcbc_bounded Fixtures.ascii_lower Fixtures.catalogs
              Scenario.two_hits "blessing" 1).
Defined.

Lemma search_etcbc_never_empty_witness :
  ∃ items,
    @search_etcbc Fixtures.ascii_lower Fixtures.catalogs Scenario.offline
      "blessing" 5 = Ok items ∧
    items ≠ [].
Proof.
  eexists. split; [reflexivity|].
  by apply (@search_etcbc_never_empty Fixtures.ascii_lower Fixtures.catalogs
              Scenario.offline "blessing" 5).
Defined.

Lemma search_etcbc_fallback_witness :
  @search_etcbc Fixtures.ascii_lower Fixtures.catalogs Scenario.offline "blessing" 1
  = Ok [ {| src_name := Some "Genesis 12:1-3";
            src_path := Some "samples/genesis.json";
            src_html_url := Some "https://github.com/ETCBC/bhsa";
            src_repository := "ETCBC/bhsa" |} ].
Proof.
  by rewrite (@search_etcbc_fallback Fixtures.ascii_lower Fixtures.catalogs
                Scenario.offline "blessing" 1).
Defined.

Lemma search_etcbc_status_ok_witness :
  @search_etcbc Fixtures.ascii_lower Fixtures.catalogs Scenario.garbled "blessing" 5
  = Raise ValueError ∧
  @search_etcbc Fixtures.ascii_lower Fixtures.catalogs Scenario.two_hits "blessing" 0
  = Ok [].
Proof.
  split.
  - by apply (@search_etcbc_status_ok Fixtures.ascii_lower Fixtures.catalogs
                Scenario.garbled "blessing" 5).
  - by rewrite (proj2 (@search_etcbc_status_ok Fixtures.ascii_lower
                         Fixtures.catalogs Scenario.two_hits "blessing" 0)
                  _ eq_refl eq_refl).
Defined.

(** ** Request handler *)

Lemma basename_from_spec (s current before : string) :
  current = before +:+ s →
  byte 47 ∉ String.list_ascii_of_string before →
  byte 47 ∉ String.list_ascii_of_string (basename_from current s).
Proof.
  revert current before.
  induction s as [|c s IH]; intros current before Hcurrent Hbefore.
  - cbn [basename_from]. subst current.
    rewrite list_ascii_of_string_append. cbn [String.list_ascii_of_string].
    by rewrite app_nil_r.
  - cbn [basename_from]. destruct (Ascii.eqb c (byte 47)) eqn:Hc.
    + apply (IH s ""); [done | apply not_elem_of_nil].
    + apply (IH current (before +:+ String c "")).
      * subst current. by rewrite append_assoc.
      * rewrite list_ascii_of_string_append. cbn [String.list_ascii_of_string].
        apply Ascii.eqb_neq in Hc.
        intros [Hin|Hin]%elem_of_app; [done|].
        apply list_elem_of_singleton in Hin. congruence.
Qed.

Lemma basename_no_slash (path : string) :
  byte 47 ∉ String.list_ascii_of_string (basename path).
Proof. apply (basename_from_spec path path ""); [done | apply not_elem_of_nil]. Qed.

Section GenerateLessonFacts.
Context `{!StrLower, !Catalogs, !ConvertDate, !DateUtil, !Httpx, !Host}.

(** The steps behind a response. *)
Lemma generate_lesson_steps (payload : LessonRequest) (response : LessonResponse) :
  generate_lesson payload = Returns response →
  (opt_truthy (rq_topic payload) = true ∨ opt_truthy (rq_passage payload) = true) ∧
  ∃ target_date sample introduction pptx_path,
    target_date_of payload = Returns target_date ∧
    select_sample (rq_topic payload) (rq_passage payload) = Ok sample ∧
    hebrew_festival_matches target_date = Ok (festivals response) ∧
    congregation_context (rq_congregation_id payload) target_date
    = Ok (congregation response) ∧
    build_introduction sample (rq_audience payload) (rq_occasion payload)
      (festivals response) (congregation response) = Returns introduction ∧
    create_pptx (create_slides introduction
                   (construct_sections sample (rq_estimated_minutes payload))
                   (build_conclusion sample introduction)) = Returns pptx_path ∧
    estimate_runtime (rq_estimated_minutes payload) (rq_interpreted payload)
    = Ok (runtime_minutes response) ∧
    search_etcbc (github_query_of payload sample) 5 = Ok (github_sources response) ∧
    ls_introduction (lesson response) = introduction ∧
    ls_conclusion (lesson response) = build_conclusion sample introduction ∧
    ls_sections (lesson response)
    = construct_sections sample (rq_estimated_minutes payload) ∧
    ls_slides (lesson response)
    = create_slides introduction
        (construct_sections sample (rq_estimated_minutes payload))
        (build_conclusion sample introduction) ∧
    ls_canvas (lesson response)
    = {| cv_introduction := introduction;
         cv_sections := construct_sections sample (rq_estimated_minutes payload);
         cv_conclusion := build_conclusion sample introduction |} ∧
    ls_hebrew_focus (lesson response) = hebrew_focus sample ∧
    ls_morphology (lesson response) = morphology sample ∧
    ls_themes (lesson response) = themes sample ∧
    pptx_download response = "/api/pptx/" +:+ basename pptx_path.
Proof.
  unfold generate_lesson. intros Hrun.
  destruct (negb (opt_truthy (rq_topic payload)) &&
            negb (opt_truthy (rq_passage payload))) eqn:Hsubject; [done|].
  split.
  { destruct (opt_truthy (rq_topic payload)), (opt_truthy (rq_passage payload));
      auto; discriminate. }
  destruct (target_date_of payload) as [target_date|] eqn:Hdate; [|done].
  cbn [mbind outcome_bind] in Hrun.
  destruct (select_sample _ _) as [sample|] eqn:Hsample; [|done].
  cbn [uncaught mbind outcome_bind] in Hrun.
  destruct (hebrew_festival_matches target_date) as [matches|] eqn:Hmatches; [|done].
  cbn [uncaught mbind outcome_bind] in Hrun.
  destruct (congregation_context _ _) as [context|] eqn:Hcontext; [|done].
  cbn [uncaught mbind outcome_bind] in Hrun.
  destruct (build_introduction _ _ _ _ _) as [introduction|] eqn:Hintro; [|done].
  cbn [mbind outcome_bind] in Hrun.
  destruct (create_pptx _) as [pptx_path|] eqn:Hpptx; [|done].
  cbn [mbind outcome_bind] in Hrun.
  destruct (estimate_runtime _ _) as [minutes|] eqn:Hminutes; [|done].
  cbn [uncaught mbind outcome_bind] in Hrun.
  destruct (search_etcbc _ _) as [sources|] eqn:Hsources; [|done].
  cbn [uncaught mbind outcome_bind] in Hrun.
  injection Hrun as <-. cbn.
  by exists target_date, sample, introduction, pptx_path.
Qed.

(** A request with neither a topic nor a passage, absent or empty, is
    answered with status 400 before anything else is looked at. *)
Theorem generate_lesson_requires_subject (payload : LessonRequest) :
  opt_truthy (rq_topic payload) = false →
  opt_truthy (rq_passage payload) = false →
  generate_lesson payload = Fails (HTTPException 400 "Topic or passage required").
Proof. intros Htopic Hpassage. unfold generate_lesson. by rewrite Htopic, Hpassage. Qed.

(** A request with a subject whose date is given and does not parse is
    answered with status 400, whatever the catalogs hold. *)
Theorem generate_lesson_invalid_date (payload : LessonRequest) (e : exn) :
  opt_truthy (rq_topic payload) = true ∨ opt_truthy (rq_passage payload) = true →
  opt_truthy (rq_date payload) = true →
  isoparse (or_empty (rq_date payload)) = Raise e →
  e = ValueError ∨ e = TypeError →
  generate_lesson payload = Fails (HTTPException 400 "Invalid date format").
Proof.
  intros Hsubject Hdate Hparse He. unfold generate_lesson, target_date_of.
  rewrite Hdate, Hparse.
  destruct Hsubject as [-> | ->], He as [-> | ->]; cbn [negb andb];
    rewrite ?andb_false_r; reflexivity.
Qed.

(** Without a date in the request, absent or empty, festivals and
    congregation events are those around the clock of the host. *)
Theorem generate_lesson_clock (payload : LessonRequest) (response : LessonResponse) :
  opt_truthy (rq_date payload) = false →
  generate_lesson payload = Returns response →
  hebrew_festival_matches utcnow = Ok (festivals response) ∧
  congregation_context (rq_congregation_id payload) utcnow
  = Ok (congregation response).
Proof.
  intros Hdate Hrun.
  destruct (generate_lesson_steps _ _ Hrun)
    as (_ & target_date & sample & introduction & pptx_path & Htarget & _ &
        Hmatches & Hcontext & _).
  unfold target_date_of in Htarget. rewrite Hdate in Htarget.
  by injection Htarget as <-.
Qed.

(** Within the validated range of minutes the runtime of the response is
    the request, or for an interpreted lesson the larger of 10 and the
    integer part of 65 percent of it; it lies between 10 and the request. *)
Theorem generate_lesson_runtime (payload : LessonRequest) (response : LessonResponse) :
  minutes_validated payload →
  generate_lesson payload = Returns response →
  runtime_minutes response
  = (if rq_interpreted payload
     then Z.max 10 (rq_estimated_minutes payload * 65 / 100)
     else rq_estimated_minutes payload) ∧
  10 ≤ runtime_minutes response ≤ rq_estimated_minutes payload.
Proof.
  unfold minutes_validated. intros Hminutes Hrun.
  destruct (generate_lesson_steps _ _ Hrun)
    as (_ & target_date & sample & introduction & pptx_path & _ & _ & _ & _ & _ &
        _ & Hruntime & _).
  destruct (rq_interpreted payload).
  - rewrite estimate_runtime_interpreted in Hruntime.
    + injection Hruntime as <-. split; [done|].
      assert (rq_estimated_minutes payload * 65 / 100 ≤ rq_estimated_minutes payload)
        by (apply Z.div_le_upper_bound; lia).
      lia.
    + split.
      * assert (0 < 2 ^ 1024 - 2 ^ 970); [|lia].
        assert (2 ^ 970 < 2 ^ 1024) by (apply Z.pow_lt_mono_r; lia). lia.
      * change (2 ^ 48) with 281474976710656. lia.
  - unfold estimate_runtime in Hruntime. injection Hruntime as <-. lia.
Qed.

(** The lesson of a response is built on a sample of the catalog; its deck
    is an opening slide, one numbered slide per section, two sections below
    25 minutes and three from there, and a closing slide; the canvas repeats
    introduction, sections and conclusion. *)
Theorem generate_lesson_lesson (payload : LessonRequest) (response : LessonResponse) :
  generate_lesson payload = Returns response →
  let plan := lesson response in
  (∃ sample, sample ∈ ETCBC_SAMPLES ∧
             ls_hebrew_focus plan = hebrew_focus sample ∧
             ls_morphology plan = morphology sample ∧
             ls_themes plan = themes sample ∧
             ls_sections plan
             = construct_sections sample (rq_estimated_minutes payload) ∧
             ls_conclusion plan = build_conclusion sample (ls_introduction plan)) ∧
  ls_slides plan
  = create_slides (ls_introduction plan) (ls_sections plan) (ls_conclusion plan) ∧
  map slide_title (ls_slides plan)
  = (if rq_estimated_minutes payload <? 25
     then ["Opening Story"; "1. Textual Horizon"; "2. Concise Insight";
           "Sending Charge"]
     else ["Opening Story"; "1. Textual Horizon"; "2. Linguistic Insights";
           "3. Formation Pathways"; "Sending Charge"]) ∧
  ls_canvas plan
  = {| cv_introduction := ls_introduction plan;
       cv_sections := ls_sections plan;
       cv_conclusion := ls_conclusion plan |}.
Proof.
  intros Hrun plan. subst plan.
  destruct (generate_lesson_steps _ _ Hrun)
    as (_ & target_date & sample & introduction & pptx_path & _ & Hsample & _ & _ &
        _ & _ & _ & _ & -> & -> & -> & -> & -> & -> & -> & -> & _).
  split_and!; [|done| |done].
  - exists sample. split_and!; try done.
    unfold select_sample in Hsample.
    repeat match type of Hsample with
           | context [first_sample ?test ?samples] =>
               let Hfound := fresh "Hfound" in
               destruct (first_sample test samples) eqn:Hfound;
               [injection Hsample as <-; by apply first_sample_member in Hfound|]
           | context [if ?b then _ else _] => destruct b
           end;
      destruct ETCBC_SAMPLES as [|head rest]; try discriminate;
      injection Hsample as <-; set_solver.
  - unfold construct_sections.
    by destruct (rq_estimated_minutes payload <? 25).
Qed.

(** The query sent to the code search is the passage of the request, or its
    topic when there is no passage: as a request without either is refused,
    the reference of the sample is never the query.  At most five sources
    are returned. *)
Theorem generate_lesson_sources (payload : LessonRequest)
    (response : LessonResponse) :
  generate_lesson payload = Returns response →
  let query := if opt_truthy (rq_passage payload) then or_empty (rq_passage payload)
               else or_empty (rq_topic payload) in
  str_truthy query = true ∧
  search_etcbc query 5 = Ok (github_sources response) ∧
  (length (github_sources response) ≤ 5)%nat.
Proof.
  intros Hrun query. subst query.
  destruct (generate_lesson_steps _ _ Hrun)
    as (Hsubject & target_date & sample & introduction & pptx_path & _ & _ & _ &
        _ & _ & _ & _ & Hsources & _).
  unfold github_query_of in Hsources.
  assert (Hlength : (length (github_sources response) ≤ Z.to_nat 5)%nat).
  { unfold search_etcbc in Hsources.
    destruct (search_remote _ 5) as [[found|]|] eqn:Hremote; [| |done];
      cbn [mbind result_bind] in Hsources; injection Hsources as <-.
    - apply search_remote_bounded in Hremote as [_ ?]; [done | lia].
    - by apply slice_to_length. }
  destruct (opt_truthy (rq_passage payload)) eqn:Hpassage.
  - split_and!; [exact Hpassage | done | lia].
  - destruct Hsubject as [Htopic|?]; [|done]. rewrite Htopic in Hsources.
    split_and!; [exact Htopic | done | lia].
Qed.

(** The download link of a response is [/api/pptx/] followed by a file name
    without a slash, the last component of the path of the written deck. *)
Theorem generate_lesson_download_link (payload : LessonRequest)
    (response : LessonResponse) :
  generate_lesson payload = Returns response →
  ∃ pptx_path,
    create_pptx (ls_slides (lesson response)) = Returns pptx_path ∧
    pptx_download response = "/api/pptx/" +:+ basename pptx_path ∧
    byte 47 ∉ String.list_ascii_of_string (basename pptx_path).
Proof.
  intros Hrun.
  destruct (generate_lesson_steps _ _ Hrun)
    as (_ & target_date & sample & introduction & pptx_path & _ & _ & _ & _ & _ &
        Hpptx & _ & _ & _ & _ & _ & -> & _ & _ & _ & _ & ->).
  exists pptx_path. split_and!; [done | done | apply basename_no_slash].
Qed.

(** When the nearest congregation event of an otherwise served request has
    no emphasis, the handler raises [AttributeError]: no deck is written and
    no response is built. *)
Theorem generate_lesson_attribute_error (payload : LessonRequest)
    (target_date : datetime) (sample : Sample) (matches : list FestivalMatch)
    (context : CongregationContext) :
  opt_truthy (rq_topic payload) = true ∨ opt_truthy (rq_passage payload) = true →
  target_date_of payload = Returns target_date →
  select_sample (rq_topic payload) (rq_passage payload) = Ok sample →
  hebrew_festival_matches target_date = Ok matches →
  congregation_context (rq_congregation_id payload) target_date = Ok context →
  nearest_event_without_emphasis context →
  generate_lesson payload = Fails AttributeError.
Proof.
  intros Hsubject Hdate Hsample Hmatches Hcontext Hnearest.
  unfold generate_lesson.
  replace (negb (opt_truthy (rq_topic payload)) &&
           negb (opt_truthy (rq_passage payload))) with false
    by (destruct Hsubject as [-> | ->]; cbn [negb andb];
        rewrite ?andb_false_r; reflexivity).
  rewrite Hdate. cbn [mbind outcome_bind].
  rewrite Hsample. cbn [uncaught mbind outcome_bind].
  rewrite Hmatches. cbn [uncaught mbind outcome_bind].
  rewrite Hcontext. cbn [uncaught mbind outcome_bind].
  rewrite build_introduction_text.
  pose proof (introduction_text_outcome sample (rq_audience payload)
                (rq_occasion payload) matches context) as Hout.
  destruct (introduction_text _ _ _ _ _) as [text|f]; [done|].
  by destruct Hout as [-> _].
Qed.
End GenerateLessonFacts.

Lemma generate_lesson_requires_subject_witness :
  @generate_lesson Fixtures.ascii_lower Fixtures.catalogs Fixtures.table_calendar
    Fixtures.iso_dates Scenario.offline Scenario.host
    Scenario.request_without_subject
  = Fails (HTTPException 400 "Topic or passage required").
Proof.
  by apply (@generate_lesson_requires_subject Fixtures.ascii_lower Fixtures.catalogs
              Fixtures.table_calendar Fixtures.iso_dates Scenario.offline
              Scenario.host Scenario.request_without_subject).
Defined.

Lemma generate_lesson_invalid_date_witness :
  @generate_lesson Fixtures.ascii_lower Fixtures.catalogs Fixtures.table_calendar
    Fixtures.iso_dates Scenario.offline Scenario.host
    (Scenario.dated_request "next Sunday")
  = Fails (HTTPException 400 "Invalid date format").
Proof.
  apply (@generate_lesson_invalid_date Fixtures.ascii_lower Fixtures.catalogs
           Fixtures.table_calendar Fixtures.iso_dates Scenario.offline
           Scenario.host (Scenario.dated_request "next Sunday") ValueError).
  - by left.
  - reflexivity.
  - reflexivity.
  - by left.
Defined.

Lemma generate_lesson_clock_witness :
  ∃ response,
    @generate_lesson Fixtures.ascii_lower Fixtures.catalogs Fixtures.table_calendar
      Fixtures.iso_dates Scenario.offline Scenario.host Scenario.request
    = Returns response ∧
    @hebrew_festival_matches Fixtures.table_calendar (@utcnow Scenario.host)
    = Ok (festivals response) ∧
    @congregation_context Fixtures.iso_dates Fixtures.catalogs "default"
      (@utcnow Scenario.host) = Ok (congregation response).
Proof.
  destruct (@generate_lesson Fixtures.ascii_lower Fixtures.catalogs
              Fixtures.table_calendar Fixtures.iso_dates Scenario.offline
              Scenario.host Scenario.request) as [response|f] eqn:Hrun;
    [|vm_compute in Hrun; discriminate].
  exists response. split; [done|].
  by apply (@generate_lesson_clock Fixtures.ascii_lower Fixtures.catalogs
              Fixtures.table_calendar Fixtures.iso_dates Scenario.offline
              Scenario.host Scenario.request response).
Defined.

Lemma generate_lesson_runtime_witness :
  ∃ response,
    @generate_lesson Fixtures.ascii_lower Fixtures.catalogs Fixtures.table_calendar
      Fixtures.iso_dates Scenario.offline Scenario.host Scenario.request
    = Returns response ∧
    runtime_minutes response = 13.
Proof.
  destruct (@generate_lesson Fixtures.ascii_lower Fixtures.catalogs
              Fixtures.table_calendar Fixtures.iso_dates Scenario.offline
              Scenario.host Scenario.request) as [response|f] eqn:Hrun;
    [|vm_compute in Hrun; discriminate].
  exists response. split; [done|].
  assert (Hvalid : minutes_validated Scenario.request)
    by (unfold minutes_validated; simpl; lia).
  by destruct (@generate_lesson_runtime Fixtures.ascii_lower Fixtures.catalogs
                 Fixtures.table_calendar Fixtures.iso_dates Scenario.offline
                 Scenario.host Scenario.request response Hvalid Hrun) as [-> _].
Defined.

Lemma generate_lesson_lesson_witness :
  ∃ response,
    @generate_lesson Fixtures.ascii_lower Fixtures.catalogs Fixtures.table_calendar
      Fixtures.iso_dates Scenario.two_hits Scenario.host Scenario.request
    = Returns response ∧
    map slide_title (ls_slides (lesson response))
    = ["Opening Story"; "1. Textual Horizon"; "2. Concise Insight";
       "Sending Charge"].
Proof.
  destruct (@generate_lesson Fixtures.ascii_lower Fixtures.catalogs
              Fixtures.table_calendar Fixtures.iso_dates Scenario.two_hits
              Scenario.host Scenario.request) as [response|f] eqn:Hrun;
    [|vm_compute in Hrun; discriminate].
  exists response. split; [done|].
  by destruct (@generate_lesson_lesson Fixtures.ascii_lower Fixtures.catalogs
                 Fixtures.table_calendar Fixtures.iso_dates Scenario.two_hits
                 Scenario.host Scenario.request response Hrun)
    as (_ & _ & -> & _).
Defined.

Lemma generate_lesson_sources_witness :
  ∃ response,
    @generate_lesson Fixtures.ascii_lower Fixtures.catalogs Fixtures.table_calendar
      Fixtures.iso_dates Scenario.two_hits Scenario.host Scenario.request
    = Returns response ∧
    @search_etcbc Fixtures.ascii_lower Fixtures.catalogs Scenario.two_hits
      "blessing" 5 = Ok (github_sources response) ∧
    (length (github_sources response) ≤ 5)%nat.
Proof.
  destruct (@generate_lesson Fixtures.ascii_lower Fixtures.catalogs
              Fixtures.table_calendar Fixtures.iso_dates Scenario.two_hits
              Scenario.host Scenario.request) as [response|f] eqn:Hrun;
    [|vm_compute in Hrun; discriminate].
  exists response. split; [done|].
  by destruct (@generate_lesson_sources Fixtures.ascii_lower Fixtures.catalogs
                 Fixtures.table_calendar Fixtures.iso_dates Scenario.two_hits
                 Scenario.host Scenario.request response Hrun)
    as (_ & Hsearch & Hlength).
Defined.

Lemma generate_lesson_download_link_witness :
  ∃ response,
    @generate_lesson Fixtures.ascii_lower Fixtures.catalogs Fixtures.table_calendar
      Fixtures.iso_dates Scenario.offline Scenario.host Scenario.request
    = Returns response ∧
    pptx_download response = "/api/pptx/lesson_0123.pptx".
Proof.
  destruct (@generate_lesson Fixtures.ascii_lower Fixtures.catalogs
              Fixtures.table_calendar Fixtures.iso_dates Scenario.offline
              Scenario.host Scenario.request) as [response|f] eqn:Hrun;
    [|vm_compute in Hrun; discriminate].
  exists response. split; [done|].
  destruct (@generate_lesson_download_link Fixtures.ascii_lower Fixtures.catalogs
              Fixtures.table_calendar Fixtures.iso_dates Scenario.offline
              Scenario.host Scenario.request response Hrun)
    as (pptx_path & Hpath & -> & _).
  by injection Hpath as <-.
Defined.

Lemma generate_lesson_attribute_error_witness :
  @generate_lesson Fixtures.ascii_lower Fixtures.catalogs Fixtures.table_calendar
    Fixtures.iso_dates Scenario.offline Scenario.host
    (Scenario.dated_request "2025-08-09")
  = Fails AttributeError.
Proof.
  eapply (@generate_lesson_attribute_error Fixtures.ascii_lower Fixtures.catalogs
            Fixtures.table_calendar Fixtures.iso_dates Scenario.offline
            Scenario.host (Scenario.dated_request "2025-08-09")
            (Fixtures.midnight 2025 8 9) Fixtures.genesis []
            {| cc_name := Some "Esther Fellowship"; cc_location := Some "Singapore";
               cc_values := ["Hospitality"];
               nearby_events := [ {| ev_description := "National day";
                                     ev_emphasis := None;
                                     ev_days_apart := 0 |} ] |}).
  - by left.
  - reflexivity.
  - reflexivity.
  - by vm_compute.
  - by vm_compute.
  - by eexists _, _.
Defined.

Section GenerateLessonFailures.
Context `{!StrLower, !Catalogs, !ConvertDate, !DateUtil, !Httpx, !Host}.

(** The handler answers with no other [HTTPException] than its two 400s:
    when writing the deck raises none, a failure with a status code is
    "Topic or passage required", for a request without subject, or "Invalid
    date format", for a request whose date does not parse. *)
Theorem generate_lesson_http_errors (payload : LessonRequest) (code : Z)
    (detail : string) :
  (∀ slides c d, create_pptx slides ≠ Fails (HTTPException c d)) →
  generate_lesson payload = Fails (HTTPException code detail) →
  code = 400 ∧
  (detail = "Topic or passage required" ∧
   opt_truthy (rq_topic payload) = false ∧ opt_truthy (rq_passage payload) = false
   ∨
   detail = "Invalid date format" ∧ opt_truthy (rq_date payload) = true ∧
   ∃ e, isoparse (or_empty (rq_date payload)) = Raise e).
Proof.
  intros Hdeck. unfold generate_lesson.
  destruct (opt_truthy (rq_topic payload)) eqn:Htopic,
           (opt_truthy (rq_passage payload)) eqn:Hpassage; cbn [negb andb].
  4: { intros [= <- <-]. split; [done|]. by left. }
  all: unfold target_date_of.
  all: destruct (opt_truthy (rq_date payload)) eqn:Hdate.
  all: try destruct (isoparse (or_empty (rq_date payload))) as [parsed|e] eqn:Hparse.
  all: try (destruct e; cbn [mbind outcome_bind];
            first [ done
                  | intros [= <- <-]; split; [done|]; right;
                    split_and!; [done | done | by eexists] ]).
  all: cbn [mbind outcome_bind].
  all: destruct (select_sample _ _) as [sample|];
       cbn [uncaught mbind outcome_bind]; [|done].
  all: destruct (hebrew_festival_matches _) as [matches|];
       cbn [uncaught mbind outcome_bind]; [|done].
  all: destruct (congregation_context _ _) as [context|];
       cbn [uncaught mbind outcome_bind]; [|done].
  all: match goal with
       | |- context [build_introduction ?s ?a ?o ?f ?c] =>
           pose proof (introduction_text_outcome s a o f c) as Hout;
           rewrite (build_introduction_text s a o f c);
           destruct (introduction_text s a o f c) as [introduction|failure];
           cbn [mbind outcome_bind]; [|by destruct Hout as [-> _]]
       end.
  all: match goal with
       | |- context [create_pptx ?slides] =>
           pose proof (Hdeck slides) as Hslides;
           destruct (create_pptx slides) as [pptx_path|failure];
           cbn [mbind outcome_bind];
           [|intros [= ->]; by destruct (Hslides code detail)]
       end.
  all: destruct (estimate_runtime _ _); cbn [uncaught mbind outcome_bind]; [|done].
  all: by destruct (search_etcbc _ _).
Qed.
End GenerateLessonFailures.

Lemma generate_lesson_http_errors_witness :
  opt_truthy (rq_date (Scenario.dated_request "next Sunday")) = true ∧
  ∃ e, @isoparse Fixtures.iso_dates "next Sunday" = Raise e.
Proof.
  assert (Hrun : @generate_lesson Fixtures.ascii_lower Fixtures.catalogs
                   Fixtures.table_calendar Fixtures.iso_dates Scenario.offline
                   Scenario.host (Scenario.dated_request "next Sunday")
                 = Fails (HTTPException 400 "Invalid date format"))
    by reflexivity.
  assert (Hdeck : ∀ slides c d,
            @create_pptx Scenario.host slides ≠ Fails (HTTPException c d))
    by done.
  destruct (@generate_lesson_http_errors Fixtures.ascii_lower Fixtures.catalogs
              Fixtures.table_calendar Fixtures.iso_dates Scenario.offline
              Scenario.host (Scenario.dated_request "next Sunday") 400
              "Invalid date format" Hdeck Hrun)
    as [_ [[Hdetail _] | (_ & Hdate & Hparse)]]; [discriminate Hdetail|].
  by split.
Defined.

(** ** Runtime estimator, beyond the largest double *)

Lemma binary_round_aux_overflow (sx : bool) (P : positive) (e0 : Z) :
  let D := Zpos (digits2_pos P) in
  53 < D → -1074 ≤ e0 + D - 53 →
  ∃ M1,
    is_rne (Zpos P) (D - 53) M1 ∧ 2 ^ 52 ≤ M1 ≤ 2 ^ 53 ∧
    (971 < e0 + D - 53 + (if M1 <? 2 ^ 53 then 0 else 1) →
     binary_round_aux prec emax sx (Zpos P) e0 loc_Exact = S754_infinity sx).
Proof.
  intros D HD Hmin. pose proof (digits2_pos_bounds P) as [Hlo Hhi].
  fold D in Hlo, Hhi.
  unfold binary_round_aux, shr_fexp. cbn [Zdigits2]. fold D.
  rewrite fexp_normal by lia.
  replace (D + e0 - 53 - e0) with (D - 53) by lia.
  replace (e0 + D - 53) with (e0 + (D - 53)) by lia.
  destruct (D - 53) as [|n|n] eqn:Hn; [lia| |lia].
  cbn [shr shr_record_of_loc].
  assert (Hinv : shr_inv (Zpos P) (0 + Zpos n)
                   (iter_pos shr_1 n {| shr_m := Zpos P; shr_r := false; shr_s := false |})).
  { apply iter_shr_1_inv; [lia|]. exists 0. cbn [shr_m shr_r shr_s].
    split_and!; try done; lia. }
  rewrite Z.add_0_l in Hinv.
  apply round_nearest_even_spec in Hinv as (Hm & Hle & Hrne); [|lia].
  set (mrs := iter_pos shr_1 n _) in *.
  set (M1 := round_nearest_even (shr_m mrs) (loc_of_shr_record mrs)) in *.
  assert (Hpow : 2 ^ (D - 1) = 2 ^ 52 * 2 ^ Zpos n).
  { rewrite <- Z.pow_add_r by lia. f_equal. lia. }
  assert (Hpow' : 2 ^ D = 2 ^ 53 * 2 ^ Zpos n).
  { rewrite <- Z.pow_add_r by lia. f_equal. lia. }
  assert (Hn0 : 0 < 2 ^ Zpos n) by (apply Z.pow_pos_nonneg; lia).
  assert (Hm52 : 2 ^ 52 ≤ shr_m mrs).
  { rewrite Hm. apply Z.div_le_lower_bound; lia. }
  assert (HM53 : M1 ≤ 2 ^ 53).
  { destruct Hrne as [[_ Hup] _].
    destruct (Z.le_gt_cases M1 (2 ^ 53)) as [|Hgt]; [done|]. exfalso.
    assert ((2 ^ 53 + 1) * 2 ^ Zpos n ≤ M1 * 2 ^ Zpos n)
      by (apply Z.mul_le_mono_nonneg_r; lia).
    lia. }
  exists M1. split; [done|]. split; [lia|].
  destruct (Z.ltb_spec M1 (2 ^ 53)) as [Hlt|Hge]; intros Hfin.
  - destruct M1 as [|M1p|M1p] eqn:HM1; [lia| |lia].
    cbn [Zdigits2 Z.to_pos].
    assert (Hd : Zpos (digits2_pos M1p) = 53).
    { apply digits2_pos_unique. change (53 - 1) with 52. lia. }
    rewrite Hd, fexp_normal by lia.
    replace (53 + (e0 + Zpos n) - 53 - (e0 + Zpos n)) with 0 by lia.
    cbn [shr shr_record_of_loc shr_m]. unfold prec, emax.
    destruct (Z.leb_spec (e0 + Zpos n) (1024 - 53)); [lia | done].
  - assert (HM1 : M1 = 9007199254740992)
      by (change (2 ^ 53) with 9007199254740992 in *; lia).
    rewrite HM1.
    change (Zdigits2 9007199254740992) with 54.
    rewrite fexp_normal by lia.
    replace (54 + (e0 + Zpos n) - 53 - (e0 + Zpos n)) with 1 by lia.
    cbn [shr iter_pos shr_record_of_loc shr_1 shr_m].
    unfold prec, emax.
    destruct (Z.leb_spec (e0 + Zpos n + 1) (1024 - 53)); [lia | done].
Qed.

Lemma binary_round_overflow (sx : bool) (p : positive) :
  2 ^ 1024 - 2 ^ 970 ≤ Zpos p →
  binary_round prec emax sx p 0 = S754_infinity sx.
Proof.
  intros Hp.
  pose proof (digits2_pos_bounds p) as [Hlo Hhi].
  set (D := Zpos (digits2_pos p)) in *.
  assert (HT : 2 ^ 1024 = 2 ^ 54 * 2 ^ 970) by (by rewrite <- pow2_split).
  assert (HT' : 2 ^ 1023 = 2 ^ 53 * 2 ^ 970) by (by rewrite <- pow2_split).
  assert (HT'' : 2 ^ 971 = 2 * 2 ^ 970) by (by rewrite <- Z.pow_succ_r).
  pose proof (pow2_pos 970 ltac:(lia)) as HT0.
  change (2 ^ 54) with 18014398509481984 in HT.
  change (2 ^ 53) with 9007199254740992 in HT'.
  assert (HD : 1024 ≤ D).
  { destruct (Z.le_gt_cases 1024 D) as [|Hlt]; [done|].
    assert (0 ≤ D) by (subst D; lia).
    assert (2 ^ D ≤ 2 ^ 1023) by (apply Z.pow_le_mono_r; lia). lia. }
  destruct (binary_round_aux_overflow sx p 0) as (M1 & Hrne & HM1 & Hinf);
    [fold D; lia | fold D; lia |].
  fold D in Hrne, Hinf.
  unfold binary_round. rewrite Z.add_0_r. fold D.
  rewrite fexp_normal by lia. unfold shl_align. rewrite Z.sub_0_r.
  destruct (D - 53) as [|n|n] eqn:Hn; [lia| |lia].
  rewrite <- Hn in *. apply Hinf.
  destruct (Z.ltb_spec M1 (2 ^ 53)) as [Hlt|Hge]; [|lia].
  destruct (Z.eq_dec D 1024) as [HDeq|]; [exfalso|lia].
  destruct Hrne as [[Hdown _] Heven]. rewrite HDeq in Hdown, Heven.
  change (1024 - 53) with 971 in Hdown, Heven. rewrite HT'' in Hdown, Heven.
  change (2 ^ 53) with 9007199254740992 in Hlt.
  assert (Hge : 9007199254740991 ≤ M1).
  { apply (Z.mul_le_mono_pos_r _ _ (2 ^ 970)); lia. }
  assert (HM : M1 = 9007199254740991) by lia. subst M1.
  assert (Z.even 9007199254740991 = true); [|done].
  apply Heven. left. lia.
Qed.

(** Beyond the doubles the conversion of the request to a float raises: an
    interpreted estimate raises [OverflowError] exactly for the requests of
    absolute value 2^1024 - 2^970 or more, and no other exception for any
    request. *)
Theorem estimate_runtime_overflow (m : Z) :
  (estimate_runtime m true = Raise OverflowError ↔ 2 ^ 1024 - 2 ^ 970 ≤ Z.abs m) ∧
  (∀ e, estimate_runtime m true = Raise e → e = OverflowError).
Proof.
  assert (Hbound : 0 < 2 ^ 1024 - 2 ^ 970).
  { assert (2 ^ 970 < 2 ^ 1024) by (apply Z.pow_lt_mono_r; lia). lia. }
  destruct (Z.le_gt_cases (2 ^ 1024 - 2 ^ 970) (Z.abs m)) as [Hlarge|Hsmall].
  - assert (Hraise : estimate_runtime m true = Raise OverflowError).
    { unfold estimate_runtime, float_of_int.
      destruct m as [|p|p]; [simpl in Hlarge; lia| |];
        cbn [binary_normalize]; by rewrite binary_round_overflow. }
    rewrite Hraise. split; [done|]. by intros e [= <-].
  - assert (Hreturn : ∃ r, estimate_runtime m true = Ok r).
    { destruct m as [|p|p].
      - by eexists.
      - destruct (estimate_runtime_positive p) as (M & e & W & _ & _ & _ & _ & Hrun);
          [simpl in Hsmall; lia|]. by eexists.
      - rewrite estimate_runtime_negative by (simpl in Hsmall; lia). by eexists. }
    destruct Hreturn as [r Hrun]. rewrite Hrun.
    split; [|done]. split; [done | lia].
Qed.
